(** * BlueBuzzah2 firmware: session state machine, pattern generator,
      therapy engine, sync protocol and message framing.

    Shallow embedding of [src/state.py], [src/therapy.py], [src/sync.py],
    [src/ble.py], the part of [src/core/types.py] they use, the command
    parsing of [src/menu.py] and the message handling of [src/app.py]. *)

From Stdlib Require Import ZArith QArith Qround List String Ascii Bool Arith Lia.
From Stdlib Require Import DecimalString DecimalPos.
From Stdlib Require Import Permutation Lqa.
Import ListNotations.

Set Implicit Arguments.
Close Scope Q_scope.

(* ================================================================== *)
(** * The Python builtins the core relies on                           *)
(* ================================================================== *)

(** A Python [str] is held as its UTF-8 bytes in a Rocq [string]: encoding
    is then the identity and decoding is validation.  Every [str] operation
    the core uses (splitting on [':'] and ['|'], stripping white space,
    searching for [chr(4)], slicing before it, concatenation) acts on whole
    characters and is written here on their bytes. *)
Module Py.
Local Open Scope string_scope.

(** Exceptions the modelled code can raise. *)
Inductive exn : Type :=
| ValueError | UnicodeDecodeError | IndexError
| Exception.  (** what an injected callback raises, whatever its class *)

Inductive result (A : Type) : Type :=
| Ok (a : A)
| Raise (e : exn).
Arguments Ok {A} a.
Arguments Raise {A} e.

Definition bind {A B} (r : result A) (k : A -> result B) : result B :=
  match r with Ok a => k a | Raise e => Raise e end.

Definition of_option {A} (e : exn) (o : option A) : result A :=
  match o with Some a => Ok a | None => Raise e end.

(** ** [str(int)] and [int(str)] *)

(** [str(z)] for an integer: decimal digits, ['-'] for negatives. *)
Definition str_of_int (z : Z) : string :=
  NilZero.string_of_int (Z.to_int z).

(** White space as [str.strip()] sees it (the characters for which
    [str.isspace()] holds), on the UTF-8 bytes of the text.  One byte:
    U+0009 to U+000D, U+001C to U+0020. *)
Definition is_space (c : ascii) : bool :=
  let n := N_of_ascii c in
  ((9 <=? n) && (n <=? 13) || (28 <=? n) && (n <=? 32))%N.

(** Two bytes: U+0085 and U+00A0. *)
Definition is_space2 (a b : ascii) : bool :=
  let x := N_of_ascii a in
  let y := N_of_ascii b in
  ((x =? 194) && ((y =? 133) || (y =? 160)))%N.

(** Three bytes: U+1680, U+2000 to U+200A, U+2028, U+2029, U+202F, U+205F
    and U+3000. *)
Definition is_space3 (a b c : ascii) : bool :=
  let x := N_of_ascii a in
  let y := N_of_ascii b in
  let z := N_of_ascii c in
  ((x =? 225) && (y =? 154) && (z =? 128)
   || (x =? 226) && (y =? 128)
      && ((128 <=? z) && (z <=? 138) || (z =? 168) || (z =? 169) || (z =? 175))
   || (x =? 226) && (y =? 129) && (z =? 159)
   || (x =? 227) && (y =? 128) && (z =? 128))%N.

(** The byte can begin a white-space character. *)
Definition starts_space (c : ascii) : bool :=
  let n := N_of_ascii c in
  (is_space c || (n =? 194) || (n =? 225) || (n =? 226) || (n =? 227))%N.

(** The bytes are one white-space character. *)
Definition white (s : string) : bool :=
  match s with
  | String a EmptyString => is_space a
  | String a (String b EmptyString) => is_space2 a b
  | String a (String b (String c EmptyString)) => is_space3 a b c
  | _ => false
  end.

Fixpoint lstrip (s : string) : string :=
  match s with
  | EmptyString => EmptyString
  | String a r =>
      if is_space a then lstrip r
      else
        match r with
        | String b r1 =>
            if is_space2 a b then lstrip r1
            else
              match r1 with
              | String c r2 => if is_space3 a b c then lstrip r2 else s
              | EmptyString => s
              end
        | EmptyString => s
        end
  end.

Fixpoint rstrip (s : string) : string :=
  match s with
  | EmptyString => EmptyString
  | String a r =>
      let r' := rstrip r in
      if white (String a r') then EmptyString else String a r'
  end.

Definition strip (s : string) : string := rstrip (lstrip s).

(** The information separators U+001C to U+001F: white space to
    [strip()], but not to [int()]. *)
Definition is_separator (c : ascii) : bool :=
  let n := N_of_ascii c in ((28 <=? n) && (n <=? 31))%N.

Fixpoint has_separator (s : string) : bool :=
  match s with
  | EmptyString => false
  | String c r => is_separator c || has_separator r
  end.

(** [int(s)] on text: surrounding white space is ignored (the separators
    apart), one optional sign, then at least one decimal digit; anything
    else raises [ValueError] ([None] here).  The digits are the ASCII
    ones, without the underscores and the digits of other scripts that
    CPython reads as well. *)
Definition int (s : string) : option Z :=
  if has_separator s then None
  else
    match strip s with
    | String "+" r => option_map Z.of_uint (NilZero.uint_of_string r)
    | String "-" r => option_map (fun d => Z.opp (Z.of_uint d)) (NilZero.uint_of_string r)
    | r => option_map Z.of_uint (NilZero.uint_of_string r)
    end.

(** ** [str.split], [str.join], [in], [index], slicing *)

Definition cons_head (c : ascii) (l : list string) : list string :=
  match l with
  | [] => [String c EmptyString]
  | h :: t => String c h :: t
  end.

(** [s.split(sep)] for a one-character separator. *)
Fixpoint split (sep : ascii) (s : string) : list string :=
  match s with
  | EmptyString => [EmptyString]
  | String c r =>
      if Ascii.eqb c sep then EmptyString :: split sep r
      else cons_head c (split sep r)
  end.

(** [s.split(sep, maxsplit)]. *)
Fixpoint split_max (sep : ascii) (s : string) (maxsplit : nat) : list string :=
  match s with
  | EmptyString => [EmptyString]
  | String c r =>
      match maxsplit with
      | O => [s]
      | S m =>
          if Ascii.eqb c sep then EmptyString :: split_max sep r m
          else cons_head c (split_max sep r maxsplit)
      end
  end.

(** [sep.join(parts)]. *)
Definition join (sep : string) (parts : list string) : string :=
  String.concat sep parts.

(** [s.index(c)] when [c in s], [None] otherwise. *)
Fixpoint find_char (c : ascii) (s : string) : option nat :=
  match s with
  | EmptyString => None
  | String a r =>
      if Ascii.eqb a c then Some O else option_map S (find_char c r)
  end.

(** [s[:n]]. *)
Fixpoint take (n : nat) (s : string) : string :=
  match n, s with
  | O, _ => EmptyString
  | S m, EmptyString => EmptyString
  | S m, String a r => String a (take m r)
  end.

Fixpoint contains_char (c : ascii) (s : string) : bool :=
  match s with
  | EmptyString => false
  | String a r => Ascii.eqb a c || contains_char c r
  end.

(** ** UTF-8 *)

(** The strict UTF-8 decoder as an automaton over bytes: [U_tail k] waits
    for [k] more continuation bytes; the four lead bytes [E0], [ED], [F0],
    [F4] restrict their first continuation byte (no overlong forms, no
    surrogates, nothing above U+10FFFF). *)
Inductive utf8_state : Type :=
| U_start | U_tail1 | U_tail2 | U_tail3
| U_e0 | U_ed | U_f0 | U_f4 | U_bad.

Definition in_range (lo hi n : N) : bool := ((lo <=? n) && (n <=? hi))%N.

Definition utf8_step (st : utf8_state) (c : ascii) : utf8_state :=
  let n := N_of_ascii c in
  match st with
  | U_start =>
      if (n <? 128)%N then U_start
      else if in_range 194 223 n then U_tail1
      else if (n =? 224)%N then U_e0
      else if in_range 225 236 n then U_tail2
      else if (n =? 237)%N then U_ed
      else if in_range 238 239 n then U_tail2
      else if (n =? 240)%N then U_f0
      else if in_range 241 243 n then U_tail3
      else if (n =? 244)%N then U_f4
      else U_bad
  | U_tail1 => if in_range 128 191 n then U_start else U_bad
  | U_tail2 => if in_range 128 191 n then U_tail1 else U_bad
  | U_tail3 => if in_range 128 191 n then U_tail2 else U_bad
  | U_e0 => if in_range 160 191 n then U_tail1 else U_bad
  | U_ed => if in_range 128 159 n then U_tail1 else U_bad
  | U_f0 => if in_range 144 191 n then U_tail2 else U_bad
  | U_f4 => if in_range 128 143 n then U_tail2 else U_bad
  | U_bad => U_bad
  end.

Fixpoint utf8_run (st : utf8_state) (bytes : string) : utf8_state :=
  match bytes with
  | EmptyString => st
  | String c r => utf8_run (utf8_step st c) r
  end.

(** The bytes are the encoding of some text. *)
Definition is_text (bytes : string) : bool :=
  match utf8_run U_start bytes with U_start => true | _ => false end.

(** [text.encode('utf-8')]. *)
Definition encode (text : string) : string := text.

(** [bytes.decode('utf-8')]; [None] is [UnicodeDecodeError]. *)
Definition decode (bytes : string) : option string :=
  if is_text bytes then Some bytes else None.

(** Truthiness of a [str] or [bytes] value. *)
Definition nonempty (s : string) : bool :=
  match s with EmptyString => false | _ => true end.

(** ** Lists *)

(** [l[i]] with Python's negative indices; [None] is [IndexError]. *)
Definition getitem {A} (l : list A) (i : Z) : option A :=
  let n := Z.of_nat (List.length l) in
  if (0 <=? i)%Z then nth_error l (Z.to_nat i)
  else if (0 <=? n + i)%Z then nth_error l (Z.to_nat (n + i))
  else None.

(** ** Numbers used as clock readings and durations *)

(** Truthiness of a number: zero is false. *)
Definition truthy (q : Q) : bool := negb (Qeq_bool q 0%Q).

(** Truthiness of a value that may be [None]. *)
Definition truthy_opt (o : option Q) : bool :=
  match o with Some q => truthy q | None => false end.

Definition Qleb (a b : Q) : bool := if Qlt_le_dec b a then false else true.
Definition Qltb (a b : Q) : bool := if Qlt_le_dec a b then true else false.

(** [max(a, b)]: the first argument unless the second is larger. *)
Definition max (a b : Q) : Q := if Qltb a b then b else a.

(** [int(x)] on a float: truncation toward zero. *)
Definition int_of_float (x : Q) : Z := Z.quot (Qnum x) (Zpos (Qden x)).

End Py.

(** Predicates on text used to state properties. *)
Module Text.
Local Open Scope string_scope.

Fixpoint all_chars (P : ascii -> bool) (s : string) : bool :=
  match s with
  | "" => true
  | String c r => P c && all_chars P r
  end.

Definition is_digit (c : ascii) : bool :=
  let n := N_of_ascii c in ((48 <=? n) && (n <=? 57))%N.

(** The characters [str(int)] can produce. *)
Definition numeric (c : ascii) : bool := is_digit c || Ascii.eqb c "-".

(** Every byte is below 128. *)
Definition ascii7 (s : string) : bool :=
  all_chars (fun c => (N_of_ascii c <? 128)%N) s.

(** The text does not end in white space: [rstrip] keeps it whole. *)
Definition keeps_tail (s : string) : Prop := Py.rstrip s = s.

(** A continuation byte of UTF-8: never the first byte of a character. *)
Definition is_cont (c : ascii) : bool :=
  let n := N_of_ascii c in ((128 <=? n) && (n <=? 191))%N.

(** The text does not begin inside a character. *)
Definition starts_whole (s : string) : bool :=
  match s with
  | String c _ => negb (is_cont c)
  | "" => true
  end.

(** A run of white-space characters. *)
Inductive whites : string -> Prop :=
| whites_nil : whites ""
| whites_cons (w r : string) : Py.white w = true -> whites r -> whites (w ++ r).

(** The text does not begin with white space: [lstrip] keeps it whole. *)
Definition keeps_head (s : string) : Prop := Py.lstrip s = s.

(** The text holds no [c]. *)
Definition lacks (c : ascii) (s : string) : Prop :=
  Py.contains_char c s = false.

End Text.

(* ================================================================== *)
(** * core/types.py : the enum values used by the core                 *)
(* ================================================================== *)

(** [class TherapyState(Enum)] with its eleven instances.  The hand-written
    [Enum.__eq__] compares [_value]; the eleven values are pairwise distinct,
    so equality of instances is equality of constructors. *)
Inductive TherapyState : Type :=
| IDLE | CONNECTING | READY | RUNNING | PAUSED | STOPPING
| ERROR | LOW_BATTERY | CRITICAL_BATTERY | CONNECTION_LOST | PHONE_DISCONNECTED.

Definition TherapyState_eq_dec (a b : TherapyState) : {a = b} + {a <> b}.
Proof. decide equality. Defined.

Definition TherapyState_eqb (a b : TherapyState) : bool :=
  if TherapyState_eq_dec a b then true else false.

Definition all_states : list TherapyState :=
  [IDLE; CONNECTING; READY; RUNNING; PAUSED; STOPPING;
   ERROR; LOW_BATTERY; CRITICAL_BATTERY; CONNECTION_LOST; PHONE_DISCONNECTED].

(** [x in (a, b, ...)] on enum instances. *)
Definition state_in (x : TherapyState) (l : list TherapyState) : bool :=
  existsb (TherapyState_eqb x) l.

(* ================================================================== *)
(** * state.py                                                         *)
(* ================================================================== *)

Module StateTrigger.
Local Open Scope string_scope.
Definition CONNECTED : string := "CONNECTED".
Definition DISCONNECTED : string := "DISCONNECTED".
Definition START_SESSION : string := "START_SESSION".
Definition PAUSE_SESSION : string := "PAUSE_SESSION".
Definition RESUME_SESSION : string := "RESUME_SESSION".
Definition STOP_SESSION : string := "STOP_SESSION".
Definition STOPPED : string := "STOPPED".
Definition ERROR : string := "ERROR".
Definition EMERGENCY_STOP : string := "EMERGENCY_STOP".
End StateTrigger.

Module StateMachine.
Local Open Scope string_scope.

(** [class StateTransition]; [metadata or {}] turns an absent metadata
    argument into the empty dict. *)
Record StateTransition : Type := mkTransition {
  from_state : TherapyState;
  to_state : TherapyState;
  trigger : string;
  metadata : list (string * string)
}.

(** A registered observer.  Python compares callables by identity
    ([callback not in self._callbacks]); [obs_id] stands for that identity.
    [obs_run t = Some e] means the call raised an [Exception] whose text is
    [e]; [None] means it returned. *)
Record Observer : Type := mkObserver {
  obs_id : nat;
  obs_run : StateTransition -> option string
}.

(** What a call makes visible outside the machine. *)
Inductive Output : Type :=
| Notified (id : nat) (t : StateTransition)
| Printed (line : string).

Record TherapyStateMachine : Type := mkMachine {
  _state : TherapyState;
  _callbacks : list Observer
}.

Definition __init__ (initial_state : TherapyState) : TherapyStateMachine :=
  mkMachine initial_state [].

Definition get_current_state (m : TherapyStateMachine) : TherapyState :=
  _state m.

Definition on_state_change (m : TherapyStateMachine) (callback : Observer)
  : TherapyStateMachine :=
  if existsb (fun o => Nat.eqb (obs_id o) (obs_id callback)) (_callbacks m)
  then m
  else mkMachine (_state m) (_callbacks m ++ [callback])%list.

(** The [if]/[elif] chain of [_determine_next_state]: an inner [if] that
    fails falls out of the chain to the final [return current]. *)
Definition _determine_next_state (m : TherapyStateMachine) (trigger : string)
  : TherapyState :=
  let current := _state m in
  if String.eqb trigger StateTrigger.CONNECTED then
    if TherapyState_eqb current IDLE then READY else current
  else if String.eqb trigger StateTrigger.DISCONNECTED then
    CONNECTION_LOST
  else if String.eqb trigger StateTrigger.START_SESSION then
    if state_in current [READY; IDLE] then RUNNING else current
  else if String.eqb trigger StateTrigger.PAUSE_SESSION then
    if TherapyState_eqb current RUNNING then PAUSED else current
  else if String.eqb trigger StateTrigger.RESUME_SESSION then
    if TherapyState_eqb current PAUSED then RUNNING else current
  else if String.eqb trigger StateTrigger.STOP_SESSION then
    if state_in current [RUNNING; PAUSED] then STOPPING else current
  else if String.eqb trigger StateTrigger.STOPPED then
    if TherapyState_eqb current STOPPING then IDLE else current
  else if String.eqb trigger StateTrigger.ERROR then
    ERROR
  else if String.eqb trigger StateTrigger.EMERGENCY_STOP then
    ERROR
  else current.

(** The notification loop shared by [transition] and [force_state]:
    every observer is called in registration order; a raised exception is
    caught and printed, and the loop goes on. *)
Fixpoint notify (cbs : list Observer) (t : StateTransition) : list Output :=
  match cbs with
  | [] => []
  | cb :: rest =>
      match obs_run cb t with
      | None => Notified (obs_id cb) t :: notify rest t
      | Some e =>
          Notified (obs_id cb) t
            :: Printed ("[ERROR] State callback failed: " ++ e)
            :: notify rest t
      end
  end.

Definition or_empty (md : option (list (string * string))) :=
  match md with Some d => d | None => [] end.

(** [transition(trigger, metadata=None)]: the returned bool, the machine
    afterwards and the calls and prints it made. *)
Definition transition (m : TherapyStateMachine) (trigger : string)
    (metadata : option (list (string * string)))
  : bool * TherapyStateMachine * list Output :=
  let old_state := _state m in
  let new_state := _determine_next_state m trigger in
  if TherapyState_eqb new_state old_state then
    (true, m, [])
  else
    let m' := mkMachine new_state (_callbacks m) in
    let t := mkTransition old_state new_state trigger (or_empty metadata) in
    (true, m', notify (_callbacks m) t).

(** [force_state(state, reason=None)]; [if reason] is false for the empty
    string as well. *)
Definition force_state (m : TherapyStateMachine) (state : TherapyState)
    (reason : option string) : TherapyStateMachine * list Output :=
  let old_state := _state m in
  let md := match reason with
            | Some r => if String.eqb r "" then [] else [("reason", r)]
            | None => []
            end in
  let t := mkTransition old_state state "FORCE" md in
  (mkMachine state (_callbacks m), notify (_callbacks m) t).

(** The transition table as the specification lists it (section 4.1):
    rows [(trigger, from, to)], with "any" spelled out over all states. *)
Definition transition_table : list (string * TherapyState * TherapyState) :=
  ([ (StateTrigger.CONNECTED, IDLE, READY);
    (StateTrigger.START_SESSION, IDLE, RUNNING);
    (StateTrigger.START_SESSION, READY, RUNNING);
    (StateTrigger.PAUSE_SESSION, RUNNING, PAUSED);
    (StateTrigger.RESUME_SESSION, PAUSED, RUNNING);
    (StateTrigger.STOP_SESSION, RUNNING, STOPPING);
    (StateTrigger.STOP_SESSION, PAUSED, STOPPING);
    (StateTrigger.STOPPED, STOPPING, IDLE) ]
  ++ map (fun s => (StateTrigger.DISCONNECTED, s, CONNECTION_LOST)) all_states
  ++ map (fun s => (StateTrigger.ERROR, s, ERROR)) all_states
  ++ map (fun s => (StateTrigger.EMERGENCY_STOP, s, ERROR)) all_states)%list.

Definition row_matches (s : TherapyState) (trig : string)
    (row : string * TherapyState * TherapyState) : bool :=
  let '(t, from, _) := row in String.eqb trig t && TherapyState_eqb s from.

Definition in_table (s : TherapyState) (trig : string) : bool :=
  existsb (row_matches s trig) transition_table.

Definition table_lookup (s : TherapyState) (trig : string)
  : option TherapyState :=
  match find (row_matches s trig) transition_table with
  | Some (_, _, to) => Some to
  | None => None
  end.

(** Run a list of triggers, collecting results and outputs. *)
Fixpoint run_triggers (m : TherapyStateMachine) (ts : list string)
  : list bool * TherapyStateMachine * list Output :=
  match ts with
  | [] => ([], m, [])
  | t :: rest =>
      let '(b, m1, out1) := transition m t None in
      let '(bs, m2, out2) := run_triggers m1 rest in
      (b :: bs, m2, (out1 ++ out2)%list)
  end.

End StateMachine.

(* ================================================================== *)
(** * core/types.py : the hand-written [Enum] and [SyncCommandType]    *)
(* ================================================================== *)

(** [class Enum]: an instance is a value and an optional name; [__init__]
    accepts any value, [__eq__] compares the values only.  The sync protocol
    builds [SyncCommandType(parts[0])] from received text, so this enum is
    kept as the record it is rather than as a closed inductive type. *)
Module Enum.
Record t : Type := make { _value : string; _name : option string }.
Definition value (e : t) : string := _value e.
Definition __str__ (e : t) : string := _value e.
End Enum.

Module SyncCommandType.
Local Open Scope string_scope.
Definition SYNC_ADJ := Enum.make "SYNC_ADJ" (Some "SYNC_ADJ").
Definition SYNC_ADJ_START := Enum.make "SYNC_ADJ_START" (Some "SYNC_ADJ_START").
Definition EXECUTE_BUZZ := Enum.make "EXECUTE_BUZZ" (Some "EXECUTE_BUZZ").
Definition BUZZ_COMPLETE := Enum.make "BUZZ_COMPLETE" (Some "BUZZ_COMPLETE").
Definition FIRST_SYNC := Enum.make "FIRST_SYNC" (Some "FIRST_SYNC").
Definition ACK_SYNC_ADJ := Enum.make "ACK_SYNC_ADJ" (Some "ACK_SYNC_ADJ").

Definition members : list Enum.t :=
  [SYNC_ADJ; SYNC_ADJ_START; EXECUTE_BUZZ; BUZZ_COMPLETE; FIRST_SYNC; ACK_SYNC_ADJ].

(** [SyncCommandType(text)]: a fresh instance, no name, no validation. *)
Definition call (text : string) : Enum.t := Enum.make text None.
End SyncCommandType.

(* ================================================================== *)
(** * sync.py                                                          *)
(* ================================================================== *)

Module Sync.
Local Open Scope string_scope.

(** Payload values: an [int], a [str], or any other object (a float, a
    bool, [None], ...).  The protocol only ever turns a value into text,
    so another object is given by the text [str()] returns for it. *)
Inductive value : Type :=
| VInt (z : Z)
| VStr (s : string)
| VObj (text : string).

(** [str(v)]. *)
Definition str (v : value) : string :=
  match v with
  | VInt z => Py.str_of_int z
  | VStr s => s
  | VObj text => text
  end.


(** A [dict] with text keys, in insertion order; keys are distinct. *)
Definition dict : Type := list (string * value).

(** [d[k] = v]: overwrite in place, or append a new key. *)
Fixpoint dict_set (d : dict) (k : string) (v : value) : dict :=
  match d with
  | [] => [(k, v)]
  | (k', v') :: rest =>
      if String.eqb k' k then (k', v) :: rest
      else (k', v') :: dict_set rest k v
  end.

Definition keys (d : dict) : list string := map fst d.

Record SyncCommand : Type := mkCommand {
  sequence_id : Z;
  timestamp : Z;
  command_type : Enum.t;
  data : dict
}.

(** The [parts] list built by the loop of [_serialize_data]. *)
Definition data_parts (d : dict) : list string :=
  flat_map (fun kv => [fst kv; str (snd kv)]) d.

Definition _serialize_data (d : dict) : string :=
  match d with
  | [] => ""
  | _ => Py.join "|" (data_parts d)
  end.

Definition newline : string := String (ascii_of_nat 10) EmptyString.

(** [SyncCommand.serialize]: the bytes handed to the transport. *)
Definition serialize (c : SyncCommand) : string :=
  let parts := [ Enum.value (command_type c);
                 Py.str_of_int (sequence_id c);
                 Py.str_of_int (timestamp c) ] in
  let parts := match data c with
               | [] => parts
               | _ => (parts ++ [_serialize_data (data c)])%list
               end in
  let message := Py.join ":" parts ++ newline in
  Py.encode message.

Section Deserialize.
(** The interpreter's [int()] on text ([None] is [ValueError]).
    [Py.int] is the instance used for concrete runs. *)
Variable int : string -> option Z.

(** The [try: value = int(value) except ValueError: pass] step. *)
Definition coerce (text : string) : value :=
  match int text with
  | Some z => VInt z
  | None => VStr text
  end.

(** The loop [for i in range(0, len(parts), 2)] over an even-length
    list of tokens. *)
Fixpoint fill (parts : list string) (d : dict) : dict :=
  match parts with
  | key :: text :: rest => fill rest (dict_set d key (coerce text))
  | _ => d
  end.

Definition _deserialize_data (data_str : string) : Py.result dict :=
  if negb (Py.nonempty data_str) then Py.Ok []
  else
    let parts := Py.split "|" data_str in
    if negb (Nat.eqb (Nat.modulo (List.length parts) 2) 0)
    then Py.Raise Py.ValueError
    else Py.Ok (fill parts []).

(** The body of the [try] block of [SyncCommand.deserialize]. *)
Definition deserialize_body (bytes : string) : Py.result SyncCommand :=
  Py.bind (Py.of_option Py.UnicodeDecodeError (Py.decode bytes)) (fun text =>
  let message := Py.strip text in
  let parts := Py.split_max ":" message 3 in
  if Nat.ltb (List.length parts) 3 then Py.Raise Py.ValueError
  else
    match parts with
    | p0 :: p1 :: p2 :: rest =>
        let command_type := SyncCommandType.call p0 in
        Py.bind (Py.of_option Py.ValueError (int p1)) (fun sequence_id =>
        Py.bind (Py.of_option Py.ValueError (int p2)) (fun timestamp =>
        Py.bind (match rest with
                 | [p3] => _deserialize_data p3
                 | _ => Py.Ok []
                 end) (fun data_dict =>
        Py.Ok (mkCommand sequence_id timestamp command_type data_dict))))
    | _ => Py.Raise Py.IndexError
    end).

(** [except (UnicodeDecodeError, ValueError) as e: raise ValueError(...)]. *)
Definition deserialize (bytes : string) : Py.result SyncCommand :=
  match deserialize_body bytes with
  | Py.Ok c => Py.Ok c
  | Py.Raise Py.ValueError => Py.Raise Py.ValueError
  | Py.Raise Py.UnicodeDecodeError => Py.Raise Py.ValueError
  | Py.Raise e => Py.Raise e
  end.
End Deserialize.

(** [get_precise_time()] at clock reading [now] (seconds):
    [int(time.monotonic() * 1_000_000)].  The product is a float: [fl] is
    the rounding it undergoes before [int()] truncates it. *)
Definition get_precise_time_rounded (fl : Q -> Q) (now : Q) : Z :=
  Py.int_of_float (fl (now * 1000000)%Q).

(** The same in exact arithmetic. *)
Definition get_precise_time (now : Q) : Z :=
  get_precise_time_rounded (fun product => product) now.

(** The connection object handed to the [send_*] helpers: it may offer
    [write] or only [send]; either way the bytes go out as given. *)
Record Connection : Type := mkConnection {
  has_write : bool;
  written : list string;
  sent : list string
}.

Definition put (connection : Connection) (bytes : string) : Connection :=
  if has_write connection
  then mkConnection true (written connection ++ [bytes])%list (sent connection)
  else mkConnection false (written connection) (sent connection ++ [bytes])%list.

(** All bytes that left through the connection, in order. *)
Definition wire (connection : Connection) : list string :=
  if has_write connection then written connection else sent connection.

Definition send_execute_buzz (connection : Connection) (now : Q)
    (sequence_id finger amplitude : Z) : Connection :=
  let cmd := mkCommand sequence_id (get_precise_time now)
               SyncCommandType.EXECUTE_BUZZ
               [("finger", VInt finger); ("amplitude", VInt amplitude)] in
  put connection (serialize cmd).

Definition send_buzz_complete (connection : Connection) (now : Q)
    (sequence_id : Z) : Connection :=
  let cmd := mkCommand sequence_id (get_precise_time now)
               SyncCommandType.BUZZ_COMPLETE [] in
  put connection (serialize cmd).

Definition send_seed (connection : Connection) (now : Q) (seed : Z)
  : Connection :=
  let cmd := mkCommand 0 (get_precise_time now)
               SyncCommandType.SYNC_ADJ [("seed", VInt seed)] in
  put connection (serialize cmd).

(** What the round trip is expected to return for a payload: each value
    rewritten by [coerce] applied to its text. *)
Definition coerced (int : string -> option Z) (d : dict) : dict :=
  map (fun kv => (fst kv, coerce int (str (snd kv)))) d.

(** The wire text as the specification writes it:
    [<TYPE>:<sequence_id>:<timestamp_us>[:<k1>|<v1>|<k2>|<v2>...]]. *)
Fixpoint spec_payload_text (d : dict) : string :=
  match d with
  | [] => ""
  | (k, v) :: rest =>
      match rest with
      | [] => k ++ "|" ++ str v
      | _ => k ++ "|" ++ str v ++ "|" ++ spec_payload_text rest
      end
  end.

(** The optional fourth field with its colon. *)
Definition wire_tail (d : dict) : string :=
  match d with
  | [] => ""
  | _ => ":" ++ spec_payload_text d
  end.

Definition spec_wire_text (c : SyncCommand) : string :=
  Enum.value (command_type c) ++ ":" ++ Py.str_of_int (sequence_id c)
    ++ ":" ++ Py.str_of_int (timestamp c) ++ wire_tail (data c).

(** The text of the last payload value, if there is one. *)
Definition last_text (d : dict) : string :=
  List.last (map (fun kv => str (snd kv)) d) "".





(** A command as the protocol builds them: one of the six command
    tokens, and a payload dict (distinct keys). *)
Definition well_formed (c : SyncCommand) : Prop :=
  In (command_type c) SyncCommandType.members /\ NoDup (keys (data c)).

(** The fourth field of a message split as [deserialize] splits it. *)
Definition fourth_field (message : string) : option string :=
  nth_error (Py.split_max ":" message 3) 3.

(** The command of the wire-format example. *)
Definition example_buzz : SyncCommand :=
  mkCommand 42 1000000 SyncCommandType.EXECUTE_BUZZ
    [("finger", VInt 0); ("amplitude", VInt 50)].

End Sync.

(* ================================================================== *)
(** * ble.py : message framing                                         *)
(* ================================================================== *)

Module BLE.
Local Open Scope string_scope.

(** The end-of-transmission character, [chr(4)]. *)
Definition EOT : ascii := ascii_of_nat 4.

(** The UART service as one connection sees it: what has been written to
    it through this connection, and whether its [write] raises.  The
    connections that [wait_for_connection] accepts are all given the one
    [self.uart_service]; [tx] keeps the writes of each connection apart. *)
Record UART : Type := mkUART {
  tx : list string;
  write_raises : bool
}.

(** [class BLEConnection].  [link] is what reading
    [ble_connection.connected] gives; [None] means the read raises, which
    [is_connected] turns into [False]. *)
Record BLEConnection : Type := mkBLEConnection {
  name : string;
  link : option bool;
  uart : UART;
  connected_at : Q;
  last_seen : Q
}.

Definition is_connected (c : BLEConnection) : bool :=
  match link c with Some b => b | None => false end.

Definition update_last_seen (c : BLEConnection) (now : Q) : BLEConnection :=
  mkBLEConnection (name c) (link c) (uart c) (connected_at c) now.

(** [self._connections], a dict from connection id to connection. *)
Definition connections : Type := list (string * BLEConnection).

Fixpoint lookup (cs : connections) (conn_id : string) : option BLEConnection :=
  match cs with
  | [] => None
  | (k, c) :: rest => if String.eqb k conn_id then Some c else lookup rest conn_id
  end.

Fixpoint store (cs : connections) (conn_id : string) (c : BLEConnection)
  : connections :=
  match cs with
  | [] => [(conn_id, c)]
  | (k, c') :: rest =>
      if String.eqb k conn_id then (k, c) :: rest
      else (k, c') :: store rest conn_id c
  end.

(** [BLE.send(conn_id, message)]; [now] is the clock reading taken by
    [update_last_seen].  Returns the bool and the connections afterwards. *)
Definition send (cs : connections) (now : Q) (conn_id : string)
    (message : string) : bool * connections :=
  match lookup cs conn_id with
  | None => (false, cs)
  | Some conn =>
      if negb (is_connected conn) then (false, cs)
      else
        let message_with_eot := message ++ String EOT EmptyString in
        if write_raises (uart conn) then (false, cs)
        else
          let u := mkUART (tx (uart conn) ++ [Py.encode message_with_eot])%list
                          false in
          let conn1 := mkBLEConnection (name conn) (link conn) u
                         (connected_at conn) (last_seen conn) in
          (true, store cs conn_id (update_last_seen conn1 now))
  end.

(** The bytes [send] hands to [uart.write] for [message]. *)
Definition frame (message : string) : string :=
  Py.encode (message ++ String EOT EmptyString).

(** One turn of the [while True] loop of [receive], as the environment
    presents it: the clock reading, [uart.in_waiting], what [uart.read()]
    returns ([None] for Python's [None]) and the clock reading a later
    [update_last_seen] would take. *)
Record Poll : Type := mkPoll {
  poll_now : Q;
  in_waiting : Z;
  read : option string;
  poll_stamp : Q
}.

Inductive Received : Type :=
| Message (text : string) (stamp : Q)  (** returned [message] *)
| NoMessage                            (** returned [None] *)
| Polling (buffer : string).           (** still in the loop *)

(** [timeout and (time.monotonic() - start_time > timeout)]. *)
Definition timed_out (timeout : option Q) (start_time now : Q) : bool :=
  match timeout with
  | None => false
  | Some t => Py.truthy t && Py.Qltb t (now - start_time)%Q
  end.

Fixpoint receive_loop (timeout : option Q) (start_time : Q)
    (buffer : string) (polls : list Poll) : Received :=
  match polls with
  | [] => Polling buffer
  | p :: rest =>
      if timed_out timeout start_time (poll_now p) then NoMessage
      else if (0 <? in_waiting p)%Z then
        match read p with
        | Some bytes =>
            if Py.nonempty bytes then
              match Py.decode bytes with
              | None => NoMessage
              | Some chunk =>
                  let buffer := buffer ++ chunk in
                  if Py.contains_char EOT buffer then
                    match Py.find_char EOT buffer with
                    | Some eot_index =>
                        Message (Py.take eot_index buffer) (poll_stamp p)
                    | None => NoMessage
                    end
                  else receive_loop timeout start_time buffer rest
              end
            else receive_loop timeout start_time buffer rest
        | None => receive_loop timeout start_time buffer rest
        end
      else receive_loop timeout start_time buffer rest
  end.

(** [BLE.receive(conn_id, timeout)]: the returned text ([None] for
    Python's [None]) and the connections afterwards.  A run of polls that
    ends before the loop returns leaves the call still polling. *)
Definition receive (cs : connections) (conn_id : string)
    (timeout : option Q) (start_time : Q) (polls : list Poll)
  : Received * connections :=
  match lookup cs conn_id with
  | None => (NoMessage, cs)
  | Some conn =>
      if negb (is_connected conn) then (NoMessage, cs)
      else
        match receive_loop timeout start_time EmptyString polls with
        | Message text stamp =>
            (Message text stamp, store cs conn_id (update_last_seen conn stamp))
        | r => (r, cs)
        end
  end.

(** The receiving side is handed the bytes in [chunks], one per poll. *)
Definition deliver (now : Q) (chunks : list string) : list Poll :=
  map (fun bytes => mkPoll now (Z.of_nat (String.length bytes)) (Some bytes) now)
      chunks.

(** The bytes of several reads, put end to end. *)
Fixpoint bytes_of (chunks : list string) : string :=
  match chunks with
  | [] => ""
  | chunk :: rest => chunk ++ bytes_of rest
  end.

(** A poll that brings nothing: no bytes waiting, or an empty read. *)
Definition idle (p : Poll) : Prop :=
  (in_waiting p <= 0)%Z \/ read p = None \/ read p = Some "".

(** The polls hand over the reads [chunks] in order, each read non-empty
    and made of whole characters, with idle polls in between, and none of
    the polls is past the time-out. *)
Inductive delivers (timeout : option Q) (start_time : Q)
  : list Poll -> list string -> Prop :=
| delivers_nil : delivers timeout start_time [] []
| delivers_idle (p : Poll) (polls : list Poll) (chunks : list string) :
    timed_out timeout start_time (poll_now p) = false ->
    idle p ->
    delivers timeout start_time polls chunks ->
    delivers timeout start_time (p :: polls) chunks
| delivers_read (p : Poll) (polls : list Poll) (chunk : string)
    (chunks : list string) :
    timed_out timeout start_time (poll_now p) = false ->
    (0 < in_waiting p)%Z ->
    read p = Some chunk ->
    chunk <> "" ->
    Py.is_text chunk = true ->
    delivers timeout start_time polls chunks ->
    delivers timeout start_time (p :: polls) (chunk :: chunks).

(** The bytes most recently written to the UART of [conn_id]. *)
Definition last_written (cs : connections) (conn_id : string) : option string :=
  match lookup cs conn_id with
  | Some conn => List.last (map Some (tx (uart conn))) None
  | None => None
  end.

(** One live connection with a working UART, for concrete runs. *)
Definition demo_link : connections :=
  [("secondary", mkBLEConnection "secondary" (Some true) (mkUART [] false) 0 0)].

End BLE.

(* ================================================================== *)
(** * therapy.py : patterns                                            *)
(* ================================================================== *)

(** Floats are taken as exact rationals: the model is of the arithmetic the
    code writes, not of its rounding. *)

(** [random.Random] as the generators use it.  [seeded s] is
    [random.Random(s)]; [randbelow g n] is the draw [shuffle] makes for a
    bound [n]; [random g] is [random()].  Each draw returns the generator
    state to go on with. *)
Class PyRandom (G : Type) : Type := {
  seeded : Z -> G;
  randbelow : G -> nat -> nat * G;
  random : G -> Q * G
}.

(** The library's promise about [randbelow]: a value below the bound. *)
Class LawfulRandom (G : Type) {R : PyRandom G} : Prop := {
  randbelow_lt : forall (g : G) (n : nat), (0 < n)%nat -> (fst (randbelow g n) < n)%nat
}.

Module Therapy.
Local Open Scope Q_scope.

Record Pattern : Type := mkPattern {
  left_sequence : list nat;
  right_sequence : list nat;
  timing_ms : list Q;
  burst_duration_ms : Q;
  inter_burst_interval_ms : Q
}.

(** [Pattern.__init__] with its two validations. *)
Definition Pattern__init__ (left_sequence right_sequence : list nat)
    (timing_ms : list Q) (burst_duration_ms inter_burst_interval_ms : Q)
  : Py.result Pattern :=
  if negb (Nat.eqb (List.length left_sequence) (List.length right_sequence))
  then Py.Raise Py.ValueError
  else if negb (Nat.eqb (List.length timing_ms) (List.length left_sequence))
  then Py.Raise Py.ValueError
  else Py.Ok (mkPattern left_sequence right_sequence timing_ms
                burst_duration_ms inter_burst_interval_ms).

(** [Pattern.__len__]. *)
Definition len (p : Pattern) : nat := List.length (left_sequence p).

(** [Pattern.get_finger_pair(index)]. *)
Definition get_finger_pair (p : Pattern) (index : nat) : Py.result (nat * nat) :=
  match nth_error (left_sequence p) index, nth_error (right_sequence p) index with
  | Some l, Some r => Py.Ok (l, r)
  | _, _ => Py.Raise Py.IndexError
  end.

(** [list(range(n))]. *)
Definition range (n : nat) : list nat := seq 0 n.

(** [x[i] = v] on a list; [None] is [IndexError]. *)
Fixpoint setitem (x : list nat) (i : nat) (v : nat) : option (list nat) :=
  match x, i with
  | [], _ => None
  | _ :: t, O => Some (v :: t)
  | h :: t, S i' => option_map (cons h) (setitem t i' v)
  end.

(** [x[i], x[j] = x[j], x[i]]. *)
Definition swap (x : list nat) (i j : nat) : option (list nat) :=
  match nth_error x j, nth_error x i with
  | Some xj, Some xi =>
      match setitem x i xj with
      | Some x1 => setitem x1 j xi
      | None => None
      end
  | _, _ => None
  end.

Section Generators.
Context {G : Type} {R : PyRandom G}.

(** The loop of [Random.shuffle]:
    [for i in reversed(range(1, len(x))): j = randbelow(i + 1); swap]. *)
Fixpoint shuffle_down (i : nat) (x : list nat) (g : G)
  : Py.result (list nat * G) :=
  match i with
  | O => Py.Ok (x, g)
  | S i' =>
      let (j, g1) := randbelow g (i + 1) in
      match swap x i j with
      | Some x1 => shuffle_down i' x1 g1
      | None => Py.Raise Py.IndexError
      end
  end.

Definition shuffle (x : list nat) (g : G) : Py.result (list nat * G) :=
  shuffle_down (List.length x - 1) x g.

(** [Random.uniform(a, b)]: [a + (b - a) * random()]. *)
Definition uniform (g : G) (a b : Q) : Q * G :=
  let (r, g1) := random g in (a + (b - a) * r, g1).

(** The timing loop shared by the three generators. *)
Fixpoint timing_loop (n : nat) (g : G)
    (jitter_percent jitter_amount inter_burst_interval_ms : Q) : list Q * G :=
  match n with
  | O => ([], g)
  | S n' =>
      let (interval, g1) :=
        if Py.Qltb 0 jitter_percent then
          let (jitter, g1) := uniform g (- jitter_amount) jitter_amount in
          let interval := inter_burst_interval_ms + jitter in
          (Py.max 0 interval, g1)
        else (inter_burst_interval_ms, g) in
      let (rest, g2) :=
        timing_loop n' g1 jitter_percent jitter_amount inter_burst_interval_ms in
      (interval :: rest, g2)
  end.

(** [random.Random(random_seed)]: seeded, or started from the state the
    system entropy gives when the seed is [None]. *)
Definition Random (random_seed : option Z) (entropy : G) : G :=
  match random_seed with
  | Some s => seeded s
  | None => entropy
  end.

Definition generate_random_permutation (num_fingers : nat)
    (time_on_ms time_off_ms jitter_percent : Q) (mirror_pattern : bool)
    (random_seed : option Z) (entropy : G) : Py.result Pattern :=
  let rng := Random random_seed entropy in
  let cycle_duration_ms := time_on_ms + time_off_ms in
  let inter_burst_interval_ms := 4 * cycle_duration_ms in
  Py.bind (shuffle (range num_fingers) rng) (fun '(left_sequence, rng) =>
  Py.bind (if mirror_pattern then Py.Ok (left_sequence, rng)
           else shuffle (range num_fingers) rng) (fun '(right_sequence, rng) =>
  let jitter_amount := cycle_duration_ms * (jitter_percent / 100) / 2 in
  let (timing_ms, _) :=
    timing_loop num_fingers rng jitter_percent jitter_amount
      inter_burst_interval_ms in
  Pattern__init__ left_sequence right_sequence timing_ms time_on_ms
    inter_burst_interval_ms)).

Definition generate_sequential_pattern (num_fingers : nat)
    (time_on_ms time_off_ms jitter_percent : Q) (mirror_pattern : bool)
    (reverse : bool) (entropy : G) : Py.result Pattern :=
  let rng := Random None entropy in
  let cycle_duration_ms := time_on_ms + time_off_ms in
  let inter_burst_interval_ms := 4 * cycle_duration_ms in
  let sequence := range num_fingers in
  let sequence := if reverse then rev sequence else sequence in
  let left_sequence := sequence in
  let right_sequence := sequence in
  let jitter_amount := cycle_duration_ms * (jitter_percent / 100) / 2 in
  let (timing_ms, _) :=
    timing_loop num_fingers rng jitter_percent jitter_amount
      inter_burst_interval_ms in
  Pattern__init__ left_sequence right_sequence timing_ms time_on_ms
    inter_burst_interval_ms.

Definition generate_mirrored_pattern (num_fingers : nat)
    (time_on_ms time_off_ms jitter_percent : Q) (randomize : bool)
    (random_seed : option Z) (entropy : G) : Py.result Pattern :=
  let rng := Random random_seed entropy in
  let cycle_duration_ms := time_on_ms + time_off_ms in
  let inter_burst_interval_ms := 4 * cycle_duration_ms in
  Py.bind (if randomize then shuffle (range num_fingers) rng
           else Py.Ok (range num_fingers, rng)) (fun '(sequence, rng) =>
  let left_sequence := sequence in
  let right_sequence := sequence in
  let jitter_amount := cycle_duration_ms * (jitter_percent / 100) / 2 in
  let (timing_ms, _) :=
    timing_loop num_fingers rng jitter_percent jitter_amount
      inter_burst_interval_ms in
  Pattern__init__ left_sequence right_sequence timing_ms time_on_ms
    inter_burst_interval_ms).

(** The generator state each generator has reached when its timing loop
    begins: after the draws of its shuffles. *)
Definition state_after (shuffles : nat) (n : nat) (g : G) : option G :=
  match shuffles with
  | O => Some g
  | 1%nat => match shuffle (range n) g with
             | Py.Ok (_, g1) => Some g1
             | Py.Raise _ => None
             end
  | _ => match shuffle (range n) g with
         | Py.Ok (_, g1) =>
             match shuffle (range n) g1 with
             | Py.Ok (_, g2) => Some g2
             | Py.Raise _ => None
             end
         | Py.Raise _ => None
         end
  end.

(** The next [n] outputs of [random()]. *)
Fixpoint draws (n : nat) (g : G) : list Q :=
  match n with
  | O => []
  | S n' => let (r, g1) := random g in r :: draws n' g1
  end.

End Generators.

(** The interval of one step for the draw [r] when the jitter bound is
    [J]: [max(0, base + u)] with [u = -J + (J - (-J)) * r], the uniform
    draw on [[-J, J]]. *)
Definition jittered (base J r : Q) : Q :=
  Py.max 0 (base + (- J + (J - - J) * r)).

(** What a generator returns, with the generator state its timing loop
    started from. *)
Definition yields {G : Type} {R : PyRandom G} (num_fingers : nat) (time_on_ms time_off_ms jitter_percent : Q)
    (g : option G) (res : Py.result Pattern) : Prop :=
  exists l r g',
    g = Some g' /\
    res = Py.Ok (mkPattern l r
                   (fst (timing_loop num_fingers g' jitter_percent
                           ((time_on_ms + time_off_ms) * (jitter_percent / 100) / 2)
                           (4 * (time_on_ms + time_off_ms))))
                   time_on_ms (4 * (time_on_ms + time_off_ms))) /\
    List.length l = num_fingers /\ List.length r = num_fingers /\
    Forall (fun i => (i < num_fingers)%nat) l /\
    Forall (fun i => (i < num_fingers)%nat) r.

(** The timing as the specification words it, with the jitter bound
    [J = base_interval * jitter_percent / 200]. *)
Definition timing_as_specified {G : Type} {R : PyRandom G} (num_fingers : nat)
    (time_on_ms time_off_ms jitter_percent : Q) (g : option G)
    (p : Pattern) : Prop :=
  let base := 4 * (time_on_ms + time_off_ms) in
  let J := base * jitter_percent / 200 in
  (jitter_percent == 0 -> Forall2 Qeq (timing_ms p) (repeat base num_fingers)) /\
  (0 < jitter_percent ->
     exists g', g = Some g' /\
                Forall2 Qeq (timing_ms p)
                  (map (jittered base J) (draws num_fingers g'))).

(** What the specification asks of every generated pattern. *)
Definition well_formed (num_fingers : nat) (p : Pattern) : Prop :=
  List.length (left_sequence p) = List.length (right_sequence p) /\
  List.length (timing_ms p) = List.length (left_sequence p) /\
  Forall (fun i => (i < num_fingers)%nat) (left_sequence p) /\
  Forall (fun i => (i < num_fingers)%nat) (right_sequence p).

(** The timing of a generated pattern: the base interval
    [4 * (time_on_ms + time_off_ms)] at every step without jitter, and
    with jitter the interval [jittered base J r] for the successive draws
    [r] of the generator from state [g], with [J] the generators'
    [jitter_amount]. *)
Definition timing_as_generated {G : Type} {R : PyRandom G} (num_fingers : nat)
    (time_on_ms time_off_ms jitter_percent : Q) (g : option G)
    (p : Pattern) : Prop :=
  let base := 4 * (time_on_ms + time_off_ms) in
  let J := (time_on_ms + time_off_ms) * (jitter_percent / 100) / 2 in
  (jitter_percent <= 0 -> timing_ms p = repeat base num_fingers) /\
  (0 < jitter_percent ->
     exists g', g = Some g' /\
                timing_ms p = map (jittered base J) (draws num_fingers g')).

End Therapy.

(** A small linear congruential generator: an instance of [PyRandom] for
    concrete runs. *)
Module Lcg.
Definition modulus : Z := 2147483648.
Definition next (s : Z) : Z := Z.modulo (s * 1103515245 + 12345) modulus.

#[export] Instance lcg : PyRandom Z := {
  seeded := fun s => Z.modulo s modulus;
  randbelow := fun g n => (Z.to_nat (Z.modulo (next g) (Z.of_nat n)), next g);
  random := fun g => (Qmake (next g) 2147483648, next g)
}.
End Lcg.


(* ================================================================== *)
(** * therapy.py : the engine                                          *)
(* ================================================================== *)

Module Engine.
Import Therapy.
Local Open Scope Q_scope.

(** [self._pattern_config] once [start_session] has filled it. *)
Record Config : Type := mkConfig {
  pattern_type : string;
  time_on_ms : Q;
  time_off_ms : Q;
  jitter_percent : Q;
  num_fingers : nat;
  mirror_pattern : bool
}.

(** Calls the engine makes through its injected callbacks, as a recording
    stub logs them on entry, whether the callback then returns or raises. *)
Inductive Event : Type :=
| Activate (finger_index amplitude : nat)
| Deactivate (finger_index : nat)
| SendCommand (command_type : string) (left_finger right_finger amplitude : nat)
| CycleComplete (cycle_count : nat).

(** The attributes of [TherapyEngine].  A callback attribute is [true]
    when a function is installed and [false] when it is [None]; the empty
    config dict of [__init__] is [None]. *)
Record TherapyEngine : Type := mkEngine {
  _is_running : bool;
  _is_paused : bool;
  _should_stop : bool;
  _session_start_time : option Q;
  _session_duration_sec : option Q;
  _pattern_config : option Config;
  _current_pattern : option Pattern;
  _pattern_index : nat;
  _activation_start_time : option Q;
  _waiting_for_interval : bool;
  _interval_start_time : option Q;
  cycles_completed : nat;
  total_activations : nat;
  timing_drift_ms : Q;
  _send_command_callback : bool;
  _activate_callback : bool;
  _deactivate_callback : bool;
  _on_cycle_complete : bool
}.

(** Attribute assignment, one function per attribute.  The three
    [set_*_callback] methods are the assignments of their attributes. *)
Definition set_is_running (v : bool) (e : TherapyEngine) : TherapyEngine :=
  mkEngine v (_is_paused e) (_should_stop e) (_session_start_time e)
    (_session_duration_sec e) (_pattern_config e) (_current_pattern e)
    (_pattern_index e) (_activation_start_time e) (_waiting_for_interval
    e) (_interval_start_time e) (cycles_completed e) (total_activations
    e) (timing_drift_ms e) (_send_command_callback e)
    (_activate_callback e) (_deactivate_callback e) (_on_cycle_complete
    e).

Definition set_is_paused (v : bool) (e : TherapyEngine) : TherapyEngine :=
  mkEngine (_is_running e) v (_should_stop e) (_session_start_time e)
    (_session_duration_sec e) (_pattern_config e) (_current_pattern e)
    (_pattern_index e) (_activation_start_time e) (_waiting_for_interval
    e) (_interval_start_time e) (cycles_completed e) (total_activations
    e) (timing_drift_ms e) (_send_command_callback e)
    (_activate_callback e) (_deactivate_callback e) (_on_cycle_complete
    e).

Definition set_should_stop (v : bool) (e : TherapyEngine) : TherapyEngine :=
  mkEngine (_is_running e) (_is_paused e) v (_session_start_time e)
    (_session_duration_sec e) (_pattern_config e) (_current_pattern e)
    (_pattern_index e) (_activation_start_time e) (_waiting_for_interval
    e) (_interval_start_time e) (cycles_completed e) (total_activations
    e) (timing_drift_ms e) (_send_command_callback e)
    (_activate_callback e) (_deactivate_callback e) (_on_cycle_complete
    e).

Definition set_session_start_time (v : option Q) (e : TherapyEngine) : TherapyEngine :=
  mkEngine (_is_running e) (_is_paused e) (_should_stop e) v
    (_session_duration_sec e) (_pattern_config e) (_current_pattern e)
    (_pattern_index e) (_activation_start_time e) (_waiting_for_interval
    e) (_interval_start_time e) (cycles_completed e) (total_activations
    e) (timing_drift_ms e) (_send_command_callback e)
    (_activate_callback e) (_deactivate_callback e) (_on_cycle_complete
    e).

Definition set_session_duration_sec (v : option Q) (e : TherapyEngine) : TherapyEngine :=
  mkEngine (_is_running e) (_is_paused e) (_should_stop e)
    (_session_start_time e) v (_pattern_config e) (_current_pattern e)
    (_pattern_index e) (_activation_start_time e) (_waiting_for_interval
    e) (_interval_start_time e) (cycles_completed e) (total_activations
    e) (timing_drift_ms e) (_send_command_callback e)
    (_activate_callback e) (_deactivate_callback e) (_on_cycle_complete
    e).

Definition set_pattern_config (v : option Config) (e : TherapyEngine) : TherapyEngine :=
  mkEngine (_is_running e) (_is_paused e) (_should_stop e)
    (_session_start_time e) (_session_duration_sec e) v
    (_current_pattern e) (_pattern_index e) (_activation_start_time e)
    (_waiting_for_interval e) (_interval_start_time e) (cycles_completed
    e) (total_activations e) (timing_drift_ms e) (_send_command_callback
    e) (_activate_callback e) (_deactivate_callback e)
    (_on_cycle_complete e).

Definition set_current_pattern (v : option Pattern) (e : TherapyEngine) : TherapyEngine :=
  mkEngine (_is_running e) (_is_paused e) (_should_stop e)
    (_session_start_time e) (_session_duration_sec e) (_pattern_config
    e) v (_pattern_index e) (_activation_start_time e)
    (_waiting_for_interval e) (_interval_start_time e) (cycles_completed
    e) (total_activations e) (timing_drift_ms e) (_send_command_callback
    e) (_activate_callback e) (_deactivate_callback e)
    (_on_cycle_complete e).

Definition set_pattern_index (v : nat) (e : TherapyEngine) : TherapyEngine :=
  mkEngine (_is_running e) (_is_paused e) (_should_stop e)
    (_session_start_time e) (_session_duration_sec e) (_pattern_config
    e) (_current_pattern e) v (_activation_start_time e)
    (_waiting_for_interval e) (_interval_start_time e) (cycles_completed
    e) (total_activations e) (timing_drift_ms e) (_send_command_callback
    e) (_activate_callback e) (_deactivate_callback e)
    (_on_cycle_complete e).

Definition set_activation_start_time (v : option Q) (e : TherapyEngine) : TherapyEngine :=
  mkEngine (_is_running e) (_is_paused e) (_should_stop e)
    (_session_start_time e) (_session_duration_sec e) (_pattern_config
    e) (_current_pattern e) (_pattern_index e) v (_waiting_for_interval
    e) (_interval_start_time e) (cycles_completed e) (total_activations
    e) (timing_drift_ms e) (_send_command_callback e)
    (_activate_callback e) (_deactivate_callback e) (_on_cycle_complete
    e).

Definition set_waiting_for_interval (v : bool) (e : TherapyEngine) : TherapyEngine :=
  mkEngine (_is_running e) (_is_paused e) (_should_stop e)
    (_session_start_time e) (_session_duration_sec e) (_pattern_config
    e) (_current_pattern e) (_pattern_index e) (_activation_start_time
    e) v (_interval_start_time e) (cycles_completed e)
    (total_activations e) (timing_drift_ms e) (_send_command_callback e)
    (_activate_callback e) (_deactivate_callback e) (_on_cycle_complete
    e).

Definition set_interval_start_time (v : option Q) (e : TherapyEngine) : TherapyEngine :=
  mkEngine (_is_running e) (_is_paused e) (_should_stop e)
    (_session_start_time e) (_session_duration_sec e) (_pattern_config
    e) (_current_pattern e) (_pattern_index e) (_activation_start_time
    e) (_waiting_for_interval e) v (cycles_completed e)
    (total_activations e) (timing_drift_ms e) (_send_command_callback e)
    (_activate_callback e) (_deactivate_callback e) (_on_cycle_complete
    e).

Definition set_cycles_completed (v : nat) (e : TherapyEngine) : TherapyEngine :=
  mkEngine (_is_running e) (_is_paused e) (_should_stop e)
    (_session_start_time e) (_session_duration_sec e) (_pattern_config
    e) (_current_pattern e) (_pattern_index e) (_activation_start_time
    e) (_waiting_for_interval e) (_interval_start_time e) v
    (total_activations e) (timing_drift_ms e) (_send_command_callback e)
    (_activate_callback e) (_deactivate_callback e) (_on_cycle_complete
    e).

Definition set_total_activations (v : nat) (e : TherapyEngine) : TherapyEngine :=
  mkEngine (_is_running e) (_is_paused e) (_should_stop e)
    (_session_start_time e) (_session_duration_sec e) (_pattern_config
    e) (_current_pattern e) (_pattern_index e) (_activation_start_time
    e) (_waiting_for_interval e) (_interval_start_time e)
    (cycles_completed e) v (timing_drift_ms e) (_send_command_callback
    e) (_activate_callback e) (_deactivate_callback e)
    (_on_cycle_complete e).

Definition set_timing_drift_ms (v : Q) (e : TherapyEngine) : TherapyEngine :=
  mkEngine (_is_running e) (_is_paused e) (_should_stop e)
    (_session_start_time e) (_session_duration_sec e) (_pattern_config
    e) (_current_pattern e) (_pattern_index e) (_activation_start_time
    e) (_waiting_for_interval e) (_interval_start_time e)
    (cycles_completed e) (total_activations e) v (_send_command_callback
    e) (_activate_callback e) (_deactivate_callback e)
    (_on_cycle_complete e).

Definition set_send_command_callback (v : bool) (e : TherapyEngine) : TherapyEngine :=
  mkEngine (_is_running e) (_is_paused e) (_should_stop e)
    (_session_start_time e) (_session_duration_sec e) (_pattern_config
    e) (_current_pattern e) (_pattern_index e) (_activation_start_time
    e) (_waiting_for_interval e) (_interval_start_time e)
    (cycles_completed e) (total_activations e) (timing_drift_ms e) v
    (_activate_callback e) (_deactivate_callback e) (_on_cycle_complete
    e).

Definition set_activate_callback (v : bool) (e : TherapyEngine) : TherapyEngine :=
  mkEngine (_is_running e) (_is_paused e) (_should_stop e)
    (_session_start_time e) (_session_duration_sec e) (_pattern_config
    e) (_current_pattern e) (_pattern_index e) (_activation_start_time
    e) (_waiting_for_interval e) (_interval_start_time e)
    (cycles_completed e) (total_activations e) (timing_drift_ms e)
    (_send_command_callback e) v (_deactivate_callback e)
    (_on_cycle_complete e).

Definition set_deactivate_callback (v : bool) (e : TherapyEngine) : TherapyEngine :=
  mkEngine (_is_running e) (_is_paused e) (_should_stop e)
    (_session_start_time e) (_session_duration_sec e) (_pattern_config
    e) (_current_pattern e) (_pattern_index e) (_activation_start_time
    e) (_waiting_for_interval e) (_interval_start_time e)
    (cycles_completed e) (total_activations e) (timing_drift_ms e)
    (_send_command_callback e) (_activate_callback e) v
    (_on_cycle_complete e).

Definition set_on_cycle_complete (v : bool) (e : TherapyEngine) : TherapyEngine :=
  mkEngine (_is_running e) (_is_paused e) (_should_stop e)
    (_session_start_time e) (_session_duration_sec e) (_pattern_config
    e) (_current_pattern e) (_pattern_index e) (_activation_start_time
    e) (_waiting_for_interval e) (_interval_start_time e)
    (cycles_completed e) (total_activations e) (timing_drift_ms e)
    (_send_command_callback e) (_activate_callback e)
    (_deactivate_callback e) v.

Definition set_cycle_complete_callback := set_on_cycle_complete.

Definition __init__ : TherapyEngine :=
  mkEngine false false false None None None None 0 None false None
           0 0 0 false false false false.

Definition pause (e : TherapyEngine) : TherapyEngine := set_is_paused true e.
Definition resume (e : TherapyEngine) : TherapyEngine := set_is_paused false e.
Definition stop (e : TherapyEngine) : TherapyEngine :=
  set_is_running false (set_should_stop true e).
Definition is_running (e : TherapyEngine) : bool := _is_running e.
Definition is_paused (e : TherapyEngine) : bool := _is_paused e.

(** The readings of [time.monotonic()] one call of [update] can take, in
    the order it takes them: for the session time-out, on entering the
    pattern step, and when the inter-burst interval is started. *)
Record Tick : Type := mkTick {
  at_timeout_check : Q;
  at_step : Q;
  at_interval_start : Q
}.

(** A tick whose three readings are the same instant. *)
Definition instant (t : Q) : Tick := mkTick t t t.

(** The callback calls a pattern step is about to make, in order.  A
    callback returns or raises, and does not itself call the engine.  The
    engine catches nothing: with [fault = Some k] call number [k] of this
    step (counted from 0) raises, if the step makes that many, and the
    calls after it are not made.  Returns the calls made, the raising one
    last, and whether one raised. *)
Definition invoke (calls : list Event) (fault : option nat)
  : list Event * bool :=
  match fault with
  | Some k =>
      if Nat.ltb k (List.length calls) then (firstn (S k) calls, true)
      else (calls, false)
  | None => (calls, false)
  end.

(** [config.get(key, default)] on the config dict. *)
Definition get {A} (config : option Config) (field : Config -> A) (default : A) : A :=
  match config with
  | Some c => field c
  | None => default
  end.

(** Truthiness of [self._current_pattern]: [None] is false, and a
    [Pattern], which defines [__len__], is false when empty. *)
Definition pattern_truthy (p : option Pattern) : option Pattern :=
  match p with
  | Some p => if Nat.eqb (len p) 0 then None else Some p
  | None => None
  end.

Section WithRandom.
Context {G : Type} {R : PyRandom G}.

(** [_generate_next_pattern]; [entropy] seeds the unseeded
    [random.Random()] of the generator. *)
Definition _generate_next_pattern (e : TherapyEngine) (entropy : G)
  : Py.result TherapyEngine :=
  let config := _pattern_config e in
  let pattern_type := get config pattern_type "rndp"%string in
  let generated :=
    if String.eqb pattern_type "rndp" then
      generate_random_permutation
        (get config num_fingers 5%nat) (get config time_on_ms 100)
        (get config time_off_ms 67) (get config jitter_percent (47 # 2))
        (get config mirror_pattern true) None entropy
    else if String.eqb pattern_type "sequential" then
      generate_sequential_pattern
        (get config num_fingers 5%nat) (get config time_on_ms 100)
        (get config time_off_ms 67) (get config jitter_percent 0)
        (get config mirror_pattern true) false entropy
    else if String.eqb pattern_type "mirrored" then
      generate_mirrored_pattern
        (get config num_fingers 5%nat) (get config time_on_ms 100)
        (get config time_off_ms 67) (get config jitter_percent (47 # 2))
        true None entropy
    else Py.Raise Py.ValueError in
  Py.bind generated (fun pattern =>
  Py.Ok (set_interval_start_time None
        (set_waiting_for_interval false
        (set_activation_start_time None
        (set_pattern_index 0%nat
        (set_current_pattern (Some pattern) e)))))).

(** [start_session(...)] at clock reading [now].  The assignments made
    before [_generate_next_pattern] raises stay made. *)
Definition start_session (e : TherapyEngine) (duration_sec : Q)
    (pattern_type : string) (time_on_ms time_off_ms jitter_percent : Q)
    (num_fingers : nat) (mirror_pattern : bool) (now : Q) (entropy : G)
  : TherapyEngine * option Py.exn :=
  let e := set_is_running true e in
  let e := set_is_paused false e in
  let e := set_should_stop false e in
  let e := set_cycles_completed 0%nat e in
  let e := set_total_activations 0%nat e in
  let e := set_timing_drift_ms 0 e in
  let e := set_session_start_time (Some now) e in
  let e := set_session_duration_sec (Some duration_sec) e in
  let e := set_pattern_config
             (Some (mkConfig pattern_type time_on_ms time_off_ms
                      jitter_percent num_fingers mirror_pattern)) e in
  match _generate_next_pattern e entropy with
  | Py.Ok e' => (e', None)
  | Py.Raise x => (e, Some x)
  end.

(** [_execute_pattern_step] on the (truthy) current pattern.  A callback
    that raises ends the step there, with the assignments made so far and
    none of the later ones. *)
Definition _execute_pattern_step (fault : option nat) (e : TherapyEngine)
    (pattern : Pattern) (tick : Tick) (entropy : G)
  : TherapyEngine * list Event * option Py.exn :=
  if Nat.leb (len pattern) (_pattern_index e) then
    (* cycle complete *)
    let e := set_cycles_completed (cycles_completed e + 1)%nat e in
    let calls := if _on_cycle_complete e
                 then [CycleComplete (cycles_completed e)] else [] in
    let (events, raised) := invoke calls fault in
    if raised then (e, events, Some Py.Exception)
    else
      match _generate_next_pattern e entropy with
      | Py.Ok e' => (e', events, None)
      | Py.Raise x => (e, events, Some x)
      end
  else if _waiting_for_interval e then
    if Py.truthy_opt (_interval_start_time e) then
      match _interval_start_time e with
      | Some started =>
          let elapsed_ms := (at_step tick - started) * 1000 in
          match Py.getitem (timing_ms pattern)
                  (Z.of_nat (_pattern_index e) - 1)%Z with
          | Some required_interval =>
              if Py.Qleb required_interval elapsed_ms then
                (set_interval_start_time None
                   (set_waiting_for_interval false e), [], None)
              else (e, [], None)
          | None => (e, [], Some Py.IndexError)
          end
      | None => (e, [], None)
      end
    else (e, [], None)
  else
    match _activation_start_time e with
    | None =>
        (* start new activation *)
        match get_finger_pair pattern (_pattern_index e) with
        | Py.Ok (left_finger, right_finger) =>
            let sent := if _send_command_callback e
                        then [SendCommand "EXECUTE_BUZZ" left_finger
                                right_finger 100]
                        else [] in
            let activated := if _activate_callback e
                             then [Activate left_finger 100;
                                   Activate right_finger 100]
                             else [] in
            let (events, raised) := invoke (sent ++ activated)%list fault in
            if raised then (e, events, Some Py.Exception)
            else
              let e := set_activation_start_time (Some (at_step tick)) e in
              let e := set_total_activations (total_activations e + 2)%nat e in
              (e, events, None)
        | Py.Raise x => (e, [], Some x)
        end
    | Some started =>
        let elapsed_ms := (at_step tick - started) * 1000 in
        if Py.Qleb (burst_duration_ms pattern) elapsed_ms then
          match get_finger_pair pattern (_pattern_index e) with
          | Py.Ok (left_finger, right_finger) =>
              let deactivated := if _deactivate_callback e
                                 then [Deactivate left_finger;
                                       Deactivate right_finger]
                                 else [] in
              let (events, raised) := invoke deactivated fault in
              if raised then (e, events, Some Py.Exception)
              else
                let e := set_activation_start_time None e in
                let e := set_waiting_for_interval true e in
                let e := set_interval_start_time
                           (Some (at_interval_start tick)) e in
                let e := set_pattern_index (_pattern_index e + 1)%nat e in
                (e, events, None)
          | Py.Raise x => (e, [], Some x)
          end
        else (e, [], None)
    end.

(** [update()], in which the callback call number [fault], if any,
    raises. *)
Definition update_with (fault : option nat) (e : TherapyEngine)
    (tick : Tick) (entropy : G)
  : TherapyEngine * list Event * option Py.exn :=
  if negb (_is_running e) then (e, [], None)
  else if _is_paused e then (e, [], None)
  else if _should_stop e then (set_is_running false e, [], None)
  else
    let timed_out :=
      if Py.truthy_opt (_session_start_time e)
         && Py.truthy_opt (_session_duration_sec e) then
        match _session_start_time e, _session_duration_sec e with
        | Some started, Some duration =>
            let elapsed := at_timeout_check tick - started in
            Py.Qleb duration elapsed
        | _, _ => false
        end
      else false in
    if timed_out then (stop e, [], None)
    else
      match pattern_truthy (_current_pattern e) with
      | Some pattern => _execute_pattern_step fault e pattern tick entropy
      | None => (e, [], None)
      end.

(** [update()] with callbacks that all return. *)
Definition update (e : TherapyEngine) (tick : Tick) (entropy : G)
  : TherapyEngine * list Event * option Py.exn :=
  update_with None e tick entropy.

(** One call on the engine from outside. *)
Inductive Op : Type :=
| StartSession (duration_sec : Q) (pattern_type : string)
    (time_on_ms time_off_ms jitter_percent : Q) (num_fingers : nat)
    (mirror_pattern : bool) (now : Q) (entropy : G)
| Update (tick : Tick) (entropy : G)
| UpdateRaising (tick : Tick) (entropy : G) (k : nat)
    (** [update()] in which callback call number [k] raises *)
| Pause
| Resume
| Stop
| SetSendCommandCallback (installed : bool)
| SetActivateCallback (installed : bool)
| SetDeactivateCallback (installed : bool)
| SetCycleCompleteCallback (installed : bool).

Definition call (e : TherapyEngine) (op : Op)
  : TherapyEngine * list Event * option Py.exn :=
  match op with
  | StartSession d pt on off j n m now g =>
      let (e', x) := start_session e d pt on off j n m now g in (e', [], x)
  | Update tick g => update e tick g
  | UpdateRaising tick g k => update_with (Some k) e tick g
  | Pause => (pause e, [], None)
  | Resume => (resume e, [], None)
  | Stop => (stop e, [], None)
  | SetSendCommandCallback b => (set_send_command_callback b e, [], None)
  | SetActivateCallback b => (set_activate_callback b e, [], None)
  | SetDeactivateCallback b => (set_deactivate_callback b e, [], None)
  | SetCycleCompleteCallback b => (set_cycle_complete_callback b e, [], None)
  end.

(** What one call did: the engine before and after, and the callback
    invocations in between. *)
Record Step : Type := mkStep {
  before : TherapyEngine;
  emitted : list Event;
  after : TherapyEngine
}.

Fixpoint run (e : TherapyEngine) (ops : list Op) : list Step :=
  match ops with
  | [] => []
  | op :: rest =>
      let '(e', events, _) := call e op in
      mkStep e events e' :: run e' rest
  end.

(** The activate callback is installed whenever [update] is called. *)
Fixpoint activate_installed (e : TherapyEngine) (ops : list Op) : bool :=
  match ops with
  | [] => true
  | op :: rest =>
      match op with
      | Update _ _ | UpdateRaising _ _ _ => _activate_callback e
      | _ => true
      end && activate_installed (fst (fst (call e op))) rest
  end.

(** A call was cut short by a deactivate callback that raised: callback
    exceptions are the only [Exception] of the engine, and the call that
    raised is the last one logged. *)
Definition deactivate_raised (events : list Event) (x : option Py.exn)
  : bool :=
  match x, rev events with
  | Some Py.Exception, Deactivate _ :: _ => true
  | _, _ => false
  end.

(** Every call of the deactivate callback returns. *)
Fixpoint deactivate_returns (e : TherapyEngine) (ops : list Op) : bool :=
  match ops with
  | [] => true
  | op :: rest =>
      let '(e', events, x) := call e op in
      negb (deactivate_raised events x) && deactivate_returns e' rest
  end.

End WithRandom.

(** ** Bursts in a run *)

Definition is_some {A} (o : option A) : bool :=
  match o with Some _ => true | None => false end.

(** A burst begins in the call that sets [_activation_start_time]. *)
Definition burst_began (s : Step) : bool :=
  negb (is_some (_activation_start_time (before s)))
  && is_some (_activation_start_time (after s)).

Definition activations (events : list Event) : list nat :=
  flat_map (fun ev => match ev with Activate f _ => [f] | _ => [] end) events.

Definition deactivations (events : list Event) : list nat :=
  flat_map (fun ev => match ev with Deactivate f => [f] | _ => [] end) events.

(** Take one occurrence of [f] out of the open activations. *)
Fixpoint close_one (f : nat) (open : list nat) : option (list nat) :=
  match open with
  | [] => None
  | g :: rest =>
      if Nat.eqb g f then Some rest
      else option_map (cons g) (close_one f rest)
  end.

Fixpoint close_all (fs : list nat) (open : list nat) : option (list nat) :=
  match fs with
  | [] => Some open
  | f :: rest =>
      match close_one f open with
      | Some open' => close_all rest open'
      | None => None
      end
  end.

(** Every deactivate has its own earlier activate for the same actuator
    in the same burst.  [open] holds the activations of the current burst
    not yet deactivated; a call that begins a burst replaces it by the
    activations of that call. *)
Fixpoint bursts_matched (open : list nat) (steps : list Step) : bool :=
  match steps with
  | [] => true
  | s :: rest =>
      let open := if burst_began s then activations (emitted s) else open in
      match close_all (deactivations (emitted s)) open with
      | Some open' => bursts_matched open' rest
      | None => false
      end
  end.

(** While a burst is in flight the open activations are the finger pair
    under the cursor. *)
Definition in_flight (e : TherapyEngine) (open : list nat) : Prop :=
  match _activation_start_time e with
  | Some _ =>
      exists p l r,
        _current_pattern e = Some p /\
        get_finger_pair p (_pattern_index e) = Py.Ok (l, r) /\
        open = [l; r]
  | None => True
  end.

(** One call keeps the bursts matched and the cursor in step. *)
Definition stays_matched (e : TherapyEngine) (open : list nat)
    (e' : TherapyEngine) (events : list Event) : Prop :=
  exists open',
    close_all (deactivations events)
      (if burst_began (mkStep e events e') then activations events else open)
    = Some open' /\
    in_flight e' open'.

(** The pattern types [_generate_next_pattern] knows. *)
Definition known_pattern_type (pattern_type : string) : Prop :=
  pattern_type = "rndp"%string \/ pattern_type = "sequential"%string
  \/ pattern_type = "mirrored"%string.

End Engine.

(* ================================================================== *)
(** * core/types.py : the predicates of [TherapyState], [SessionInfo]  *)
(* ================================================================== *)

(** The methods of [class TherapyState]. *)
Module TherapyStateMethods.

Definition is_active (self : TherapyState) : bool :=
  state_in self [RUNNING; PAUSED].

Definition is_error (self : TherapyState) : bool :=
  state_in self [ERROR; CRITICAL_BATTERY; CONNECTION_LOST].

Definition is_battery_warning (self : TherapyState) : bool :=
  state_in self [LOW_BATTERY; CRITICAL_BATTERY].

Definition can_start_therapy (self : TherapyState) : bool :=
  state_in self [IDLE; READY].

Definition can_pause (self : TherapyState) : bool :=
  TherapyState_eqb self RUNNING.

Definition can_resume (self : TherapyState) : bool :=
  TherapyState_eqb self PAUSED.

End TherapyStateMethods.

(** [class SessionInfo]; durations and elapsed times are numbers, taken as
    rationals. *)
Module SessionInfo.

Record t : Type := make {
  session_id : string;
  start_time : Q;
  duration_sec : Q;
  elapsed_sec : Q;
  profile_name : string;
  state : TherapyState
}.

(** [progress_percentage()]: an integer.  Quotient and product are taken
    exactly; the floats of the code can round the product below a whole
    percent that exact arithmetic reaches. *)
Definition progress_percentage (self : t) : Z :=
  if Py.Qleb (duration_sec self) 0 then 0%Z
  else
    let progress := Py.int_of_float ((elapsed_sec self / duration_sec self) * 100)%Q in
    Z.min 100 (Z.max 0 progress).

(** [remaining_sec()]. *)
Definition remaining_sec (self : t) : Q :=
  let remaining := (duration_sec self - elapsed_sec self)%Q in
  Py.max 0 remaining.

(** [is_complete()]. *)
Definition is_complete (self : t) : bool :=
  Py.Qleb (duration_sec self) (elapsed_sec self).

End SessionInfo.

(** Observers of a state machine, read off its outputs. *)
Module StateMachineRuns.
Import StateMachine.

(** The observer calls among the outputs, in order. *)
Definition notifications (outputs : list Output) : list (nat * StateTransition) :=
  flat_map (fun o => match o with
                     | Notified id t => [(id, t)]
                     | Printed _ => []
                     end) outputs.

(** The states in which a session can be, started or not. *)
Definition session_states : list TherapyState :=
  [IDLE; READY; RUNNING; PAUSED; STOPPING].

(** Registered observers are pairwise distinct. *)
Definition distinct_observers (m : TherapyStateMachine) : Prop :=
  NoDup (map obs_id (_callbacks m)).

End StateMachineRuns.

(* ================================================================== *)
(** * sync.py : receiving, and the clock offset                        *)
(* ================================================================== *)

Module SyncReceive.
Import Sync.

(** The connection object handed to [receive_command]: whether it offers
    [read] or [receive], and what the call made on it returns ([None] for
    Python's [None]) or raises. *)
Record Source : Type := mkSource {
  has_read : bool;
  has_receive : bool;
  reply : Py.result (option string)
}.

(** [receive_command(connection, timeout)]: every exception is swallowed
    into [None]. *)
Definition receive_command (int : string -> option Z) (connection : Source)
  : option SyncCommand :=
  if has_read connection || has_receive connection then
    match reply connection with
    | Py.Ok (Some data) =>
        if Py.nonempty data then
          match deserialize int data with
          | Py.Ok c => Some c
          | Py.Raise _ => None
          end
        else None
    | Py.Ok None => None
    | Py.Raise _ => None
    end
  else None.

(** The bytes last put on a sending connection, if any. *)
Definition last_put (connection : Connection) : option string :=
  List.last (map Some (wire connection)) None.

(** [d.get(k)]: the value bound to a key. *)
Fixpoint dict_get (d : dict) (k : string) : option value :=
  match d with
  | [] => None
  | (k', v) :: rest => if String.eqb k' k then Some v else dict_get rest k
  end.

(** The text that follows the last occurrence of key [k] in a list of
    alternating keys and texts. *)
Fixpoint last_binding (parts : list string) (k : string) : option string :=
  match parts with
  | key :: text :: rest =>
      match last_binding rest k with
      | Some t => Some t
      | None => if String.eqb key k then Some text else None
      end
  | _ => None
  end.

(** Rounding to the nearest multiple of [1 / scale]: what the rounding of
    a float amounts to between two powers of two (for binary64 between
    [2^18] and [2^19], [scale] is [2^34]). *)
Definition round_to (scale : positive) (q : Q) : Q :=
  (inject_Z (Qfloor (q * inject_Z (Zpos scale) + (1 # 2))) / inject_Z (Zpos scale))%Q.

(** A rounding keeps the order and does not make zero negative. *)
Definition rounding (fl : Q -> Q) : Prop :=
  (forall a b : Q, (a <= b)%Q -> (fl a <= fl b)%Q) /\ (0 <= fl 0)%Q.

End SyncReceive.

(** [class SimpleSyncProtocol]; timestamps are integers (microseconds). *)
Module SimpleSyncProtocol.

Record t : Type := make {
  current_offset : Z;
  last_sync_time : option Q
}.

Definition __init__ : t := make 0 None.

(** [calculate_offset(primary_time, secondary_time)] at clock reading
    [now]: the returned offset and the protocol state afterwards. *)
Definition calculate_offset (self : t) (primary_time secondary_time : Z) (now : Q)
  : Z * t :=
  let offset := (secondary_time - primary_time)%Z in
  (offset, make offset (Some now)).

Definition apply_compensation (self : t) (timestamp : Z) : Z :=
  (timestamp - current_offset self)%Z.

Definition reset (self : t) : t := make 0 None.

End SimpleSyncProtocol.

(* ================================================================== *)
(** * ble.py : connection bookkeeping                                  *)
(* ================================================================== *)

Module BLEAdmin.
Import BLE.

(** [del self._connections[conn_id]]. *)
Fixpoint remove (cs : connections) (conn_id : string) : connections :=
  match cs with
  | [] => []
  | (k, c) :: rest =>
      if String.eqb k conn_id then remove rest conn_id
      else (k, c) :: remove rest conn_id
  end.

(** [BLE.disconnect(conn_id)]: the link is told to disconnect (a failure
    of that call is ignored) and the entry is deleted. *)
Definition disconnect (cs : connections) (conn_id : string) : connections :=
  match lookup cs conn_id with
  | Some _ => remove cs conn_id
  | None => cs
  end.

(** [BLE.is_connected(conn_id)]. *)
Definition is_connected (cs : connections) (conn_id : string) : bool :=
  match lookup cs conn_id with
  | Some conn => BLE.is_connected conn
  | None => false
  end.

(** [BLE.get_all_connections()]. *)
Definition get_all_connections (cs : connections) : list string := map fst cs.

Fixpoint disconnect_each (ids : list string) (cs : connections) : connections :=
  match ids with
  | [] => cs
  | conn_id :: rest => disconnect_each rest (disconnect cs conn_id)
  end.

(** [BLE.disconnect_all()]: [for conn_id in list(keys): disconnect]. *)
Definition disconnect_all (cs : connections) : connections :=
  disconnect_each (get_all_connections cs) cs.

(** What has been written through a connection, oldest first. *)
Definition written (cs : connections) (conn_id : string) : list string :=
  match lookup cs conn_id with
  | Some conn => tx (uart conn)
  | None => []
  end.


End BLEAdmin.

(* ================================================================== *)
(** * therapy.py : pattern duration, engine statistics                 *)
(* ================================================================== *)

Module TherapyMore.
Import Therapy Engine.

(** [sum(xs)] on numbers, starting from 0. *)
Definition sum (xs : list Q) : Q := fold_left Qplus xs 0%Q.

(** [Pattern.get_total_duration_ms()]. *)
Definition get_total_duration_ms (p : Pattern) : Q :=
  let total := sum (timing_ms p) in
  (total + inject_Z (Z.of_nat (List.length (timing_ms p))) * burst_duration_ms p)%Q.

(** [TherapyEngine.get_stats()]: cycles completed, total activations,
    timing drift. *)
Definition get_stats (e : TherapyEngine) : nat * nat * Q :=
  (cycles_completed e, total_activations e, timing_drift_ms e).

(** The library's promise about [random()]: a value in the unit interval. *)
Definition unit_random {G : Type} {R : PyRandom G} : Prop :=
  forall g : G, (0 <= fst (random g))%Q /\ (fst (random g) <= 1)%Q.

(** The engine after a sequence of calls. *)
Fixpoint final {G : Type} {R : PyRandom G} (e : TherapyEngine) (ops : list (@Op G))
  : TherapyEngine :=
  match ops with
  | [] => e
  | op :: rest => final (fst (fst (call e op))) rest
  end.

(** All callback invocations of a run, in order. *)
Definition events_of (steps : list Step) : list Event := flat_map emitted steps.

Definition is_start {G : Type} (op : @Op G) : bool :=
  match op with StartSession _ _ _ _ _ _ _ _ _ => true | _ => false end.

Definition is_update {G : Type} (op : @Op G) : bool :=
  match op with Update _ _ | UpdateRaising _ _ _ => true | _ => false end.

(** The finger count a call asks for, for calls that start a session. *)
Definition fingers_asked {G : Type} (op : @Op G) : nat :=
  match op with StartSession _ _ _ _ _ n _ _ _ => n | _ => 0 end.

(** The actuator indices and amplitudes an event carries are in range. *)
Definition event_in_range (limit : nat) (ev : Event) : Prop :=
  match ev with
  | Activate f amplitude => (f < limit)%nat /\ amplitude = 100%nat
  | Deactivate f => (f < limit)%nat
  | SendCommand _ l r amplitude => (l < limit)%nat /\ (r < limit)%nat /\ amplitude = 100%nat
  | CycleComplete _ => True
  end.

(** The current pattern, if any, addresses actuators below [limit], and
    so will every pattern generated from the stored configuration. *)
Definition within (limit : nat) (e : TherapyEngine) : Prop :=
  match _current_pattern e with
  | Some p => Forall (fun i => (i < limit)%nat) (left_sequence p) /\
              Forall (fun i => (i < limit)%nat) (right_sequence p)
  | None => True
  end /\
  match _pattern_config e with
  | Some c => (num_fingers c <= limit)%nat
  | None => _current_pattern e = None
  end.

(** The number of bursts begun in a run. *)
Definition bursts (steps : list Step) : nat :=
  List.length (filter burst_began steps).

(** No call of the sequence starts a session. *)
Definition no_start {G : Type} (ops : list (@Op G)) : bool :=
  forallb (fun op => negb (is_start op)) ops.

(** The session attributes a pattern step leaves alone. *)
Definition same_session (e e' : TherapyEngine) : Prop :=
  _is_running e' = _is_running e /\
  _session_start_time e' = _session_start_time e /\
  _session_duration_sec e' = _session_duration_sec e /\
  _pattern_config e' = _pattern_config e.

End TherapyMore.

(* ================================================================== *)
(** * menu.py : command parsing and dispatch                           *)
(* ================================================================== *)

Module Menu.
Local Open Scope string_scope.

(** [EOT = "\x04"], the text of one character. *)
Definition EOT : string := String BLE.EOT "".

Definition INTERNAL_MESSAGES : list string :=
  ["EXECUTE_BUZZ"; "BUZZ_COMPLETE"; "PARAM_UPDATE"; "SEED"; "SEED_ACK";
   "GET_BATTERY"; "BATRESPONSE"; "ACK_PARAM_UPDATE"].

(** The keys of [self._commands]. *)
Definition command_names : list string :=
  ["INFO"; "BATTERY"; "PING"; "PROFILE_LIST"; "PROFILE_LOAD"; "PROFILE_GET";
   "PROFILE_CUSTOM"; "SESSION_START"; "SESSION_PAUSE"; "SESSION_RESUME";
   "SESSION_STOP"; "SESSION_STATUS"; "PARAM_SET"; "CALIBRATE_START";
   "CALIBRATE_BUZZ"; "CALIBRATE_STOP"; "HELP"; "RESTART"].

(** [command in self._commands]. *)
Definition is_command (command : string) : bool :=
  existsb (String.eqb command) command_names.

(** [s.replace(c, '')] for a one-character [c]. *)
Fixpoint remove_char (c : ascii) (s : string) : string :=
  match s with
  | EmptyString => EmptyString
  | String a r => if Ascii.eqb a c then remove_char c r
                  else String a (remove_char c r)
  end.

(** [str.upper()] on the target interpreter: the ASCII letters. *)
Definition upper_char (c : ascii) : ascii :=
  let n := N_of_ascii c in
  if ((97 <=? n) && (n <=? 122))%N then ascii_of_N (n - 32) else c.

Fixpoint upper (s : string) : string :=
  match s with
  | EmptyString => EmptyString
  | String c r => String (upper_char c) (upper r)
  end.

(** [s.startswith(prefix)]. *)
Definition startswith (s prefix : string) : bool := String.prefix prefix s.

(** [s.endswith(suffix)]. *)
Fixpoint endswith (s suffix : string) : bool :=
  if String.eqb s suffix then true
  else match s with
       | EmptyString => false
       | String _ r => endswith r suffix
       end.

(** The clean-up shared by [parse_command] and [is_internal_message]:
    [message.strip().replace('\n', '').replace(EOT, '')]. *)
Definition cleaned (message : string) : string :=
  remove_char BLE.EOT (remove_char (ascii_of_nat 10) (Py.strip message)).

(** [parse_command]: [None] for an empty or internal message, else the
    command name in upper case and its parameters. *)
Definition parse_command (message : string)
  : Py.result (option (string * list string)) :=
  if negb (Py.nonempty message) then Py.Ok None
  else
    let message := cleaned message in
    if negb (Py.nonempty message) then Py.Ok None
    else if existsb (startswith message) INTERNAL_MESSAGES then Py.Ok None
    else
      let parts := Py.split ":" message in
      match Py.getitem parts 0 with
      | None => Py.Raise Py.IndexError
      | Some head =>
          let command := upper head in
          let params := if (1 <? List.length parts)%nat then List.tl parts
                        else [] in
          Py.Ok (Some (command, params))
      end.

(** [format_error]. *)
Definition format_error (message : string) : string :=
  "ERROR:" ++ message ++ String (ascii_of_nat 10) "" ++ EOT.

(** [is_internal_message]. *)
Definition is_internal_message (message : string) : bool :=
  existsb (startswith (cleaned message)) INTERNAL_MESSAGES.

(** The characters of a command word: capital letters, digits and the
    underscore. *)
Definition word_char (c : ascii) : bool :=
  let n := N_of_ascii c in
  ((65 <=? n) && (n <=? 90) || (48 <=? n) && (n <=? 57) || (n =? 95))%N.

Section Handlers.
(** The eighteen command handlers: for a command name and its parameters
    the response they return ([inl]), or the text of the exception they
    raise ([inr]). *)
Variable handlers : string -> list string -> string + string.

(** [handle_command]. *)
Definition handle_command (message : string) : Py.result string :=
  Py.bind (parse_command message) (fun parsed =>
  match parsed with
  | None =>
      Py.Ok (if endswith message EOT then message else message ++ EOT)
  | Some (command, params) =>
      if is_command command then
        match handlers command params with
        | inl response => Py.Ok response
        | inr e => Py.Ok (format_error ("Command execution error: " ++ e))
        end
      else Py.Ok (format_error ("Unknown command: " ++ command))
  end).

End Handlers.
End Menu.

(* ================================================================== *)
(** * app.py : sync commands out, received messages in                 *)
(* ================================================================== *)

Module App.
Local Open Scope string_scope.

Inductive DeviceRole : Type := PRIMARY | SECONDARY.

(** The message [send_sync_command] builds:
    ["SYNC:" + command_type + ":" + data_str]. *)
Definition sync_message (command_type : string) (data : Sync.dict) : string :=
  let data_str :=
    match data with
    | [] => ""
    | _ => Py.join "|" (flat_map (fun kv => [fst kv; Sync.str (snd kv)]) data)
    end in
  "SYNC:" ++ command_type ++ ":" ++ data_str.

(** Truthiness of a connection id that may be [None]. *)
Definition connection_set (connection : option string) : option string :=
  match connection with
  | Some conn_id => if Py.nonempty conn_id then Some conn_id else None
  | None => None
  end.

(** The [send_sync_command] callback installed on the engine of the
    primary device. *)
Definition send_sync_command (role : DeviceRole)
    (secondary_connection : option string) (ble : BLE.connections) (now : Q)
    (command_type : string) (data : Sync.dict) : BLE.connections :=
  match role, connection_set secondary_connection with
  | PRIMARY, Some conn_id =>
      snd (BLE.send ble now conn_id (sync_message command_type data))
  | _, _ => ble
  end.

(** The outgoing queue: pairs of connection id and text. *)
Definition message_queue : Type := list (string * string).

Section Menu.
Variable handlers : string -> list string -> string + string.

(** [_process_connection_messages]: [None] while [receive] is still
    polling.  An exception of the menu is swallowed. *)
Definition _process_connection_messages (ble : BLE.connections)
    (queue : message_queue) (connection : string) (start_time : Q)
    (polls : list BLE.Poll) : option (BLE.connections * message_queue) :=
  match BLE.receive ble connection (Some (1 # 100)%Q) start_time polls with
  | (BLE.Message message _, ble') =>
      match Menu.handle_command handlers message with
      | Py.Ok response => Some (ble', (queue ++ [(connection, response)])%list)
      | Py.Raise _ => Some (ble', queue)
      end
  | (BLE.NoMessage, ble') => Some (ble', queue)
  | (BLE.Polling _, _) => None
  end.

End Menu.

(** The loop of [_process_message_queue] with [n] turns left; [clock]
    gives the reading each [send] takes. *)
Fixpoint process_queue (n : nat) (ble : BLE.connections) (clock : nat -> Q)
    (queue : message_queue) : BLE.connections * message_queue :=
  match n, queue with
  | S n', (connection, data) :: rest =>
      process_queue n' (snd (BLE.send ble (clock n) connection data)) clock rest
  | _, _ => (ble, queue)
  end.

(** [_process_message_queue]: up to five messages per call. *)
Definition _process_message_queue (ble : BLE.connections) (clock : nat -> Q)
    (queue : message_queue) : BLE.connections * message_queue :=
  process_queue 5 ble clock queue.

End App.
(* ================================================================== *)
(** * Properties                                                       *)
(* ================================================================== *)

(** ** Text: splitting, joining and stripping *)

(** Boolean tests on bytes, to and from facts about numbers. *)
Ltac bytes_to_N :=
  repeat match goal with
  | H : (_ || _)%bool = true |- _ => apply orb_prop in H; destruct H as [H|H]
  | H : (_ && _)%bool = true |- _ =>
      let H1 := fresh H in apply andb_prop in H; destruct H as [H1 H]
  | H : (_ =? _)%N = true |- _ => apply N.eqb_eq in H
  | H : (_ <=? _)%N = true |- _ => apply N.leb_le in H
  | H : (_ || _)%bool = false |- _ =>
      let H1 := fresh H in apply orb_false_elim in H; destruct H as [H1 H]
  | H : (_ =? _)%N = false |- _ => apply N.eqb_neq in H
  | H : (_ <=? _)%N = false |- _ => apply N.leb_gt in H
  | H : negb _ = true |- _ => apply negb_true_iff in H
  | H : negb _ = false |- _ => apply negb_false_iff in H
  end.

Ltac N_to_bytes :=
  repeat match goal with
  | |- (_ && _)%bool = true => apply andb_true_intro; split
  | |- (_ <=? _)%N = true => apply N.leb_le
  | |- (_ =? _)%N = true => apply N.eqb_eq
  | |- (_ =? _)%N = false => apply N.eqb_neq
  | |- (_ || _)%bool = false => apply orb_false_intro
  | |- negb _ = true => apply negb_true_iff
  | |- negb _ = false => apply negb_false_iff
  end.

Section TextFacts.
Import Text.
Local Open Scope string_scope.

Lemma append_assoc (a b c : string) : (a ++ b) ++ c = a ++ (b ++ c).
Proof. induction a as [|x a IH]; cbn; [reflexivity | now rewrite IH]. Qed.

Lemma append_empty_r (a : string) : a ++ "" = a.
Proof. induction a as [|x a IH]; cbn; [reflexivity | now rewrite IH]. Qed.

Lemma contains_char_app (c : ascii) (a b : string) :
  Py.contains_char c (a ++ b) = Py.contains_char c a || Py.contains_char c b.
Proof.
  induction a as [|x a IH]; cbn; [reflexivity|].
  now rewrite IH, orb_assoc.
Qed.

Lemma split_nonempty (sep : ascii) (s : string) : Py.split sep s <> [].
Proof.
  destruct s as [|c r]; cbn; [discriminate|].
  destruct (Ascii.eqb c sep); [discriminate|].
  destruct (Py.split sep r); discriminate.
Qed.

(** A text without the separator is a single field. *)
Lemma split_no_sep (sep : ascii) (s : string) :
  Py.contains_char sep s = false -> Py.split sep s = [s].
Proof.
  induction s as [|c r IH]; cbn; [reflexivity|].
  destruct (Ascii.eqb c sep); cbn; [discriminate|].
  intros H. now rewrite IH.
Qed.

(** The first separator ends the first field. *)
Lemma split_app_sep (sep : ascii) (a b : string) :
  Py.contains_char sep a = false ->
  Py.split sep (a ++ String sep b) = a :: Py.split sep b.
Proof.
  induction a as [|c r IH]; cbn.
  - now rewrite Ascii.eqb_refl.
  - destruct (Ascii.eqb c sep); cbn; [discriminate|].
    intros H. now rewrite IH.
Qed.

Lemma split_max_no_sep (sep : ascii) (s : string) (n : nat) :
  Py.contains_char sep s = false -> Py.split_max sep s n = [s].
Proof.
  induction s as [|c r IH]; cbn; [reflexivity|].
  destruct n; [reflexivity|].
  destruct (Ascii.eqb c sep); cbn; [discriminate|].
  intros H. now rewrite IH.
Qed.

Lemma split_max_app_sep (sep : ascii) (a b : string) (n : nat) :
  Py.contains_char sep a = false ->
  Py.split_max sep (a ++ String sep b) (S n) = a :: Py.split_max sep b n.
Proof.
  induction a as [|c r IH]; cbn.
  - now rewrite Ascii.eqb_refl.
  - destruct (Ascii.eqb c sep); cbn; [discriminate|].
    intros H. now rewrite IH.
Qed.

Lemma split_max_zero (sep : ascii) (s : string) : Py.split_max sep s 0 = [s].
Proof. now destruct s. Qed.

Lemma join_cons2 (sep a b : string) (l : list string) :
  Py.join sep (a :: b :: l) = a ++ sep ++ Py.join sep (b :: l).
Proof. reflexivity. Qed.

Lemma join_snoc (sep t : string) (l : list string) :
  l <> [] -> Py.join sep (l ++ [t]) = Py.join sep l ++ sep ++ t.
Proof.
  induction l as [|a l IH]; [congruence|]. intros _.
  destruct l as [|b l].
  - reflexivity.
  - change ((a :: b :: l) ++ [t])%list with (a :: (b :: l) ++ [t])%list.
    cbn [app]. rewrite !join_cons2.
    change (b :: (l ++ [t])%list) with ((b :: l) ++ [t])%list.
    rewrite IH by discriminate.
    now rewrite !append_assoc.
Qed.

(** Splitting undoes joining when no field holds the separator. *)
Lemma split_join (sep : ascii) (l : list string) :
  l <> [] ->
  Forall (fun s => Py.contains_char sep s = false) l ->
  Py.split sep (Py.join (String sep "") l) = l.
Proof.
  induction l as [|a l IH]; [congruence|]. intros _ Hl.
  inversion Hl as [|? ? Ha Hl']; subst.
  destruct l as [|b l].
  - cbn. now apply split_no_sep.
  - rewrite join_cons2. cbn [append].
    rewrite split_app_sep by exact Ha.
    now rewrite IH by (discriminate || assumption).
Qed.

(** *** UTF-8 *)

Lemma utf8_run_app (st : Py.utf8_state) (a b : string) :
  Py.utf8_run st (a ++ b) = Py.utf8_run (Py.utf8_run st a) b.
Proof. revert st; induction a as [|c a IH]; intros st; cbn; [reflexivity | apply IH]. Qed.

Lemma is_text_app (a b : string) :
  Py.is_text a = true -> Py.is_text b = true -> Py.is_text (a ++ b) = true.
Proof.
  unfold Py.is_text. rewrite utf8_run_app.
  destruct (Py.utf8_run Py.U_start a); try discriminate. auto.
Qed.

Lemma is_text_join (sep : string) (l : list string) :
  Py.is_text sep = true ->
  Forall (fun s => Py.is_text s = true) l ->
  Py.is_text (Py.join sep l) = true.
Proof.
  intros Hsep. induction 1 as [|a l Ha Hl IH]; [reflexivity|].
  destruct l as [|b l]; [exact Ha|].
  rewrite join_cons2. auto using is_text_app.
Qed.

Lemma ascii7_is_text (s : string) : ascii7 s = true -> Py.is_text s = true.
Proof.
  unfold Py.is_text, ascii7. induction s as [|c r IH]; cbn; [reflexivity|].
  intros H. apply andb_prop in H as [Hc Hr]. rewrite Hc. now apply IH.
Qed.

Lemma utf8_run_bad (s : string) : Py.utf8_run Py.U_bad s = Py.U_bad.
Proof. induction s as [|c r IH]; [reflexivity | exact IH]. Qed.

(** Text begins with the first byte of a character. *)
Lemma is_text_starts_whole (s : string) :
  Py.is_text s = true -> starts_whole s = true.
Proof.
  destruct s as [|c r]; [reflexivity|]. unfold Py.is_text, starts_whole, is_cont.
  cbn [Py.utf8_run Py.utf8_step].
  destruct ((128 <=? N_of_ascii c)%N && (N_of_ascii c <=? 191)%N)%bool eqn:E;
    [|reflexivity].
  apply andb_prop in E as [E1 E2]. apply N.leb_le in E1, E2.
  replace (N_of_ascii c <? 128)%N with false by (symmetry; apply N.ltb_ge; lia).
  unfold Py.in_range.
  repeat match goal with
  | |- context [(?a <=? N_of_ascii c)%N] =>
      first [ replace (a <=? N_of_ascii c)%N with false
                by (symmetry; apply N.leb_gt; lia)
            | replace (a <=? N_of_ascii c)%N with true
                by (symmetry; apply N.leb_le; lia) ]
  | |- context [(N_of_ascii c =? ?a)%N] =>
      replace (N_of_ascii c =? a)%N with false by (symmetry; apply N.eqb_neq; lia)
  end.
  cbn [andb]. now rewrite utf8_run_bad.
Qed.

(** *** Stripping *)

Lemma space_starts (a : ascii) : Py.is_space a = true -> Py.starts_space a = true.
Proof. unfold Py.starts_space. now intros ->. Qed.

Lemma space2_starts (a b : ascii) :
  Py.is_space2 a b = true -> Py.starts_space a = true /\ Py.is_space a = false.
Proof.
  unfold Py.is_space2, Py.starts_space, Py.is_space. intros H. bytes_to_N.
  all: rewrite H0; split; reflexivity.
Qed.

Lemma space3_starts (a b c : ascii) :
  Py.is_space3 a b c = true ->
  Py.starts_space a = true /\ Py.is_space a = false /\
  (forall d, Py.is_space2 a d = false).
Proof.
  unfold Py.is_space3, Py.is_space2, Py.starts_space, Py.is_space. intros H.
  bytes_to_N.
  all: repeat match goal with E : N_of_ascii _ = _ |- _ => try rewrite E; clear E end.
  all: repeat split; reflexivity.
Qed.

Lemma space2_cont (a b : ascii) : Py.is_space2 a b = true -> is_cont b = true.
Proof.
  unfold Py.is_space2, is_cont. intros H. bytes_to_N; N_to_bytes; lia.
Qed.

Lemma space3_cont (a b c : ascii) :
  Py.is_space3 a b c = true -> is_cont b = true /\ is_cont c = true.
Proof.
  unfold Py.is_space3, is_cont. intros H.
  bytes_to_N; split; N_to_bytes; lia.
Qed.

Lemma space_not_cont (a : ascii) : Py.is_space a = true -> is_cont a = false.
Proof.
  unfold Py.is_space, is_cont. intros H.
  destruct ((128 <=? N_of_ascii a)%N) eqn:E; [|reflexivity].
  bytes_to_N; lia.
Qed.

Lemma starts_space_whole (a : ascii) : Py.starts_space a = true -> is_cont a = false.
Proof.
  unfold Py.starts_space. intros H.
  apply orb_prop in H as [H|H]; [|unfold is_cont; apply N.eqb_eq in H; now rewrite H].
  apply orb_prop in H as [H|H]; [|unfold is_cont; apply N.eqb_eq in H; now rewrite H].
  apply orb_prop in H as [H|H]; [|unfold is_cont; apply N.eqb_eq in H; now rewrite H].
  apply orb_prop in H as [H|H]; [|unfold is_cont; apply N.eqb_eq in H; now rewrite H].
  now apply space_not_cont.
Qed.

(** A white-space character begins with a byte of its own kind, and its
    other bytes are continuation bytes. *)
Lemma white_head (c : ascii) (r : string) :
  Py.white (String c r) = true -> Py.starts_space c = true.
Proof.
  destruct r as [|b [|d [|e r]]]; cbn [Py.white]; try discriminate.
  - apply space_starts.
  - intros H. now apply space2_starts in H.
  - intros H. now apply space3_starts in H.
Qed.

Lemma white_tail_cont (c x : ascii) (a b : string) :
  Py.white (String c (a ++ String x b)) = true -> is_cont x = true.
Proof.
  destruct a as [|a1 [|a2 a]]; cbn [append Py.white].
  - destruct b as [|b1 [|b2 b]]; try discriminate.
    + apply space2_cont.
    + intros H. now apply space3_cont in H.
  - destruct b as [|b1 b]; try discriminate.
    intros H. now apply space3_cont in H.
  - destruct a; discriminate.
Qed.

Lemma white_nonempty (w : string) : Py.white w = true -> w <> "".
Proof. destruct w; [discriminate | discriminate]. Qed.

(** A byte that begins no white-space character stops both strips. *)
Lemma rstrip_cons (c : ascii) (r : string) :
  Py.starts_space c = false -> Py.rstrip (String c r) = String c (Py.rstrip r).
Proof.
  intros H. cbn [Py.rstrip].
  destruct (Py.white (String c (Py.rstrip r))) eqn:E; [|reflexivity].
  apply white_head in E. congruence.
Qed.

Lemma lstrip_head (c : ascii) (s : string) :
  Py.starts_space c = false -> Py.lstrip (String c s) = String c s.
Proof.
  intros H. cbn [Py.lstrip].
  destruct (Py.is_space c) eqn:E1; [apply space_starts in E1; congruence|].
  destruct s as [|b s]; [reflexivity|].
  destruct (Py.is_space2 c b) eqn:E2; [apply space2_starts in E2 as [E2 _]; congruence|].
  destruct s as [|d s]; [reflexivity|].
  destruct (Py.is_space3 c b d) eqn:E3; [apply space3_starts in E3 as [E3 _]; congruence|].
  reflexivity.
Qed.

Lemma rstrip_idem (s : string) : Py.rstrip (Py.rstrip s) = Py.rstrip s.
Proof.
  induction s as [|c r IH]; [reflexivity|]. cbn [Py.rstrip].
  destruct (Py.white (String c (Py.rstrip r))) eqn:E; [reflexivity|].
  cbn [Py.rstrip]. now rewrite IH, E.
Qed.

Lemma rstrip_app_blank (a b : string) :
  Py.rstrip b = "" -> Py.rstrip (a ++ b) = Py.rstrip a.
Proof.
  intros Hb. induction a as [|c a IH]; [exact Hb|].
  cbn [append Py.rstrip]. now rewrite IH.
Qed.

Lemma rstrip_app_head (a b b' : string) (x : ascii) :
  Py.rstrip b = String x b' -> is_cont x = false ->
  Py.rstrip (a ++ b) = a ++ String x b'.
Proof.
  intros Hb Hx. induction a as [|c a IH]; [exact Hb|].
  cbn [append Py.rstrip]. rewrite IH.
  destruct (Py.white (String c (a ++ String x b'))) eqn:E; [|reflexivity].
  apply white_tail_cont in E. congruence.
Qed.

Lemma keeps_tail_app (a b : string) :
  b <> "" -> starts_whole b = true -> keeps_tail b -> keeps_tail (a ++ b).
Proof.
  unfold keeps_tail. intros Hb Hw Hk.
  destruct b as [|x b']; [congruence|].
  cbn in Hw. apply negb_true_iff in Hw.
  now apply rstrip_app_head.
Qed.

Lemma rstrip_newline (s : string) :
  Py.rstrip (s ++ Sync.newline) = Py.rstrip s.
Proof. now apply rstrip_app_blank. Qed.




Lemma lstrip_spec (s : string) :
  exists w, whites w /\ s = w ++ Py.lstrip s /\ keeps_head (Py.lstrip s).
Proof.
  assert (H : forall n s, (String.length s <= n)%nat ->
            exists w, whites w /\ s = w ++ Py.lstrip s /\ keeps_head (Py.lstrip s)).
  { clear s. induction n as [|n IH]; intros s Hn.
    - destruct s; [|cbn in Hn; lia]. exists "". repeat split. constructor.
    - destruct s as [|a r]; [exists ""; repeat split; constructor|].
      cbn [String.length] in Hn. cbn [Py.lstrip].
      destruct (Py.is_space a) eqn:E1.
      { destruct (IH r ltac:(lia)) as (w & Hw & Hs & Hk).
        exists (String a "" ++ w). repeat split; [|cbn; congruence|exact Hk].
        now constructor. }
      assert (Hstop : forall t, Py.lstrip (String a t) = String a t ->
                exists w, whites w /\ String a t = w ++ String a t /\
                          keeps_head (String a t)).
      { intros t Ht. exists "". repeat split; [constructor | exact Ht]. }
      destruct r as [|b r1].
      { apply Hstop. cbn [Py.lstrip]. now rewrite E1. }
      destruct (Py.is_space2 a b) eqn:E2.
      { cbn [String.length] in Hn.
        destruct (IH r1 ltac:(lia)) as (w & Hw & Hs & Hk).
        exists (String a (String b "") ++ w). repeat split; [|cbn; congruence|exact Hk].
        now constructor. }
      destruct r1 as [|c r2].
      { apply Hstop. cbn [Py.lstrip]. now rewrite E1, E2. }
      destruct (Py.is_space3 a b c) eqn:E3.
      { cbn [String.length] in Hn.
        destruct (IH r2 ltac:(lia)) as (w & Hw & Hs & Hk).
        exists (String a (String b (String c "")) ++ w).
        repeat split; [|cbn; congruence|exact Hk].
        now constructor. }
      apply Hstop. cbn [Py.lstrip]. now rewrite E1, E2, E3. }
  apply (H (String.length s)). lia.
Qed.

Lemma rstrip_spec (s : string) :
  exists w, whites w /\ s = Py.rstrip s ++ w.
Proof.
  induction s as [|c r (w & Hw & Hr)]; [exists ""; split; [constructor | reflexivity]|].
  cbn [Py.rstrip].
  destruct (Py.white (String c (Py.rstrip r))) eqn:E.
  - exists (String c (Py.rstrip r) ++ w). split; [now constructor|].
    cbn. congruence.
  - exists w. split; [exact Hw|]. cbn. congruence.
Qed.

Lemma append_length (a b : string) :
  String.length (a ++ b) = (String.length a + String.length b)%nat.
Proof. induction a as [|c a IH]; cbn; [reflexivity | now rewrite IH]. Qed.

Lemma append_same_r (w t : string) : t = w ++ t -> w = "".
Proof.
  intros H. apply (f_equal String.length) in H. rewrite append_length in H.
  destruct w; [reflexivity | cbn in H; lia].
Qed.

(** What it means for a text to begin with no white space, byte by byte. *)
Lemma keeps_head_bytes (a : ascii) (r : string) :
  keeps_head (String a r) ->
  Py.is_space a = false /\
  match r with
  | String b r1 =>
      Py.is_space2 a b = false /\
      match r1 with
      | String c _ => Py.is_space3 a b c = false
      | "" => True
      end
  | "" => True
  end.
Proof.
  unfold keeps_head. intros Hk.
  assert (Hshort : forall t, (String.length t < String.length (String a r))%nat ->
                             Py.lstrip t <> String a r).
  { intros t Hlt E. destruct (lstrip_spec t) as (w & _ & Ht & _).
    rewrite E in Ht. apply (f_equal String.length) in Ht.
    rewrite append_length in Ht. lia. }
  cbn [Py.lstrip] in Hk.
  destruct (Py.is_space a) eqn:E1.
  { exfalso. apply (Hshort r); [cbn; lia | exact Hk]. }
  split; [reflexivity|].
  destruct r as [|b r1]; [exact I|].
  destruct (Py.is_space2 a b) eqn:E2.
  { exfalso. apply (Hshort r1); [cbn; lia | exact Hk]. }
  split; [reflexivity|].
  destruct r1 as [|c r2]; [exact I|].
  destruct (Py.is_space3 a b c) eqn:E3; [|reflexivity].
  exfalso. apply (Hshort r2); [cbn; lia | exact Hk].
Qed.



End TextFacts.

(** ** Decimal text of integers *)

Section DecimalFacts.
Import Text.
Local Open Scope string_scope.

Lemma all_chars_weaken (P R : ascii -> bool) (s : string) :
  (forall c, P c = true -> R c = true) ->
  all_chars P s = true -> all_chars R s = true.
Proof.
  intros HPR. induction s as [|c r IH]; cbn; [reflexivity|].
  intros H. apply andb_prop in H as [Hc Hr].
  now rewrite (HPR c Hc), IH.
Qed.

Lemma digits_of_uint (d : Decimal.uint) :
  all_chars is_digit (NilEmpty.string_of_uint d) = true.
Proof. induction d; cbn; auto. Qed.

Lemma digits_of_uint_nz (d : Decimal.uint) :
  all_chars is_digit (NilZero.string_of_uint d) = true.
Proof. destruct d; try apply (digits_of_uint (_ d)); reflexivity. Qed.

Lemma string_of_uint_nonempty (d : Decimal.uint) :
  NilZero.string_of_uint d <> "".
Proof. destruct d; discriminate. Qed.

Lemma str_of_int_numeric (z : Z) : all_chars numeric (Py.str_of_int z) = true.
Proof.
  assert (W : forall d, all_chars numeric (NilZero.string_of_uint d) = true).
  { intros d. apply all_chars_weaken with (P := is_digit); [|apply digits_of_uint_nz].
    intros c Hc. unfold numeric. now rewrite Hc. }
  unfold Py.str_of_int. destruct z; cbn; auto.
Qed.

Lemma str_of_int_nonempty (z : Z) : Py.str_of_int z <> "".
Proof.
  unfold Py.str_of_int. destruct z; cbn; try discriminate.
  apply string_of_uint_nonempty.
Qed.

Lemma all_chars_no_char (P : ascii -> bool) (sep : ascii) (s : string) :
  P sep = false -> all_chars P s = true -> Py.contains_char sep s = false.
Proof.
  intros Hsep. induction s as [|c r IH]; cbn; [reflexivity|].
  intros H. apply andb_prop in H as [Hc Hr].
  rewrite IH by exact Hr. rewrite orb_false_r.
  destruct (Ascii.eqb_spec c sep); [congruence | reflexivity].
Qed.

Lemma numeric_ascii7 (c : ascii) : numeric c = true -> (N_of_ascii c <? 128)%N = true.
Proof.
  unfold numeric, is_digit. intros H. apply orb_prop in H as [H|H].
  - apply andb_prop in H as [_ H]. apply N.leb_le in H. apply N.ltb_lt. lia.
  - apply Ascii.eqb_eq in H. now subst.
Qed.

Lemma numeric_not_space (c : ascii) : numeric c = true -> Py.starts_space c = false.
Proof.
  unfold numeric, is_digit, Py.starts_space, Py.is_space. intros H.
  apply orb_prop in H as [H|H].
  - apply andb_prop in H as [H1 H2]. apply N.leb_le in H1, H2.
    replace (N_of_ascii c <=? 13)%N with false by (symmetry; apply N.leb_gt; lia).
    replace (N_of_ascii c <=? 32)%N with false by (symmetry; apply N.leb_gt; lia).
    rewrite !andb_false_r. cbn [orb].
    repeat (apply orb_false_intro; [|apply N.eqb_neq; lia]).
    apply N.eqb_neq; lia.
  - apply Ascii.eqb_eq in H. now subst.
Qed.

Lemma all_chars_ascii7 (s : string) :
  all_chars numeric s = true -> ascii7 s = true.
Proof. apply all_chars_weaken, numeric_ascii7. Qed.

(** Text whose bytes begin no white-space character is left alone by both
    strips. *)
Lemma rstrip_no_space (s : string) :
  all_chars (fun c => negb (Py.starts_space c)) s = true -> Py.rstrip s = s.
Proof.
  induction s as [|c r IH]; cbn [all_chars]; [reflexivity|].
  intros H. apply andb_prop in H as [Hc Hr]. apply negb_true_iff in Hc.
  now rewrite rstrip_cons, IH.
Qed.

Lemma lstrip_no_space (s : string) :
  all_chars (fun c => negb (Py.starts_space c)) s = true -> Py.lstrip s = s.
Proof.
  destruct s as [|c r]; cbn [all_chars]; [reflexivity|].
  intros H. apply andb_prop in H as [Hc _]. apply negb_true_iff in Hc.
  now apply lstrip_head.
Qed.

Lemma numeric_no_space (s : string) :
  all_chars numeric s = true ->
  all_chars (fun c => negb (Py.starts_space c)) s = true.
Proof.
  apply all_chars_weaken. intros c Hc. now rewrite numeric_not_space.
Qed.

Lemma str_of_int_no_char (sep : ascii) (z : Z) :
  numeric sep = false -> Py.contains_char sep (Py.str_of_int z) = false.
Proof. intros H. eapply all_chars_no_char; eauto using str_of_int_numeric. Qed.

Lemma str_of_int_is_text (z : Z) : Py.is_text (Py.str_of_int z) = true.
Proof. apply ascii7_is_text, all_chars_ascii7, str_of_int_numeric. Qed.

Lemma str_of_int_keeps_tail (z : Z) : keeps_tail (Py.str_of_int z).
Proof. apply rstrip_no_space, numeric_no_space, str_of_int_numeric. Qed.

Lemma strip_str_of_int (z : Z) : Py.strip (Py.str_of_int z) = Py.str_of_int z.
Proof.
  unfold Py.strip.
  rewrite lstrip_no_space by apply numeric_no_space, str_of_int_numeric.
  apply str_of_int_keeps_tail.
Qed.

Lemma uint_text_head (d : Decimal.uint) :
  match NilZero.string_of_uint d with
  | "" => False
  | String c _ => is_digit c = true
  end.
Proof.
  pose proof (digits_of_uint_nz d) as H.
  pose proof (string_of_uint_nonempty d) as N.
  destruct (NilZero.string_of_uint d) as [|c r]; [congruence|].
  cbn in H. now apply andb_prop in H as [H _].
Qed.

Lemma numeric_no_separator (s : string) :
  all_chars numeric s = true -> Py.has_separator s = false.
Proof.
  induction s as [|c r IH]; cbn [all_chars Py.has_separator]; [reflexivity|].
  intros H. apply andb_prop in H as [Hc Hr]. rewrite (IH Hr), orb_false_r.
  unfold numeric, is_digit in Hc. unfold Py.is_separator.
  apply orb_prop in Hc as [Hc|Hc].
  - apply andb_prop in Hc as [H1 _]. apply N.leb_le in H1.
    apply andb_false_intro2. apply N.leb_gt. lia.
  - apply Ascii.eqb_eq in Hc. now subst.
Qed.

(** [int(str(z)) == z] for the reference [int]. *)
Lemma int_str_of_int (z : Z) : Py.int (Py.str_of_int z) = Some z.
Proof.
  unfold Py.int.
  rewrite numeric_no_separator by apply str_of_int_numeric.
  rewrite strip_str_of_int. unfold Py.str_of_int.
  destruct z as [|p|p]; [reflexivity| |]; cbn [Z.to_int NilZero.string_of_int].
  - pose proof (uint_text_head (Pos.to_uint p)) as Hh.
    pose proof (NilZero.usu (Pos.to_uint p)
                  (DecimalPos.Unsigned.to_uint_nonnil p)) as Hu.
    destruct (NilZero.string_of_uint (Pos.to_uint p)) as [|c r] eqn:E; [easy|].
    assert (Hp : c <> "+"%char) by (intros ->; discriminate).
    assert (Hm : c <> "-"%char) by (intros ->; discriminate).
    assert (Hz : option_map Z.of_uint (NilZero.uint_of_string (String c r))
                 = Some (Z.pos p)).
    { rewrite Hu. cbn. unfold Z.of_uint.
      now rewrite DecimalPos.Unsigned.of_to. }
    destruct c as [[|] [|] [|] [|] [|] [|] [|] [|]]; try exact Hz; congruence.
  - rewrite (NilZero.usu (Pos.to_uint p) (DecimalPos.Unsigned.to_uint_nonnil p)).
    cbn. unfold Z.of_uint. now rewrite DecimalPos.Unsigned.of_to.
Qed.

End DecimalFacts.
(** ** The session state machine *)

Section StateMachineFacts.
Import StateMachine.
Local Open Scope string_scope.

Lemma TherapyState_eqb_eq (a b : TherapyState) :
  TherapyState_eqb a b = true <-> a = b.
Proof.
  unfold TherapyState_eqb.
  destruct (TherapyState_eq_dec a b); split; congruence.
Qed.

Lemma TherapyState_eqb_refl (a : TherapyState) : TherapyState_eqb a a = true.
Proof. now apply TherapyState_eqb_eq. Qed.

Lemma find_other_trigger (s : TherapyState) (trig : string)
    (rows : list (string * TherapyState * TherapyState)) :
  Forall (fun row => String.eqb trig (fst (fst row)) = false) rows ->
  find (row_matches s trig) rows = None.
Proof.
  induction 1 as [|[[t f] to] rows Hrow _ IH]; [reflexivity|].
  cbn in *. now rewrite Hrow.
Qed.

(** The code agrees with the table on every row of the table. *)
Lemma determine_next_state_table (m : TherapyStateMachine) (trig : string)
    (to : TherapyState) :
  table_lookup (_state m) trig = Some to ->
  _determine_next_state m trig = to.
Proof.
  unfold table_lookup, _determine_next_state.
  destruct m as [s cbs]; cbn [_state].
  destruct (String.eqb_spec trig StateTrigger.CONNECTED) as [->|n1].
  { destruct s; vm_compute; congruence. }
  destruct (String.eqb_spec trig StateTrigger.DISCONNECTED) as [->|n2].
  { destruct s; vm_compute; congruence. }
  destruct (String.eqb_spec trig StateTrigger.START_SESSION) as [->|n3].
  { destruct s; vm_compute; congruence. }
  destruct (String.eqb_spec trig StateTrigger.PAUSE_SESSION) as [->|n4].
  { destruct s; vm_compute; congruence. }
  destruct (String.eqb_spec trig StateTrigger.RESUME_SESSION) as [->|n5].
  { destruct s; vm_compute; congruence. }
  destruct (String.eqb_spec trig StateTrigger.STOP_SESSION) as [->|n6].
  { destruct s; vm_compute; congruence. }
  destruct (String.eqb_spec trig StateTrigger.STOPPED) as [->|n7].
  { destruct s; vm_compute; congruence. }
  destruct (String.eqb_spec trig StateTrigger.ERROR) as [->|n8].
  { destruct s; vm_compute; congruence. }
  destruct (String.eqb_spec trig StateTrigger.EMERGENCY_STOP) as [->|n9].
  { destruct s; vm_compute; congruence. }
  rewrite find_other_trigger; [discriminate|].
  unfold transition_table; cbn [app map all_states].
  repeat constructor; cbn [fst]; now apply String.eqb_neq.
Qed.

(** Off the table the code computes the current state. *)
Lemma determine_next_state_off_table (m : TherapyStateMachine) (trig : string) :
  in_table (_state m) trig = false ->
  _determine_next_state m trig = _state m.
Proof.
  unfold in_table, _determine_next_state.
  destruct m as [s cbs]; cbn [_state].
  destruct (String.eqb_spec trig StateTrigger.CONNECTED) as [->|n1].
  { destruct s; vm_compute; congruence. }
  destruct (String.eqb_spec trig StateTrigger.DISCONNECTED) as [->|n2].
  { destruct s; vm_compute; congruence. }
  destruct (String.eqb_spec trig StateTrigger.START_SESSION) as [->|n3].
  { destruct s; vm_compute; congruence. }
  destruct (String.eqb_spec trig StateTrigger.PAUSE_SESSION) as [->|n4].
  { destruct s; vm_compute; congruence. }
  destruct (String.eqb_spec trig StateTrigger.RESUME_SESSION) as [->|n5].
  { destruct s; vm_compute; congruence. }
  destruct (String.eqb_spec trig StateTrigger.STOP_SESSION) as [->|n6].
  { destruct s; vm_compute; congruence. }
  destruct (String.eqb_spec trig StateTrigger.STOPPED) as [->|n7].
  { destruct s; vm_compute; congruence. }
  destruct (String.eqb_spec trig StateTrigger.ERROR) as [->|n8].
  { destruct s; vm_compute; congruence. }
  destruct (String.eqb_spec trig StateTrigger.EMERGENCY_STOP) as [->|n9].
  { destruct s; vm_compute; congruence. }
  reflexivity.
Qed.

(** C3: for a (state, trigger) pair that is not a row of the transition
    table, [transition] returns [True], the machine (hence
    [get_current_state()]) is unchanged and no observer is called. *)
Theorem transition_off_table_noop (m : TherapyStateMachine) (trig : string)
    (md : option (list (string * string))) :
  in_table (get_current_state m) trig = false ->
  transition m trig md = (true, m, []).
Proof.
  intros H. unfold transition.
  rewrite (determine_next_state_off_table m trig H).
  now rewrite TherapyState_eqb_refl.
Qed.

(** [CONNECTED] while [RUNNING] is off the table and changes nothing. *)
Lemma transition_off_table_noop_witness :
  in_table (get_current_state (__init__ RUNNING)) "CONNECTED" = false /\
  transition (__init__ RUNNING) "CONNECTED" None = (true, __init__ RUNNING, []).
Proof.
  split; [reflexivity | apply transition_off_table_noop; reflexivity].
Defined.

(** C10: [transition] returns [True] for every trigger in every state. *)
Theorem transition_always_true (m : TherapyStateMachine) (trig : string)
    (md : option (list (string * string))) :
  fst (fst (transition m trig md)) = true.
Proof.
  unfold transition.
  now destruct (TherapyState_eqb (_determine_next_state m trig) (_state m)).
Qed.

(** The life cycle of a session: four transitions, each notified to the
    registered observer, back to [IDLE]. *)
Example session_lifecycle :
  let observer := mkObserver 0 (fun _ => None) in
  let m := on_state_change (__init__ IDLE) observer in
  let '(results, m', outputs) :=
    run_triggers m [StateTrigger.CONNECTED; StateTrigger.START_SESSION;
                    StateTrigger.STOP_SESSION; StateTrigger.STOPPED] in
  results = [true; true; true; true] /\
  get_current_state m' = IDLE /\
  map (fun o => match o with
                | Notified _ t => Some (from_state t, to_state t)
                | Printed _ => None
                end) outputs
  = [Some (IDLE, READY); Some (READY, RUNNING);
     Some (RUNNING, STOPPING); Some (STOPPING, IDLE)].
Proof. repeat split. Qed.

(** An observer that raises is reported and the later observers are still
    called; the state change stands. *)
Example failing_observer_is_skipped :
  let bad := mkObserver 0 (fun _ => Some "boom") in
  let good := mkObserver 1 (fun _ => None) in
  let m := on_state_change (on_state_change (__init__ IDLE) bad) good in
  let '(ok, m', outputs) := transition m StateTrigger.CONNECTED None in
  ok = true /\ get_current_state m' = READY /\
  outputs = [Notified 0 (mkTransition IDLE READY "CONNECTED" []);
             Printed "[ERROR] State callback failed: boom";
             Notified 1 (mkTransition IDLE READY "CONNECTED" [])].
Proof. repeat split. Qed.

End StateMachineFacts.

(** ** The sync protocol *)

Section SyncFacts.
Import Text Sync.
Local Open Scope string_scope.

Lemma serialize_data_spec (d : dict) :
  _serialize_data d = spec_payload_text d.
Proof.
  destruct d as [|kv d]; [reflexivity|].
  unfold _serialize_data. revert kv.
  induction d as [|kv' d IH]; intros [k v].
  - reflexivity.
  - specialize (IH kv').
    change (data_parts ((k, v) :: kv' :: d))
      with (k :: str v :: data_parts (kv' :: d)).
    destruct kv' as [k' v'].
    change (data_parts ((k', v') :: d)) with (k' :: str v' :: data_parts d) in *.
    rewrite (join_cons2 "|" k), (join_cons2 "|" (str v)), IH. reflexivity.
Qed.

(** [serialize] writes the specified text and then one line feed. *)
Lemma serialize_wire (c : SyncCommand) :
  serialize c = spec_wire_text c ++ newline.
Proof.
  unfold serialize, spec_wire_text, Py.encode.
  destruct (data c) as [|kv d] eqn:E.
  - cbn [Py.join String.concat wire_tail]. now rewrite !append_assoc.
  - rewrite serialize_data_spec. unfold wire_tail.
    cbn [app Py.join String.concat]. now rewrite !append_assoc.
Qed.

(** *** The six command tokens *)

Lemma member_token (t : Enum.t) :
  In t SyncCommandType.members ->
  lacks ":" (Enum.value t) /\ Py.is_text (Enum.value t) = true /\
  (forall rest, Py.lstrip (Enum.value t ++ rest) = Enum.value t ++ rest).
Proof.
  unfold SyncCommandType.members. cbn [In].
  intros [<-|[<-|[<-|[<-|[<-|[<-|[]]]]]]]; repeat split.
Qed.

(** *** The payload *)

Lemma dict_set_fresh (d : dict) (k : string) (v : value) :
  ~ In k (keys d) -> dict_set d k v = (d ++ [(k, v)])%list.
Proof.
  induction d as [|[k' v'] d IH]; cbn; [reflexivity|].
  intros H. destruct (String.eqb_spec k' k) as [->|_].
  - exfalso. apply H. now left.
  - rewrite IH; [reflexivity|]. intros Hin. apply H. now right.
Qed.

Lemma keys_app (a b : dict) : keys (a ++ b)%list = (keys a ++ keys b)%list.
Proof. apply map_app. Qed.

(** The loop of [_deserialize_data] appends the coerced payload when the
    keys are fresh and distinct. *)
Lemma fill_data_parts (int : string -> option Z) (d acc : dict) :
  NoDup (keys acc ++ keys d) ->
  fill int (data_parts d) acc = (acc ++ coerced int d)%list.
Proof.
  revert acc. induction d as [|[k v] d IH]; intros acc Hnd.
  - cbn. now rewrite app_nil_r.
  - change (data_parts ((k, v) :: d)) with (k :: str v :: data_parts d).
    cbn [fill]. cbn [keys map fst] in Hnd.
    assert (Hk : ~ In k (keys acc)).
    { apply NoDup_remove_2 in Hnd. intros Hin. apply Hnd.
      apply in_or_app. now left. }
    rewrite dict_set_fresh by exact Hk.
    rewrite IH.
    + rewrite <- app_assoc. reflexivity.
    + rewrite keys_app. cbn [keys map fst].
      rewrite <- app_assoc. exact Hnd.
Qed.

Lemma data_parts_length (d : dict) :
  List.length (data_parts d) = 2 * List.length d.
Proof.
  induction d as [|kv d IH]; [reflexivity|].
  change (data_parts (kv :: d)) with (fst kv :: str (snd kv) :: data_parts d).
  cbn [List.length]. lia.
Qed.

Lemma data_parts_lack_bar (d : dict) :
  Forall (fun kv => lacks "|" (fst kv) /\ lacks "|" (str (snd kv))) d ->
  Forall (fun s => Py.contains_char "|" s = false) (data_parts d).
Proof.
  induction 1 as [|kv d [Hk Hv] _ IH]; [constructor|].
  change (data_parts (kv :: d)) with (fst kv :: str (snd kv) :: data_parts d).
  now repeat constructor.
Qed.

Lemma data_parts_text (d : dict) :
  Forall (fun kv => Py.is_text (fst kv) = true /\ Py.is_text (str (snd kv)) = true) d ->
  Forall (fun s => Py.is_text s = true) (data_parts d).
Proof.
  induction 1 as [|kv d [Hk Hv] _ IH]; [constructor|].
  change (data_parts (kv :: d)) with (fst kv :: str (snd kv) :: data_parts d).
  now repeat constructor.
Qed.

Lemma payload_join (d : dict) :
  d <> [] -> spec_payload_text d = Py.join "|" (data_parts d).
Proof.
  intros Hd. rewrite <- serialize_data_spec. now destruct d.
Qed.

Lemma payload_nonempty (d : dict) :
  d <> [] -> Py.nonempty (spec_payload_text d) = true.
Proof.
  destruct d as [|[k v] d]; [congruence|]. intros _.
  cbn [spec_payload_text].
  assert (H : forall x, Py.nonempty (k ++ String "|" x) = true)
    by (intros x; destruct k; reflexivity).
  destruct d; apply H.
Qed.

(** A separator in front keeps a tail that [rstrip] keeps. *)
Lemma keeps_tail_sep (a v : string) (c : ascii) :
  Py.starts_space c = false -> is_cont c = false ->
  keeps_tail v -> keeps_tail (a ++ String c v).
Proof.
  unfold keeps_tail. intros Hs Hc Hv.
  apply rstrip_app_head; [|exact Hc]. now rewrite rstrip_cons, Hv.
Qed.

Lemma payload_keeps_tail (d : dict) :
  d <> [] -> keeps_tail (last_text d) -> keeps_tail (spec_payload_text d).
Proof.
  induction d as [|[k v] d IH]; [congruence|]. intros _.
  destruct d as [|kv d].
  - unfold last_text. cbn. intros Hv. now apply keeps_tail_sep.
  - intros Hl.
    change (spec_payload_text ((k, v) :: kv :: d))
      with (k ++ "|" ++ str v ++ String "|" (spec_payload_text (kv :: d))).
    rewrite <- !append_assoc.
    apply keeps_tail_sep; [reflexivity | reflexivity|].
    apply IH; [discriminate | exact Hl].
Qed.

Lemma deserialize_data_payload (int : string -> option Z) (d : dict) :
  d <> [] ->
  NoDup (keys d) ->
  Forall (fun kv => lacks "|" (fst kv) /\ lacks "|" (str (snd kv))) d ->
  _deserialize_data int (spec_payload_text d) = Py.Ok (coerced int d).
Proof.
  intros Hd Hnd Hbar. unfold _deserialize_data.
  rewrite payload_nonempty by exact Hd. cbn [negb].
  rewrite payload_join by exact Hd.
  rewrite split_join.
  - rewrite data_parts_length.
    replace (Nat.modulo (2 * List.length d) 2) with 0%nat
      by (symmetry; rewrite Nat.mul_comm; apply Nat.Div0.mod_mul).
    cbn [Nat.eqb negb]. now rewrite fill_data_parts.
  - destruct d as [|[k v] d]; [congruence | discriminate].
  - now apply data_parts_lack_bar.
Qed.

(** *** Round trip *)

Lemma wire_text_unfold (c : SyncCommand) :
  spec_wire_text c =
  Enum.value (command_type c) ++ String ":" (Py.str_of_int (sequence_id c)
    ++ String ":" (Py.str_of_int (timestamp c) ++ wire_tail (data c))).
Proof. reflexivity. Qed.

Lemma wire_tail_text (d : dict) :
  Forall (fun kv => Py.is_text (fst kv) = true /\ Py.is_text (str (snd kv)) = true) d ->
  Py.is_text (wire_tail d) = true.
Proof.
  intros H. destruct d as [|kv d]; [reflexivity|].
  unfold wire_tail. apply is_text_app; [reflexivity|].
  rewrite payload_join by discriminate.
  apply is_text_join; [reflexivity | now apply data_parts_text].
Qed.

Lemma wire_is_text (c : SyncCommand) :
  In (command_type c) SyncCommandType.members ->
  Forall (fun kv => Py.is_text (fst kv) = true /\ Py.is_text (str (snd kv)) = true)
         (data c) ->
  Py.is_text (serialize c) = true.
Proof.
  intros Hm Hd. rewrite serialize_wire.
  apply is_text_app; [|reflexivity].
  unfold spec_wire_text.
  destruct (@member_token _ Hm) as (_ & Ht & _).
  repeat (apply is_text_app;
          try reflexivity; try apply str_of_int_is_text; try assumption).
  now apply wire_tail_text.
Qed.

Lemma wire_keeps_tail (c : SyncCommand) :
  keeps_tail (last_text (data c)) -> keeps_tail (spec_wire_text c).
Proof.
  intros Hl. unfold spec_wire_text.
  destruct (data c) as [|kv d] eqn:E.
  - cbn [wire_tail]. rewrite append_empty_r.
    change (":" ++ Py.str_of_int (timestamp c))
      with (String ":" (Py.str_of_int (timestamp c))).
    rewrite <- !append_assoc.
    apply keeps_tail_sep; [reflexivity | reflexivity | apply str_of_int_keeps_tail].
  - unfold wire_tail.
    change (":" ++ spec_payload_text (kv :: d))
      with (String ":" (spec_payload_text (kv :: d))).
    rewrite <- !append_assoc.
    apply keeps_tail_sep; [reflexivity | reflexivity|].
    apply payload_keeps_tail; [discriminate | exact Hl].
Qed.

Lemma strip_serialize (c : SyncCommand) :
  In (command_type c) SyncCommandType.members ->
  keeps_tail (last_text (data c)) ->
  Py.strip (serialize c) = spec_wire_text c.
Proof.
  intros Hm Hl. rewrite serialize_wire. unfold Py.strip.
  destruct (@member_token _ Hm) as (_ & _ & Hhead).
  rewrite wire_text_unfold, append_assoc, Hhead, <- append_assoc.
  rewrite <- wire_text_unfold, rstrip_newline.
  now apply wire_keeps_tail.
Qed.

Lemma split_wire (c : SyncCommand) :
  In (command_type c) SyncCommandType.members ->
  Py.split_max ":" (spec_wire_text c) 3 =
  ([Enum.value (command_type c); Py.str_of_int (sequence_id c);
    Py.str_of_int (timestamp c)]
   ++ match data c with [] => [] | _ => [spec_payload_text (data c)] end)%list.
Proof.
  intros Hm. destruct (@member_token _ Hm) as (Hc & _ & _).
  rewrite wire_text_unfold.
  rewrite split_max_app_sep by exact Hc.
  rewrite split_max_app_sep by (now apply str_of_int_no_char).
  destruct (data c) as [|kv d].
  - cbn [wire_tail]. rewrite append_empty_r.
    rewrite split_max_no_sep by (now apply str_of_int_no_char). reflexivity.
  - unfold wire_tail. cbn [append].
    rewrite split_max_app_sep by (now apply str_of_int_no_char).
    now rewrite split_max_zero.
Qed.

(** Decoding what [serialize] produced gives back the sequence id, the
    timestamp, the command token and the payload with each value passed
    through [coerce].  Colons inside keys or values do no harm
    ([split(':', 3)] leaves the fourth field whole). *)
Lemma deserialize_serialize (int : string -> option Z) (c : SyncCommand) :
  (forall z, int (Py.str_of_int z) = Some z) ->
  In (command_type c) SyncCommandType.members ->
  NoDup (keys (data c)) ->
  Forall (fun kv => Py.is_text (fst kv) = true /\ Py.is_text (str (snd kv)) = true)
         (data c) ->
  Forall (fun kv => lacks "|" (fst kv) /\ lacks "|" (str (snd kv))) (data c) ->
  keeps_tail (last_text (data c)) ->
  deserialize int (serialize c) =
  Py.Ok (mkCommand (sequence_id c) (timestamp c)
           (SyncCommandType.call (Enum.value (command_type c)))
           (coerced int (data c))).
Proof.
  intros Hint Hm Hnd Htext Hbar Hl.
  unfold deserialize, deserialize_body, Py.decode.
  rewrite (@wire_is_text c Hm Htext). cbn [Py.of_option Py.bind].
  rewrite (@strip_serialize c Hm Hl), (@split_wire c Hm).
  destruct (data c) as [|kv d] eqn:E.
  - cbn [app List.length Nat.ltb Nat.leb].
    rewrite !Hint. reflexivity.
  - cbn [app List.length Nat.ltb Nat.leb].
    rewrite !Hint. cbn [Py.of_option Py.bind].
    rewrite deserialize_data_payload by (discriminate || assumption).
    reflexivity.
Qed.





(** The same holds for white space of more than one byte, such as the
    no-break space U+00A0. *)
Example sync_roundtrip_no_break_space :
  let nbsp := String (ascii_of_nat 194) (String (ascii_of_nat 160) "") in
  let x := mkCommand 1 2 SyncCommandType.SYNC_ADJ [("k", VStr ("v" ++ nbsp))] in
  Py.is_text ("v" ++ nbsp) = true /\
  deserialize Py.int (serialize x) =
    Py.Ok (mkCommand 1 2 (SyncCommandType.call "SYNC_ADJ") [("k", VStr "v")]).
Proof. split; reflexivity. Qed.

(** *** Wire format *)

(** C6 (amended): [serialize] produces exactly
    [<TYPE>:<sequence_id>:<timestamp_us>[:<k1>|<v1>|<k2>|<v2>...]]
    followed by one line feed (byte 10), not by byte 4; the bytes for the
    example command, and what [send_execute_buzz] writes for it, are that
    text followed by one line feed and nothing else. *)
Theorem serialize_wire_format :
  (forall c, serialize c = Py.encode (spec_wire_text c ++ String (ascii_of_nat 10) "")) /\
  serialize example_buzz =
    "EXECUTE_BUZZ:42:1000000:finger|0|amplitude|50" ++ String (ascii_of_nat 10) "" /\
  wire (send_execute_buzz (mkConnection true [] []) 1%Q 42 0 50) =
    ["EXECUTE_BUZZ:42:1000000:finger|0|amplitude|50" ++ String (ascii_of_nat 10) ""].
Proof.
  split; [exact serialize_wire|]. split; reflexivity.
Qed.

(** C6 as stated fails: the bytes of the example command do not end in
    byte 4, neither as [serialize] returns them nor as
    [send_execute_buzz] writes them. *)
Lemma serialize_example_not_eot :
  serialize example_buzz <>
    "EXECUTE_BUZZ:42:1000000:finger|0|amplitude|50" ++ String BLE.EOT "" /\
  wire (send_execute_buzz (mkConnection true [] []) 1%Q 42 0 50) <>
    ["EXECUTE_BUZZ:42:1000000:finger|0|amplitude|50" ++ String BLE.EOT ""] /\
  Py.contains_char BLE.EOT (serialize example_buzz) = false.
Proof. repeat split; discriminate. Qed.

(** *** Format errors *)

Lemma cons_head_length (c : ascii) (l : list string) :
  l <> [] -> List.length (Py.cons_head c l) = List.length l.
Proof. destruct l; [congruence | reflexivity]. Qed.

Lemma split_max_nonempty (sep : ascii) (s : string) (n : nat) :
  Py.split_max sep s n <> [].
Proof.
  destruct s as [|c r]; cbn; [discriminate|].
  destruct n; [discriminate|].
  destruct (Ascii.eqb c sep); [discriminate|].
  destruct (Py.split_max sep r (S n)); discriminate.
Qed.

(** [split(sep, n)] yields as many fields as [split(sep)], up to [n + 1]. *)
Lemma split_max_length (sep : ascii) (s : string) (n : nat) :
  List.length (Py.split_max sep s n) =
  Nat.min (List.length (Py.split sep s)) (S n).
Proof.
  revert n. induction s as [|c r IH]; intros n.
  - reflexivity.
  - cbn [Py.split_max Py.split]. destruct n as [|n].
    + pose proof (@split_nonempty sep r) as Hne.
      destruct (Ascii.eqb c sep).
      * cbn [List.length Nat.min]. now rewrite Nat.min_0_r.
      * rewrite cons_head_length by exact Hne.
        destruct (Py.split sep r); [congruence|].
        cbn [List.length Nat.min]. now rewrite Nat.min_0_r.
    + destruct (Ascii.eqb c sep).
      * cbn [List.length]. now rewrite IH.
      * rewrite !cons_head_length
          by (apply split_nonempty || apply split_max_nonempty).
        apply IH.
Qed.

Lemma odd_mod2 (n : nat) : Nat.odd n = true -> Nat.modulo n 2 = 1%nat.
Proof.
  intros H. apply Nat.odd_spec in H as [m ->].
  rewrite Nat.add_comm, Nat.mul_comm. now rewrite Nat.Div0.mod_add.
Qed.

(** White space holds no separator. *)
Lemma white_lacks (c : ascii) (w : string) :
  Py.starts_space c = false -> is_cont c = false ->
  Py.white w = true -> lacks c w.
Proof.
  intros Hs Hc Hw. unfold lacks.
  assert (Hne : forall a, Py.starts_space a = true \/ is_cont a = true ->
                          Ascii.eqb a c = false).
  { intros a Ha. destruct (Ascii.eqb_spec a c) as [->|]; [|reflexivity].
    destruct Ha; congruence. }
  destruct w as [|a [|b [|d [|e w]]]]; try discriminate Hw; cbn [Py.white] in Hw;
    cbn [Py.contains_char].
  - rewrite Hne; [reflexivity|]. left. now apply space_starts.
  - pose proof (space2_cont _ _ Hw). apply space2_starts in Hw as [Hw _].
    rewrite !Hne; auto.
  - pose proof (space3_cont _ _ _ Hw) as [? ?]. apply space3_starts in Hw as [Hw _].
    rewrite !Hne; auto.
Qed.

Lemma whites_lacks (c : ascii) (w : string) :
  Py.starts_space c = false -> is_cont c = false -> whites w -> lacks c w.
Proof.
  intros Hs Hc. induction 1 as [|w r Hw _ IH]; [reflexivity|].
  unfold lacks in *. rewrite contains_char_app, IH.
  now rewrite (@white_lacks c w Hs Hc Hw).
Qed.

(** Text without the separator, put before or after, adds no field. *)
Lemma split_length_app_l (sep : ascii) (w t : string) :
  lacks sep w ->
  List.length (Py.split sep (w ++ t)) = List.length (Py.split sep t).
Proof.
  unfold lacks. induction w as [|c w IH]; [reflexivity|].
  cbn [Py.contains_char append Py.split]. intros H.
  apply orb_false_elim in H as [Hc Hw]. rewrite Hc.
  rewrite cons_head_length by apply split_nonempty. now apply IH.
Qed.

Lemma split_length_app_r (sep : ascii) (t w : string) :
  lacks sep w ->
  List.length (Py.split sep (t ++ w)) = List.length (Py.split sep t).
Proof.
  intros Hw. induction t as [|c t IH].
  - cbn [append]. now rewrite split_no_sep.
  - cbn [append Py.split]. destruct (Ascii.eqb c sep).
    + cbn [List.length]. now rewrite IH.
    + now rewrite !cons_head_length, IH by apply split_nonempty.
Qed.

(** [strip] changes no field count. *)
Lemma strip_fields (sep : ascii) (text : string) :
  Py.starts_space sep = false -> is_cont sep = false ->
  List.length (Py.split sep (Py.strip text)) = List.length (Py.split sep text).
Proof.
  intros Hs Hc. unfold Py.strip.
  destruct (lstrip_spec text) as (w1 & Hw1 & E1 & _).
  destruct (rstrip_spec (Py.lstrip text)) as (w2 & Hw2 & E2).
  rewrite E1 at 2. rewrite E2 at 2.
  rewrite split_length_app_l by (now apply whites_lacks).
  now rewrite split_length_app_r by (now apply whites_lacks).
Qed.

(** C8 (amended): [deserialize] raises [ValueError] whenever the decoded
    message has fewer than 3 colon-separated fields, and whenever the
    fourth field of the message as [deserialize] reads it (decoded, with
    the white space around it removed by [strip()]) is not empty and
    splits into an odd number of pipe-delimited tokens.  The result is
    then the exception alone: no command is built, and [deserialize], a
    function of its argument, touches no state. *)
Theorem deserialize_format_error (int : string -> option Z)
    (bytes text : string) :
  Py.decode bytes = Some text ->
  (List.length (Py.split ":" text) < 3)%nat \/
  (exists field, fourth_field (Py.strip text) = Some field /\
                 field <> "" /\
                 Nat.odd (List.length (Py.split "|" field)) = true) ->
  deserialize int bytes = Py.Raise Py.ValueError.
Proof.
  intros Hdec Hbad. unfold deserialize, deserialize_body.
  rewrite Hdec. cbn [Py.of_option Py.bind].
  destruct Hbad as [Hfew | (field & Hf & Hne & Hodd)].
  - assert (Hlt : Nat.ltb (List.length (Py.split_max ":" (Py.strip text) 3)) 3 = true).
    { apply Nat.ltb_lt. rewrite split_max_length, strip_fields by reflexivity. lia. }
    now rewrite Hlt.
  - unfold fourth_field in Hf.
    pose proof (split_max_length ":" (Py.strip text) 3) as Hlen.
    destruct (Py.split_max ":" (Py.strip text) 3)
      as [|p0 [|p1 [|p2 [|p3 [|p4 rest]]]]]; try discriminate Hf.
    + cbn [List.length Nat.ltb Nat.leb].
      cbn in Hf. injection Hf as ->.
      destruct (int p1); [|reflexivity].
      destruct (int p2); [|reflexivity].
      cbn [Py.of_option Py.bind]. unfold _deserialize_data.
      destruct field as [|c r]; [congruence|]. cbn [Py.nonempty negb].
      rewrite (odd_mod2 _ Hodd). reflexivity.
    + cbn [List.length] in Hlen. lia.
Qed.

(** Two malformed messages: two fields only, and three payload tokens. *)
Lemma deserialize_format_error_witness :
  deserialize Py.int "EXECUTE_BUZZ:1" = Py.Raise Py.ValueError /\
  deserialize Py.int "EXECUTE_BUZZ:1:2:finger|0|amplitude" = Py.Raise Py.ValueError.
Proof.
  split.
  - apply (@deserialize_format_error Py.int "EXECUTE_BUZZ:1" "EXECUTE_BUZZ:1");
      [reflexivity | left; cbn; lia].
  - apply (@deserialize_format_error Py.int
             "EXECUTE_BUZZ:1:2:finger|0|amplitude"
             "EXECUTE_BUZZ:1:2:finger|0|amplitude"); [reflexivity|].
    right. exists "finger|0|amplitude". repeat split. discriminate.
Defined.

(** C8 as stated fails.  A fourth field of one space, or of the unit
    separator U+001F, is one token, an odd number, in the decoded message,
    yet a command with an empty payload is returned: [strip()] has removed
    the field before it is looked at.  So is the empty fourth field, which
    splits into one (empty) token. *)
Lemma deserialize_empty_fourth_field :
  let spaced := "SYNC_ADJ:1:2: " in
  let separated := "SYNC_ADJ:1:2:" ++ String (ascii_of_nat 31) "" in
  let bare := "EXECUTE_BUZZ:1:2:" in
  (Py.decode spaced = Some spaced /\
   fourth_field spaced = Some " " /\
   Py.split "|" " " = [" "] /\
   deserialize Py.int spaced =
     Py.Ok (mkCommand 1 2 (SyncCommandType.call "SYNC_ADJ") [])) /\
  (Py.decode separated = Some separated /\
   fourth_field separated = Some (String (ascii_of_nat 31) "") /\
   deserialize Py.int separated =
     Py.Ok (mkCommand 1 2 (SyncCommandType.call "SYNC_ADJ") [])) /\
  (Py.decode bare = Some bare /\
   fourth_field (Py.strip bare) = Some "" /\
   Nat.odd (List.length (Py.split "|" "")) = true /\
   deserialize Py.int bare =
     Py.Ok (mkCommand 1 2 (SyncCommandType.call "EXECUTE_BUZZ") [])).
Proof. repeat split. Qed.

End SyncFacts.

(** ** Message framing *)

Section FramingFacts.
Import Text BLE.
Local Open Scope string_scope.

Lemma find_char_app (c : ascii) (a b : string) :
  lacks c a -> Py.find_char c (a ++ String c b) = Some (String.length a).
Proof.
  unfold lacks. induction a as [|x a IH]; cbn.
  - now rewrite Ascii.eqb_refl.
  - destruct (Ascii.eqb x c); cbn; [discriminate|].
    intros H. now rewrite IH.
Qed.

Lemma take_app (a b : string) : Py.take (String.length a) (a ++ b) = a.
Proof. induction a as [|x a IH]; cbn; [now destruct b | now rewrite IH]. Qed.

Lemma lookup_store (cs : connections) (conn_id : string) (c : BLEConnection) :
  lookup (store cs conn_id c) conn_id = Some c.
Proof.
  induction cs as [|[k c'] cs IH]; cbn.
  - now rewrite String.eqb_refl.
  - destruct (String.eqb k conn_id) eqn:E; cbn; now rewrite E.
Qed.

Lemma last_snoc {A} (l : list A) (x d : A) : List.last (l ++ [x]) d = x.
Proof.
  induction l as [|a l IH]; [reflexivity|].
  cbn [app]. destruct (l ++ [x])%list eqn:E; [now destruct l|].
  cbn [List.last]. exact IH.
Qed.

(** A successful [send] writes the message followed by one EOT. *)
Lemma send_writes_frame (cs : connections) (now : Q) (conn_id message : string) :
  fst (send cs now conn_id message) = true ->
  last_written (snd (send cs now conn_id message)) conn_id
  = Some (message ++ String EOT "").
Proof.
  unfold send, last_written.
  destruct (lookup cs conn_id) as [conn|]; [|discriminate].
  destruct (is_connected conn); cbn [negb]; [|discriminate].
  destruct (write_raises (uart conn)); [discriminate|]. intros _.
  cbn [snd]. rewrite lookup_store. cbn [update_last_seen uart tx].
  rewrite map_app. cbn [map]. now rewrite last_snoc.
Qed.

(** One read that hands over a whole frame ends the loop with the
    message. *)
Lemma receive_loop_frame (timeout : option Q) (start_time : Q) (p : Poll)
    (rest : list Poll) (message : string) :
  Py.is_text message = true ->
  lacks EOT message ->
  timed_out timeout start_time (poll_now p) = false ->
  (0 < in_waiting p)%Z ->
  read p = Some (message ++ String EOT "") ->
  receive_loop timeout start_time "" (p :: rest) = Message message (poll_stamp p).
Proof.
  intros Htext Hlack Hto Hw Hr. cbn [receive_loop].
  rewrite Hto. apply Z.ltb_lt in Hw. rewrite Hw, Hr.
  assert (Hne : Py.nonempty (message ++ String EOT "") = true)
    by (destruct message; reflexivity).
  rewrite Hne. unfold Py.decode.
  rewrite is_text_app by (exact Htext || reflexivity).
  cbn [append]. rewrite contains_char_app. cbn [Py.contains_char].
  rewrite Ascii.eqb_refl, orb_true_r.
  rewrite find_char_app by exact Hlack.
  now rewrite take_app.
Qed.

(** Split across reads, the frame is reassembled as long as every read
    holds whole characters. *)
Lemma receive_loop_buffers (timeout : option Q) (start_time : Q) (p : Poll)
    (rest : list Poll) (buffer chunk : string) :
  timed_out timeout start_time (poll_now p) = false ->
  (0 < in_waiting p)%Z ->
  read p = Some chunk ->
  chunk <> "" ->
  Py.is_text chunk = true ->
  lacks EOT (buffer ++ chunk) ->
  receive_loop timeout start_time buffer (p :: rest)
  = receive_loop timeout start_time (buffer ++ chunk) rest.
Proof.
  intros Hto Hw Hr Hne Htext Hlack. cbn [receive_loop].
  rewrite Hto. apply Z.ltb_lt in Hw. rewrite Hw, Hr.
  destruct chunk as [|c r]; [congruence|]. cbn [Py.nonempty].
  unfold Py.decode. rewrite Htext. now rewrite Hlack.
Qed.

(** An idle poll leaves the loop where it was. *)
Lemma receive_loop_idle (timeout : option Q) (start_time : Q) (p : Poll)
    (rest : list Poll) (buffer : string) :
  timed_out timeout start_time (poll_now p) = false ->
  idle p ->
  receive_loop timeout start_time buffer (p :: rest)
  = receive_loop timeout start_time buffer rest.
Proof.
  intros Hto Hidle. cbn [receive_loop]. rewrite Hto.
  destruct (Z.ltb_spec 0 (in_waiting p)) as [Hw|Hw]; [|reflexivity].
  destruct Hidle as [H | [-> | ->]]; [lia | reflexivity | reflexivity].
Qed.

(** Reads of whole characters without an EOT only fill the buffer. *)
Lemma receive_loop_delivers (timeout : option Q) (start_time : Q)
    (polls : list Poll) (chunks : list string) (rest : list Poll) :
  delivers timeout start_time polls chunks ->
  forall buffer,
    lacks EOT (buffer ++ bytes_of chunks) ->
    receive_loop timeout start_time buffer (polls ++ rest)%list
    = receive_loop timeout start_time (buffer ++ bytes_of chunks) rest.
Proof.
  induction 1 as [|p polls chunks Hto Hidle _ IH
                  |p polls chunk chunks Hto Hw Hr Hne Htext _ IH];
    intros buffer Hlack.
  - cbn [bytes_of app]. now rewrite append_empty_r.
  - cbn [app]. rewrite receive_loop_idle by assumption. now apply IH.
  - cbn [bytes_of] in *. rewrite <- append_assoc in Hlack |- *.
    cbn [app].
    rewrite (@receive_loop_buffers timeout start_time p _ buffer chunk);
      try assumption.
    + now apply IH.
    + unfold lacks in *. rewrite contains_char_app in Hlack.
      now apply orb_false_elim in Hlack as [Hlack _].
Qed.

(** The read that brings the EOT ends the loop with all that came before
    it. *)
Lemma receive_loop_final (timeout : option Q) (start_time : Q) (p : Poll)
    (rest : list Poll) (buffer last : string) :
  timed_out timeout start_time (poll_now p) = false ->
  (0 < in_waiting p)%Z ->
  read p = Some (last ++ String EOT "") ->
  Py.is_text (last ++ String EOT "") = true ->
  lacks EOT (buffer ++ last) ->
  receive_loop timeout start_time buffer (p :: rest)
  = Message (buffer ++ last) (poll_stamp p).
Proof.
  intros Hto Hw Hr Htext Hlack. cbn [receive_loop].
  rewrite Hto. apply Z.ltb_lt in Hw. rewrite Hw, Hr.
  assert (Hne : Py.nonempty (last ++ String EOT "") = true)
    by (destruct last; reflexivity).
  rewrite Hne. unfold Py.decode. rewrite Htext.
  rewrite <- append_assoc.
  rewrite contains_char_app. cbn [Py.contains_char].
  rewrite Ascii.eqb_refl, orb_true_r.
  rewrite find_char_app by exact Hlack.
  now rewrite take_app.
Qed.

Lemma append_snoc_inv (a b m : string) (c : ascii) :
  a ++ b = m ++ String c "" -> b <> "" ->
  exists b', b = b' ++ String c "" /\ m = a ++ b'.
Proof.
  revert m. induction a as [|x a IH]; intros m E Hb.
  - exists m. now split.
  - destruct m as [|y m].
    + cbn in E. injection E as _ E. destruct a; [cbn in E; congruence | discriminate E].
    + cbn in E. injection E as -> E.
      destruct (IH m E Hb) as (b' & -> & ->). now exists b'.
Qed.

(** C9 (amended): a message without EOT that [send] has written comes back
    from [receive] exactly, without the EOT, whenever its bytes arrive on
    a live connection in reads that each hold whole characters, over polls
    none of which is past the time-out; idle polls in between do no harm.
    The reads [chunks] come first, the read [final] of poll [p] brings the
    rest with the EOT. *)
Theorem framing_roundtrip (sender receiver : connections) (now : Q)
    (tx_id rx_id message : string) (conn : BLEConnection)
    (timeout : option Q) (start_time : Q)
    (early : list Poll) (p : Poll) (rest : list Poll)
    (chunks : list string) (final : string) :
  lacks EOT message ->
  fst (send sender now tx_id message) = true ->
  lookup receiver rx_id = Some conn ->
  is_connected conn = true ->
  delivers timeout start_time early chunks ->
  timed_out timeout start_time (poll_now p) = false ->
  (0 < in_waiting p)%Z ->
  read p = Some final ->
  final <> "" ->
  Py.is_text final = true ->
  last_written (snd (send sender now tx_id message)) tx_id
    = Some (bytes_of (chunks ++ [final])) ->
  fst (receive receiver rx_id timeout start_time (early ++ p :: rest))
  = Message message (poll_stamp p).
Proof.
  intros Hlack Hsent Hlook Hconn Hd Hto Hw Hp Hne Htext Hbytes.
  rewrite (@send_writes_frame _ _ _ _ Hsent) in Hbytes.
  injection Hbytes as Hbytes.
  assert (Hb : bytes_of (chunks ++ [final]) = bytes_of chunks ++ final).
  { clear. induction chunks as [|c cs IH]; cbn [bytes_of app append].
    - apply append_empty_r.
    - now rewrite IH, append_assoc. }
  rewrite Hb in Hbytes. symmetry in Hbytes. unfold frame, Py.encode in Hbytes.
  destruct (@append_snoc_inv _ _ _ _ Hbytes Hne) as (last & Hfinal & Hmsg).
  unfold receive. rewrite Hlook, Hconn. cbn [negb].
  rewrite (@receive_loop_delivers timeout start_time early chunks _ Hd "").
  - cbn [append].
    rewrite (@receive_loop_final timeout start_time p rest (bytes_of chunks) last);
      try assumption.
    + cbn [fst]. now rewrite <- Hmsg.
    + now rewrite Hp, Hfinal.
    + now rewrite <- Hfinal.
    + now rewrite <- Hmsg.
  - cbn [append]. unfold lacks in *. rewrite Hmsg, contains_char_app in Hlack.
    now apply orb_false_elim in Hlack as [Hlack _].
Qed.

(** ["PING"] sent, then read in two pieces with an idle poll in between,
    within the time-out. *)
Lemma framing_roundtrip_witness :
  fst (receive demo_link "secondary" (Some (1 # 100)%Q) 5%Q
         ([mkPoll 5%Q 2 (Some "PI") 5%Q; mkPoll (501 # 100)%Q 0 None (501 # 100)%Q]
           ++ mkPoll (501 # 100)%Q 3 (Some ("NG" ++ String EOT "")) (501 # 100)%Q
           :: []))
  = Message "PING" (501 # 100)%Q.
Proof.
  apply (@framing_roundtrip demo_link demo_link 1%Q "secondary" "secondary"
           "PING" (mkBLEConnection "secondary" (Some true) (mkUART [] false) 0 0)
           (Some (1 # 100)%Q) 5%Q
           [mkPoll 5%Q 2 (Some "PI") 5%Q; mkPoll (501 # 100)%Q 0 None (501 # 100)%Q]
           (mkPoll (501 # 100)%Q 3 (Some ("NG" ++ String EOT "")) (501 # 100)%Q) []
           ["PI"] ("NG" ++ String EOT ""));
    try reflexivity; try discriminate.
  apply delivers_read; try reflexivity; [discriminate|].
  apply delivers_idle; [reflexivity | right; left; reflexivity|].
  constructor.
Defined.

(** C9 as stated fails: the receiver is fed exactly the bytes [send] wrote
    and returns [None].  Once because a read ends inside a character (the
    two bytes of an e with acute accent, with no time-out at all), once
    because the second read comes after the time-out of 0.01 s. *)
Lemma framing_split_reads :
  let e_acute := String (ascii_of_nat 195) (String (ascii_of_nat 169) "") in
  let first := String (ascii_of_nat 195) "" in
  let second := String (ascii_of_nat 169) (String EOT "") in
  (Py.is_text e_acute = true /\ lacks EOT e_acute /\
   last_written (snd (send demo_link 1%Q "secondary" e_acute)) "secondary"
     = Some (bytes_of [first; second]) /\
   fst (receive demo_link "secondary" None 0%Q (deliver 1%Q [first; second]))
     = NoMessage) /\
  (last_written (snd (send demo_link 1%Q "secondary" "PING")) "secondary"
     = Some (bytes_of ["PI"; "NG" ++ String EOT ""]) /\
   fst (receive demo_link "secondary" (Some (1 # 100)%Q) 5%Q
          [mkPoll 5%Q 2 (Some "PI") 5%Q;
           mkPoll (502 # 100)%Q 3 (Some ("NG" ++ String EOT "")) (502 # 100)%Q])
     = NoMessage).
Proof. cbn zeta. repeat split. Qed.

(** A read that cuts a character in two makes [receive] give up. *)
Example receive_split_character :
  let e_acute := String (ascii_of_nat 195) (String (ascii_of_nat 169) "") in
  Py.is_text e_acute = true /\
  fst (receive demo_link "secondary" None 0%Q
         (deliver 1%Q [String (ascii_of_nat 195) "";
                       String (ascii_of_nat 169) (String EOT "")]))
  = NoMessage.
Proof. split; reflexivity. Qed.

(** X19: A frame that arrives in several reads, each holding whole characters,
    is put together again. *)
Lemma receive_loop_chunked (start_time now : Q) (chunks : list string)
    (buffer last : string) (rest : list Poll) :
  Forall (fun c => c <> "" /\ Py.is_text c = true /\ lacks EOT c) chunks ->
  lacks EOT buffer ->
  Py.is_text last = true ->
  lacks EOT last ->
  receive_loop None start_time buffer
    (deliver now (chunks ++ [(last ++ String EOT "")%string]) ++ rest)%list
  = Message (buffer ++ String.concat "" chunks ++ last) now.
Proof.
  intros Hchunks. revert buffer.
  induction Hchunks as [|c chunks (Hne & Htext & Hlack) _ IH];
    intros buffer Hbuf Hlast Hlack_last.
  - cbn [app deliver map String.concat receive_loop timed_out
         in_waiting poll_now read poll_stamp append].
    assert (Hw : (0 <? Z.of_nat (String.length (last ++ String EOT "")))%Z = true).
    { apply Z.ltb_lt. destruct last; cbn; lia. }
    rewrite Hw.
    assert (Hn : Py.nonempty (last ++ String EOT "") = true)
      by (destruct last; reflexivity).
    rewrite Hn. unfold Py.decode.
    rewrite is_text_app by (exact Hlast || reflexivity).
    rewrite !contains_char_app. cbn [Py.contains_char].
    rewrite Ascii.eqb_refl, !orb_true_r.
    rewrite <- append_assoc, find_char_app.
    + now rewrite take_app.
    + unfold lacks. rewrite contains_char_app.
      unfold lacks in Hbuf, Hlack_last. now rewrite Hbuf, Hlack_last.
  - cbn [app deliver map].
    rewrite (@receive_loop_buffers None start_time _ _ buffer c);
      try reflexivity; try assumption.
    + fold (deliver now (chunks ++ [(last ++ String EOT "")%string])%list).
      rewrite IH; try assumption.
      * f_equal. destruct chunks as [|c' chunks'].
        -- cbn [String.concat]. now rewrite append_assoc.
        -- cbn [String.concat append]. now rewrite !append_assoc.
      * unfold lacks in *. rewrite contains_char_app. now rewrite Hbuf, Hlack.
    + cbn [in_waiting]. destruct c; [congruence | cbn; lia].
    + unfold lacks in *. rewrite contains_char_app. now rewrite Hbuf, Hlack.
Qed.

(** With a time-out and a channel that never delivers an EOT, [receive]
    returns [None] once the time-out has passed, and keeps polling until
    then. *)
Example receive_times_out :
  let quiet t := mkPoll t 0 None t in
  fst (receive demo_link "secondary" (Some (5 # 100)%Q) 0%Q
         [quiet (1 # 100)%Q; quiet (3 # 100)%Q; quiet (6 # 100)%Q]) = NoMessage /\
  fst (receive demo_link "secondary" (Some (5 # 100)%Q) 0%Q
         [quiet (1 # 100)%Q; quiet (3 # 100)%Q]) = Polling "".
Proof. split; reflexivity. Qed.

End FramingFacts.

(** ** The pattern generators *)

Section PatternFacts.
Import Therapy.
Context {G : Type} {R : PyRandom G} {L : @LawfulRandom G R}.

Lemma setitem_ok (x : list nat) (i v : nat) :
  (i < List.length x)%nat ->
  exists x', setitem x i v = Some x' /\ List.length x' = List.length x /\
             forall P : nat -> Prop, P v -> Forall P x -> Forall P x'.
Proof.
  revert i. induction x as [|h t IH]; intros i Hi; [cbn in Hi; lia|].
  destruct i as [|i].
  - exists (v :: t). repeat split. intros P Hv Hx.
    inversion Hx; subst. now constructor.
  - destruct (IH i) as (t' & E & Hlen & HP); [cbn in Hi; lia|].
    exists (h :: t'). cbn. rewrite E. repeat split.
    + cbn. now rewrite Hlen.
    + intros P Hv Hx. inversion Hx; subst. constructor; auto.
Qed.

Lemma swap_ok (x : list nat) (i j : nat) :
  (i < List.length x)%nat -> (j < List.length x)%nat ->
  exists x', swap x i j = Some x' /\ List.length x' = List.length x /\
             forall P : nat -> Prop, Forall P x -> Forall P x'.
Proof.
  intros Hi Hj. unfold swap.
  destruct (nth_error x j) as [xj|] eqn:Ej;
    [|apply nth_error_None in Ej; lia].
  destruct (nth_error x i) as [xi|] eqn:Ei;
    [|apply nth_error_None in Ei; lia].
  destruct (setitem_ok x xj Hi) as (x1 & E1 & Hl1 & HP1).
  rewrite E1.
  destruct (@setitem_ok x1 j xi) as (x2 & E2 & Hl2 & HP2); [lia|].
  exists x2. rewrite E2. repeat split; [lia|].
  intros P Hx. apply HP2.
  - apply nth_error_In in Ei. rewrite Forall_forall in Hx. auto.
  - apply HP1; [|exact Hx].
    apply nth_error_In in Ej. rewrite Forall_forall in Hx. auto.
Qed.

Lemma shuffle_down_ok (i : nat) (x : list nat) (g : G) :
  (i < List.length x)%nat \/ i = 0%nat ->
  exists x' g', shuffle_down i x g = Py.Ok (x', g') /\
                List.length x' = List.length x /\
                forall P : nat -> Prop, Forall P x -> Forall P x'.
Proof.
  revert x g. induction i as [|i IH]; intros x g Hi.
  - exists x, g. repeat split; auto.
  - destruct Hi as [Hi|Hi]; [|discriminate].
    cbn [shuffle_down].
    pose proof (randbelow_lt g (n := S i + 1)) as Hj.
    destruct (randbelow g (S i + 1)) as [j g1]. cbn [fst] in Hj.
    destruct (@swap_ok x (S i) j) as (x1 & E & Hl & HP); [lia|lia|].
    rewrite E.
    destruct (IH x1 g1) as (x' & g' & E' & Hl' & HP'); [lia|].
    exists x', g'. repeat split; [exact E'|lia|auto].
Qed.

Lemma shuffle_ok (x : list nat) (g : G) :
  exists x' g', shuffle x g = Py.Ok (x', g') /\
                List.length x' = List.length x /\
                forall P : nat -> Prop, Forall P x -> Forall P x'.
Proof.
  apply shuffle_down_ok. destruct x; cbn; [now right | left; lia].
Qed.

Lemma range_length (n : nat) : List.length (range n) = n.
Proof. apply length_seq. Qed.

Lemma range_below (n : nat) : Forall (fun i => (i < n)%nat) (range n).
Proof. apply Forall_forall. intros i Hi. apply in_seq in Hi. lia. Qed.

Lemma timing_loop_length (n : nat) (g : G) (jp ja ibi : Q) :
  List.length (fst (timing_loop n g jp ja ibi)) = n.
Proof.
  revert g. induction n as [|n IH]; intros g; [reflexivity|].
  cbn [timing_loop].
  destruct (Py.Qltb 0 jp).
  - destruct (uniform g (- ja) ja) as [jitter g1].
    specialize (IH g1). destruct (timing_loop n g1 jp ja ibi). cbn in *. lia.
  - specialize (IH g). destruct (timing_loop n g jp ja ibi). cbn in *. lia.
Qed.

Lemma timing_loop_plain (n : nat) (g : G) (jp ja ibi : Q) :
  (jp <= 0)%Q -> fst (timing_loop n g jp ja ibi) = repeat ibi n.
Proof.
  intros Hjp.
  assert (E : Py.Qltb 0 jp = false).
  { unfold Py.Qltb. destruct (Qlt_le_dec 0 jp) as [H|H]; [|reflexivity].
    exfalso. apply (Qlt_irrefl 0). eapply Qlt_le_trans; eauto. }
  induction n as [|n IH]; [reflexivity|].
  cbn [timing_loop]. rewrite E.
  destruct (timing_loop n g jp ja ibi). cbn in *. now rewrite IH.
Qed.

Lemma timing_loop_jitter (n : nat) (g : G) (jp ja ibi : Q) :
  (0 < jp)%Q ->
  fst (timing_loop n g jp ja ibi) = map (jittered ibi ja) (draws n g).
Proof.
  intros Hjp.
  assert (E : Py.Qltb 0 jp = true).
  { unfold Py.Qltb. destruct (Qlt_le_dec 0 jp) as [H|H]; [reflexivity|].
    exfalso. apply (Qlt_irrefl 0). eapply Qlt_le_trans; eauto. }
  revert g. induction n as [|n IH]; intros g; [reflexivity|].
  cbn [timing_loop draws]. rewrite E. unfold uniform.
  destruct (random g) as [r g1]. specialize (IH g1).
  destruct (timing_loop n g1 jp ja ibi). cbn in *. now rewrite IH.
Qed.

Lemma Pattern_init_ok (l r : list nat) (t : list Q) (b i : Q) :
  List.length l = List.length r -> List.length t = List.length l ->
  Pattern__init__ l r t b i = Py.Ok (mkPattern l r t b i).
Proof.
  intros H1 H2. unfold Pattern__init__.
  now rewrite H2, H1, !Nat.eqb_refl.
Qed.

Ltac finish_pattern :=
  match goal with
  | |- context [timing_loop ?n ?g ?jp ?ja ?ibi] =>
      let E := fresh "E" in
      pose proof (timing_loop_length n g jp ja ibi) as E;
      destruct (timing_loop n g jp ja ibi); cbn [fst] in *;
      cbv zeta; apply Pattern_init_ok; rewrite ?range_length;
      first [reflexivity | lia]
  end.

Lemma generate_random_permutation_yields (n : nat) (on off jp : Q)
    (mirror : bool) (seed : option Z) (entropy : G) :
  yields n on off jp
    (state_after (if mirror then 1 else 2) n (Random seed entropy))
    (generate_random_permutation n on off jp mirror seed entropy).
Proof.
  unfold yields, generate_random_permutation.
  set (rng := Random seed entropy).
  destruct (shuffle_ok (range n) rng) as (l & g1 & E1 & Hl & HP).
  pose proof (HP _ (range_below n)) as Hbl. rewrite range_length in Hl.
  destruct mirror.
  - exists l, l, g1. cbn [state_after]. rewrite E1. cbn [Py.bind].
    repeat split; auto. finish_pattern.
  - destruct (shuffle_ok (range n) g1) as (r & g2 & E2 & Hr & HP2).
    pose proof (HP2 _ (range_below n)) as Hbr. rewrite range_length in Hr.
    exists l, r, g2. cbn [state_after]. rewrite E1. cbn [Py.bind]. rewrite E2.
    cbn [Py.bind]. repeat split; auto. finish_pattern.
Qed.

Lemma rev_below (n : nat) (l : list nat) :
  Forall (fun i => (i < n)%nat) l -> Forall (fun i => (i < n)%nat) (rev l).
Proof.
  rewrite !Forall_forall. intros H i Hi. apply H. now apply in_rev.
Qed.

Lemma generate_sequential_pattern_yields (n : nat) (on off jp : Q)
    (mirror reverse : bool) (entropy : G) :
  yields n on off jp (Some entropy)
    (generate_sequential_pattern n on off jp mirror reverse entropy).
Proof.
  unfold yields, generate_sequential_pattern. cbn [Random].
  exists (if reverse then rev (range n) else range n),
         (if reverse then rev (range n) else range n), entropy.
  assert (Hlen : List.length (if reverse then rev (range n) else range n) = n)
    by (destruct reverse; rewrite ?length_rev; apply range_length).
  assert (Hb : Forall (fun i => (i < n)%nat)
                 (if reverse then rev (range n) else range n))
    by (destruct reverse; [apply rev_below|]; apply range_below).
  repeat split; auto. finish_pattern.
Qed.

Lemma generate_mirrored_pattern_yields (n : nat) (on off jp : Q)
    (randomize : bool) (seed : option Z) (entropy : G) :
  yields n on off jp
    (state_after (if randomize then 1 else 0) n (Random seed entropy))
    (generate_mirrored_pattern n on off jp randomize seed entropy).
Proof.
  unfold yields, generate_mirrored_pattern.
  set (rng := Random seed entropy).
  destruct randomize.
  - destruct (shuffle_ok (range n) rng) as (l & g1 & E1 & Hl & HP).
    pose proof (HP _ (range_below n)) as Hbl. rewrite range_length in Hl.
    exists l, l, g1. cbn [state_after]. rewrite E1. cbn [Py.bind].
    repeat split; auto. finish_pattern.
  - exists (range n), (range n), rng. cbn [state_after Py.bind].
    repeat split; auto using range_length, range_below. finish_pattern.
Qed.

Lemma yields_well_formed (n : nat) (on off jp : Q) (g : option G)
    (res : Py.result Pattern) :
  yields n on off jp g res ->
  exists p, res = Py.Ok p /\ well_formed n p.
Proof.
  intros (l & r & g' & _ & -> & Hl & Hr & Hbl & Hbr).
  eexists; split; [reflexivity|].
  unfold well_formed. cbn. rewrite timing_loop_length. repeat split; auto; lia.
Qed.

Lemma yields_timing (n : nat) (on off jp : Q) (g : option G)
    (res : Py.result Pattern) :
  yields n on off jp g res ->
  exists p, res = Py.Ok p /\ timing_as_generated n on off jp g p.
Proof.
  intros (l & r & g' & -> & -> & _).
  eexists; split; [reflexivity|].
  unfold timing_as_generated. cbn [timing_ms]. split.
  - intros Hjp. now apply timing_loop_plain.
  - intros Hjp. exists g'. split; [reflexivity|]. now apply timing_loop_jitter.
Qed.

(** C1: each of the three generators returns a pattern whose three
    sequences have equal length and whose indices lie in
    [[0, num_fingers)], for every [num_fingers] (1 or more included) and
    every choice of the other parameters. *)
Theorem generated_patterns_well_formed (num_fingers : nat)
    (time_on_ms time_off_ms jitter_percent : Q)
    (mirror_pattern reverse randomize : bool)
    (random_seed : option Z) (entropy : G) :
  (1 <= num_fingers)%nat ->
  (exists p, generate_random_permutation num_fingers time_on_ms time_off_ms
               jitter_percent mirror_pattern random_seed entropy = Py.Ok p /\
             well_formed num_fingers p) /\
  (exists p, generate_sequential_pattern num_fingers time_on_ms time_off_ms
               jitter_percent mirror_pattern reverse entropy = Py.Ok p /\
             well_formed num_fingers p) /\
  (exists p, generate_mirrored_pattern num_fingers time_on_ms time_off_ms
               jitter_percent randomize random_seed entropy = Py.Ok p /\
             well_formed num_fingers p).
Proof.
  intros _. repeat split.
  - eapply yields_well_formed, generate_random_permutation_yields.
  - eapply yields_well_formed, generate_sequential_pattern_yields.
  - eapply yields_well_formed, generate_mirrored_pattern_yields.
Qed.

(** The jitter bound of the generators, [cycle * (jitter / 100) / 2], is
    [(time_on_ms + time_off_ms) * jitter_percent / 200]: a quarter of
    [base_interval * jitter_percent / 200]. *)
Lemma jitter_amount_value (on off jp : Q) :
  ((on + off) * (jp / 100) / 2 == (on + off) * jp / 200)%Q /\
  ((on + off) * (jp / 100) / 2 == (4 * (on + off)) * jp / 200 / 4)%Q.
Proof. split; field. Qed.

(** C2 (amended): every timing value of a generated pattern is the base
    interval [4 * (time_on_ms + time_off_ms)] when [jitter_percent] is 0
    (or below); when [jitter_percent > 0] the interval of each step is
    [max(0, base + u)] for its own uniform draw [u] on [[-J, +J]], where
    [J = (time_on_ms + time_off_ms) * jitter_percent / 200]. *)
Theorem generated_patterns_timing (num_fingers : nat)
    (time_on_ms time_off_ms jitter_percent : Q)
    (mirror_pattern reverse randomize : bool)
    (random_seed : option Z) (entropy : G) :
  (exists p, generate_random_permutation num_fingers time_on_ms time_off_ms
               jitter_percent mirror_pattern random_seed entropy = Py.Ok p /\
             timing_as_generated num_fingers time_on_ms time_off_ms jitter_percent
               (state_after (if mirror_pattern then 1 else 2) num_fingers
                  (Random random_seed entropy)) p) /\
  (exists p, generate_sequential_pattern num_fingers time_on_ms time_off_ms
               jitter_percent mirror_pattern reverse entropy = Py.Ok p /\
             timing_as_generated num_fingers time_on_ms time_off_ms jitter_percent
               (Some entropy) p) /\
  (exists p, generate_mirrored_pattern num_fingers time_on_ms time_off_ms
               jitter_percent randomize random_seed entropy = Py.Ok p /\
             timing_as_generated num_fingers time_on_ms time_off_ms jitter_percent
               (state_after (if randomize then 1 else 0) num_fingers
                  (Random random_seed entropy)) p) /\
  ((time_on_ms + time_off_ms) * (jitter_percent / 100) / 2
   == (time_on_ms + time_off_ms) * jitter_percent / 200)%Q.
Proof.
  repeat split.
  - eapply yields_timing, generate_random_permutation_yields.
  - eapply yields_timing, generate_sequential_pattern_yields.
  - eapply yields_timing, generate_mirrored_pattern_yields.
  - apply jitter_amount_value.
Qed.

End PatternFacts.

(** The linear congruential generator keeps the promise of [randbelow]. *)
Lemma lcg_lawful : @LawfulRandom Z Lcg.lcg.
Proof.
  constructor. intros g n Hn. cbn.
  pose proof (Z.mod_pos_bound (Lcg.next g) (Z.of_nat n)). lia.
Qed.

(** Five fingers, mirrored, seeded, on the linear congruential generator. *)
Lemma generated_patterns_well_formed_witness :
  exists p,
    Therapy.generate_random_permutation (R := Lcg.lcg) 5 100 67 (47 # 2) true
      (Some 1%Z) 0%Z = Py.Ok p /\
    Therapy.well_formed 5 p.
Proof.
  apply (proj1 (@generated_patterns_well_formed Z Lcg.lcg lcg_lawful
                  5 100 67 (47 # 2) true false true (Some 1%Z) 0%Z
                  ltac:(lia))).
Defined.

(** The same run without jitter. *)
Lemma generated_patterns_timing_witness :
  exists p,
    Therapy.generate_random_permutation (R := Lcg.lcg) 5 100 67 0 true
      (Some 1%Z) 0%Z = Py.Ok p /\
    Therapy.timing_as_generated (R := Lcg.lcg) 5 100 67 0
      (Therapy.state_after (R := Lcg.lcg) 1 5 (Therapy.Random (R := Lcg.lcg) (Some 1%Z) 0%Z)) p.
Proof.
  apply (proj1 (@generated_patterns_timing Z Lcg.lcg lcg_lawful
                  5 100 67 0 true false true (Some 1%Z) 0%Z)).
Defined.

(** Five fingers without jitter: every interval is [4 * (100 + 67)]. *)
Example five_fingers_no_jitter :
  exists p,
    Therapy.generate_random_permutation (R := Lcg.lcg) 5 100 67 0 true
      (Some 1%Z) 0%Z = Py.Ok p /\
    Therapy.timing_ms p = [668; 668; 668; 668; 668]%Q /\
    Therapy.left_sequence p = Therapy.right_sequence p.
Proof. eexists. split; [vm_compute; reflexivity|]. split; reflexivity. Qed.

(** C2 as stated fails: with [J = base_interval * jitter_percent / 200] the
    first interval of a run with [jitter_percent = 100] is not
    [max(0, base + u)] for the draw the generator made. *)
Lemma jitter_bound_not_base_interval :
  exists p g,
    Therapy.generate_random_permutation (R := Lcg.lcg) 5 100 67 100 true
      (Some 1%Z) 0%Z = Py.Ok p /\
    Therapy.state_after (R := Lcg.lcg) 1 5 (Therapy.Random (R := Lcg.lcg) (Some 1%Z) 0%Z)
      = Some g /\
    ~ Therapy.timing_as_specified (R := Lcg.lcg) 5 100 67 100 (Some g) p.
Proof.
  eexists. eexists. split; [vm_compute; reflexivity|].
  split; [vm_compute; reflexivity|].
  intros [_ H]. destruct H as (g' & Hg & HF); [reflexivity|].
  injection Hg as <-.
  vm_compute in HF. inversion HF as [|a b la lb Hab _]; subst.
  vm_compute in Hab. discriminate Hab.
Qed.

(** ** The therapy engine *)

Section EngineFacts.
Import Therapy Engine.
Context {G : Type} {R : PyRandom G}.

Lemma pattern_truthy_some (o : option Pattern) (p : Pattern) :
  pattern_truthy o = Some p -> o = Some p /\ len p <> 0%nat.
Proof.
  destruct o as [q|]; cbn; [|discriminate].
  destruct (Nat.eqb_spec (len q) 0); [discriminate|].
  intros [= ->]. now split.
Qed.

Lemma invoke_cases (calls : list Event) (fault : option nat) :
  invoke calls fault = (calls, false) \/
  exists k, (k < List.length calls)%nat /\
            invoke calls fault = (firstn (S k) calls, true).
Proof.
  destruct fault as [k|]; [|now left]. unfold invoke.
  destruct (Nat.ltb_spec k (List.length calls)); [right; now exists k | now left].
Qed.

Lemma deactivations_firstn (n : nat) (calls : list Event) :
  deactivations calls = [] -> deactivations (firstn n calls) = [].
Proof.
  revert n. induction calls as [|ev calls IH]; intros [|n] H; try reflexivity.
  unfold deactivations in *. cbn [firstn flat_map] in *.
  apply app_eq_nil in H as [-> H]. now rewrite (IH n H).
Qed.

Lemma invoke_deactivations (calls : list Event) (fault : option nat) :
  deactivations calls = [] -> deactivations (fst (invoke calls fault)) = [].
Proof.
  intros H. destruct (invoke_cases calls fault) as [-> | (k & _ & ->)];
    [exact H | now apply deactivations_firstn].
Qed.

(** A call that fires no haptic callback and either clears the activation
    timer or leaves timer, pattern and cursor alone. *)
Lemma quiet_stays_matched (e e' : TherapyEngine) (open : list nat)
    (events : list Event) :
  deactivations events = [] ->
  _activation_start_time e' = None \/
  (_activation_start_time e' = _activation_start_time e /\
   _current_pattern e' = _current_pattern e /\
   _pattern_index e' = _pattern_index e) ->
  in_flight e open -> stays_matched e open e' events.
Proof.
  intros Hd Hcase Hinv. exists open. rewrite Hd. cbn [close_all].
  unfold burst_began. cbn [before after].
  destruct Hcase as [Hnone | (Ha & Hp & Hi)].
  - rewrite Hnone. cbn [is_some]. rewrite andb_false_r.
    split; [reflexivity|]. unfold in_flight. now rewrite Hnone.
  - rewrite Ha. rewrite andb_negb_l. split; [reflexivity|].
    unfold in_flight in *. now rewrite Ha, Hp, Hi.
Qed.

Lemma generate_next_clears (e e' : TherapyEngine) (g : G) :
  _generate_next_pattern e g = Py.Ok e' -> _activation_start_time e' = None.
Proof.
  unfold _generate_next_pattern.
  match goal with |- Py.bind ?x _ = _ -> _ => destruct x end; cbn; [|discriminate].
  now intros [= <-].
Qed.

Lemma start_session_stays_matched (e : TherapyEngine) (open : list nat)
    (d : Q) (pt : string) (on off j : Q) (n : nat) (m : bool) (now : Q) (g : G) :
  in_flight e open ->
  stays_matched e open (fst (start_session e d pt on off j n m now g)) [].
Proof.
  intros Hinv. unfold start_session.
  match goal with |- context [_generate_next_pattern ?x g] =>
    destruct (_generate_next_pattern x g) as [e'|x'] eqn:E end; cbn [fst].
  - apply quiet_stays_matched; [reflexivity | | exact Hinv].
    left. eapply generate_next_clears; eauto.
  - apply quiet_stays_matched; [reflexivity | | exact Hinv].
    right. now destruct e.
Qed.

Lemma close_pair (l r : nat) : close_all [l; r] [l; r] = Some [].
Proof.
  cbn [close_all close_one]. rewrite Nat.eqb_refl.
  cbn [close_all close_one]. now rewrite Nat.eqb_refl.
Qed.

Lemma step_stays_matched (fault : option nat) (e : TherapyEngine)
    (open : list nat) (p : Pattern) (tick : Tick) (g : G) :
  _current_pattern e = Some p ->
  _activate_callback e = true ->
  in_flight e open ->
  let '(e', events, x) := _execute_pattern_step fault e p tick g in
  deactivate_raised events x = false ->
  stays_matched e open e' events.
Proof.
  intros Hp Hact Hinv. unfold _execute_pattern_step.
  destruct (Nat.leb (len p) (_pattern_index e)).
  { (* cycle complete *)
    match goal with |- context [invoke ?c fault] =>
      pose proof (@invoke_deactivations c fault) as Hd;
      destruct (invoke c fault) as [events raised] end.
    cbn [fst] in Hd.
    assert (Hnone : deactivations events = [])
      by (apply Hd; now destruct (_on_cycle_complete _)).
    destruct raised.
    { intros _. apply quiet_stays_matched; [exact Hnone | | exact Hinv].
      right. now destruct e. }
    match goal with |- context [_generate_next_pattern ?x g] =>
      destruct (_generate_next_pattern x g) as [e'|x'] eqn:E end; intros _.
    - apply quiet_stays_matched; [exact Hnone | | exact Hinv].
      left. eapply generate_next_clears; eauto.
    - apply quiet_stays_matched; [exact Hnone | | exact Hinv].
      right. now destruct e. }
  destruct (_waiting_for_interval e).
  { (* waiting out the interval *)
    destruct (Py.truthy_opt (_interval_start_time e));
      [|intros _; apply quiet_stays_matched; auto].
    destruct (_interval_start_time e) as [started|];
      [|intros _; apply quiet_stays_matched; auto].
    destruct (Py.getitem _ _) as [required|];
      [|intros _; apply quiet_stays_matched; auto].
    destruct (Py.Qleb _ _); intros _; apply quiet_stays_matched; auto. }
  destruct (_activation_start_time e) as [started|] eqn:Ea.
  - (* a burst is in flight *)
    destruct (Py.Qleb _ _); [|intros _; apply quiet_stays_matched; auto].
    unfold in_flight in Hinv. rewrite Ea in Hinv.
    destruct Hinv as (p0 & l & r & Hp0 & Hpair & ->).
    assert (p0 = p) by congruence. subst p0. rewrite Hpair.
    match goal with |- context [invoke ?c fault] =>
      destruct (invoke_cases c fault) as [Ei | (k & Hk & Ei)]; rewrite Ei end.
    + intros _.
      unfold stays_matched, burst_began. cbn [before after emitted].
      rewrite Ea. cbn [is_some negb andb].
      destruct (_deactivate_callback e).
      * exists []. split; [apply close_pair|].
        unfold in_flight. now destruct e.
      * exists [l; r]. split; [reflexivity|].
        unfold in_flight. now destruct e.
    + (* a deactivate callback raised *)
      destruct (_deactivate_callback e); cbn [List.length] in Hk; [|lia].
      destruct k as [|[|k]]; [| |lia]; intros H; discriminate H.
  - (* a burst begins *)
    destruct (get_finger_pair p (_pattern_index e)) as [[l r]|x] eqn:Hpair;
      [|intros _; apply quiet_stays_matched; auto].
    rewrite Hact.
    assert (Hd : forall sent : list Event,
               (forall ev, In ev sent -> exists a b c d, ev = SendCommand a b c d) ->
               deactivations (sent ++ [Activate l 100; Activate r 100]) = [] /\
               activations (sent ++ [Activate l 100; Activate r 100]) = [l; r]).
    { intros sent Hs. unfold deactivations, activations.
      rewrite !flat_map_app. cbn.
      assert (flat_map (fun ev => match ev with Deactivate f => [f] | _ => [] end) sent = []
              /\ flat_map (fun ev => match ev with Activate f _ => [f] | _ => [] end) sent = []) as [-> ->].
      { induction sent as [|ev sent IH]; [now split|].
        destruct (Hs ev (or_introl eq_refl)) as (a & b & c & d & ->).
        cbn. apply IH. intros ev' Hin. apply Hs. now right. }
      now split. }
    match goal with |- context [invoke (?s ++ _)%list fault] =>
      destruct (Hd s) as [Hd1 Hd2] end.
    { intros ev Hin. destruct (_send_command_callback e); cbn in Hin; [|tauto].
      destruct Hin as [<-|[]]. now repeat eexists. }
    match goal with |- context [invoke ?c fault] =>
      destruct (invoke_cases c fault) as [Ei | (k & Hk & Ei)]; rewrite Ei end;
      intros _.
    + unfold stays_matched, burst_began. cbn [before after emitted].
      rewrite Ea. exists [l; r]. rewrite Hd1, Hd2.
      replace (is_some (_activation_start_time _)) with true by now destruct e.
      cbn [is_some negb andb close_all]. split; [reflexivity|].
      unfold in_flight. destruct e; cbn in *. subst.
      now exists p, l, r.
    + (* a send or activate callback raised: nothing has begun *)
      apply quiet_stays_matched;
        [now apply deactivations_firstn | now right | ].
      unfold in_flight. now rewrite Ea.
Qed.

Lemma update_stays_matched (fault : option nat) (e : TherapyEngine)
    (open : list nat) (tick : Tick) (g : G) :
  _activate_callback e = true ->
  in_flight e open ->
  let '(e', events, x) := update_with fault e tick g in
  deactivate_raised events x = false ->
  stays_matched e open e' events.
Proof.
  intros Hact Hinv. unfold update_with.
  destruct (negb (_is_running e)); [intros _; apply quiet_stays_matched; auto|].
  destruct (_is_paused e); [intros _; apply quiet_stays_matched; auto|].
  destruct (_should_stop e).
  { intros _. apply quiet_stays_matched; auto. }
  match goal with |- context [if ?c then (stop e, _, _) else _] => destruct c end.
  { intros _. apply quiet_stays_matched; auto. }
  destruct (pattern_truthy (_current_pattern e)) as [p|] eqn:Hp;
    [|intros _; apply quiet_stays_matched; auto].
  apply pattern_truthy_some in Hp as [Hp _].
  now apply step_stays_matched.
Qed.

Lemma call_stays_matched (e : TherapyEngine) (open : list nat) (op : Op) :
  match op with
  | Update _ _ | UpdateRaising _ _ _ => _activate_callback e = true
  | _ => True
  end ->
  in_flight e open ->
  let '(e', events, x) := call e op in
  deactivate_raised events x = false ->
  stays_matched e open e' events.
Proof.
  intros Hact Hinv.
  destruct op as [d pt on off j n m now g | tick g | tick g k | | | | b | b | b | b];
    cbn [call]; try (intros _; apply quiet_stays_matched; now auto).
  - pose proof (@start_session_stays_matched e open d pt on off j n m now g
                  Hinv) as H.
    now destruct (start_session _ _ _ _ _ _ _ _ _ _).
  - now apply (@update_stays_matched None).
  - now apply update_stays_matched.
Qed.

Lemma run_bursts_matched (ops : list Op) (e : TherapyEngine) (open : list nat) :
  in_flight e open ->
  activate_installed e ops = true ->
  deactivate_returns e ops = true ->
  bursts_matched open (run e ops) = true.
Proof.
  revert e open. induction ops as [|op ops IH]; intros e open Hinv Hok Hret.
  - reflexivity.
  - cbn [activate_installed] in Hok. apply andb_prop in Hok as [Hop Hrest].
    pose proof (@call_stays_matched e open op) as Hcall.
    cbn [run deactivate_returns] in *. destruct (call e op) as [[e' events] x].
    cbn [fst] in Hrest.
    apply andb_prop in Hret as [Hnow Hlater].
    apply negb_true_iff in Hnow.
    destruct Hcall as (open' & Hclose & Hinv').
    + destruct op; auto.
    + exact Hinv.
    + exact Hnow.
    + cbn [bursts_matched emitted]. rewrite Hclose. now apply IH.
Qed.

(** C7 (amended): in every execution from a fresh engine (any sequence
    of [start_session], [update], [pause], [resume], [stop] and callback
    installations, with callbacks that return or raise and do not
    themselves call the engine) in which an activate callback is
    installed whenever [update] is called and no call of the deactivate
    callback raises, a deactivate is never issued without its own earlier
    activate for the same actuator in the same burst. *)
Theorem deactivate_follows_activate (ops : list Op) :
  activate_installed __init__ ops = true ->
  deactivate_returns __init__ ops = true ->
  bursts_matched [] (run __init__ ops) = true.
Proof. apply run_bursts_matched. exact I. Qed.

(** *** A session started with a zero duration *)

Context {L : @LawfulRandom G R}.

(** What [start_session] leaves behind when the pattern type is known:
    a running engine with a fresh pattern of [num_fingers] steps and the
    cursor at its start. *)
Lemma start_session_state (e : TherapyEngine) (d : Q) (pt : string)
    (on off j : Q) (n : nat) (m : bool) (now : Q) (g : G) :
  known_pattern_type pt ->
  exists p,
    List.length (left_sequence p) = n /\
    List.length (right_sequence p) = n /\
    start_session e d pt on off j n m now g =
    (mkEngine true false false (Some now) (Some d)
       (Some (mkConfig pt on off j n m)) (Some p) 0 None false None 0 0 0
       (_send_command_callback e) (_activate_callback e)
       (_deactivate_callback e) (_on_cycle_complete e), None).
Proof.
  intros Hpt. unfold start_session, _generate_next_pattern.
  cbn [get _pattern_config set_pattern_config set_session_duration_sec
       set_session_start_time set_timing_drift_ms set_total_activations
       set_cycles_completed set_should_stop set_is_paused set_is_running
       pattern_type num_fingers time_on_ms time_off_ms jitter_percent
       mirror_pattern].
  destruct Hpt as [-> | [-> | ->]]; cbn [String.eqb Ascii.eqb Bool.eqb].
  - destruct (generate_random_permutation_yields n on off j m None g)
      as (l & r & g' & _ & E & Hl & Hr & _).
    rewrite E. cbn. eexists. repeat split; cbn; assumption.
  - destruct (generate_sequential_pattern_yields n on off j m false g)
      as (l & r & g' & _ & E & Hl & Hr & _).
    rewrite E. cbn. eexists. repeat split; cbn; assumption.
  - destruct (generate_mirrored_pattern_yields n on off j true None g)
      as (l & r & g' & _ & E & Hl & Hr & _).
    rewrite E. cbn. eexists. repeat split; cbn; assumption.
Qed.

(** C4 fails on the code: with [duration_sec = 0] the time-out test is
    skipped (a zero duration is falsy), so the first [update] leaves the
    engine running and fires the activate callback for the first pair. *)
Theorem zero_duration_session_keeps_running (e : TherapyEngine) (d : Q)
    (pt : string) (on off j : Q) (n : nat) (m : bool) (now : Q) (g g' : G)
    (tick : Tick) :
  (d == 0)%Q ->
  known_pattern_type pt ->
  (1 <= n)%nat ->
  _activate_callback e = true ->
  let e1 := fst (start_session e d pt on off j n m now g) in
  let '(e2, events, x) := update e1 tick g' in
  is_running e2 = true /\ x = None /\
  exists l r, activations events = [l; r].
Proof.
  intros Hd Hpt Hn Hact.
  destruct (@start_session_state e d pt on off j n m now g Hpt)
    as (p & Hl & Hr & E).
  rewrite E. cbn [fst]. unfold update, update_with.
  cbn [_is_running _is_paused _should_stop negb _session_start_time
       _session_duration_sec _current_pattern Py.truthy_opt].
  assert (Hz : Py.truthy d = false).
  { unfold Py.truthy. apply negb_false_iff. now apply Qeq_bool_iff. }
  rewrite Hz, andb_false_r.
  assert (Hlen : len p = n) by exact Hl.
  unfold pattern_truthy. rewrite Hlen.
  destruct (Nat.eqb_spec n 0) as [->|_]; [lia|].
  unfold _execute_pattern_step.
  cbn [_pattern_index _waiting_for_interval _activation_start_time].
  rewrite Hlen. destruct (Nat.leb_spec n 0) as [H0|_]; [lia|].
  unfold get_finger_pair.
  destruct (left_sequence p) as [|l ls] eqn:El; [cbn in Hl; lia|].
  destruct (right_sequence p) as [|r rs] eqn:Er; [cbn in Hr; lia|].
  cbn [nth_error _send_command_callback _activate_callback invoke].
  rewrite Hact. repeat split.
  exists l, r. unfold activations. rewrite flat_map_app.
  now destruct (_send_command_callback e).
Qed.

End EngineFacts.

Section EngineRuns.
Import Engine.
Local Open Scope string_scope.

(** One burst of a one-finger session with both callbacks installed, in
    which the first call of the activate callback raises once. *)
Lemma deactivate_follows_activate_witness :
  bursts_matched []
    (run (R := Lcg.lcg) __init__
       [SetActivateCallback true; SetDeactivateCallback true;
        StartSession 10 "sequential" 100 67 0 1 true 1%Q 0%Z;
        UpdateRaising (instant 2%Q) 0%Z 0;
        Update (instant 2%Q) 0%Z; Update (instant 3%Q) 0%Z])
  = true.
Proof.
  apply (@deactivate_follows_activate Z Lcg.lcg); reflexivity.
Defined.

(** C7 as stated fails, in two ways.  With a deactivate callback
    installed and no activate callback, a burst ends in two deactivate
    calls that no activate call preceded.  And with both installed, a
    deactivate callback that raises leaves the burst open, so that the
    next [update] calls deactivate for the same actuators again: three
    deactivate calls after two activate calls. *)
Lemma deactivate_without_activate :
  let ops := [SetDeactivateCallback true;
              StartSession 10 "sequential" 100 67 0 1 true 1%Q 0%Z;
              Update (instant 2%Q) 0%Z; Update (instant 3%Q) 0%Z] in
  let raising := [SetActivateCallback true; SetDeactivateCallback true;
                  StartSession 10 "sequential" 100 67 0 1 true 1%Q 0%Z;
                  Update (instant 2%Q) 0%Z;
                  UpdateRaising (instant 3%Q) 0%Z 0;
                  Update (instant 4%Q) 0%Z] in
  (flat_map emitted (run (R := Lcg.lcg) __init__ ops)
     = [Deactivate 0; Deactivate 0] /\
   bursts_matched [] (run (R := Lcg.lcg) __init__ ops) = false) /\
  (activate_installed (R := Lcg.lcg) __init__ raising = true /\
   flat_map emitted (run (R := Lcg.lcg) __init__ raising)
     = [Activate 0 100; Activate 0 100;
        Deactivate 0; Deactivate 0; Deactivate 0] /\
   bursts_matched [] (run (R := Lcg.lcg) __init__ raising) = false).
Proof. repeat split; vm_compute; reflexivity. Qed.

(** A two-finger sequential session of duration 0, updated once. *)
Lemma zero_duration_session_keeps_running_witness :
  let e0 := set_activate_callback true __init__ in
  let e1 := fst (start_session (R := Lcg.lcg) e0 0 "sequential" 100 67 0 2
                   true 10%Q 0%Z) in
  let '(e2, events, x) := update (R := Lcg.lcg) e1 (instant 11%Q) 0%Z in
  is_running e2 = true /\ x = None /\
  exists l r, activations events = [l; r].
Proof.
  apply (@zero_duration_session_keeps_running Z Lcg.lcg lcg_lawful
           (set_activate_callback true __init__) 0 "sequential" 100 67 0 2
           true 10%Q 0%Z 0%Z (instant 11%Q)).
  - reflexivity.
  - right. now left.
  - lia.
  - reflexivity.
Defined.

(** The same run, evaluated: the engine is still running after the first
    [update] and has called activate twice. *)
Example zero_duration_first_update :
  let e0 := set_activate_callback true __init__ in
  let e1 := fst (start_session (R := Lcg.lcg) e0 0 "sequential" 100 67 0 2
                   true 10%Q 0%Z) in
  is_running (fst (fst (update (R := Lcg.lcg) e1 (instant 11%Q) 0%Z))) = true /\
  snd (fst (update (R := Lcg.lcg) e1 (instant 11%Q) 0%Z))
    = [Activate 0 100; Activate 0 100].
Proof. split; vm_compute; reflexivity. Qed.

End EngineRuns.

(** ** More on the state machine *)

Section StateMachineMore.
Import StateMachine StateMachineRuns TherapyStateMethods.
Local Open Scope string_scope.

Lemma notify_notifications (cbs : list Observer) (t : StateTransition) :
  notifications (notify cbs t) = map (fun cb => (obs_id cb, t)) cbs.
Proof.
  unfold notifications.
  induction cbs as [|cb cbs IH]; [reflexivity|].
  cbn [notify]. destruct (obs_run cb t); cbn [flat_map app map];
    now rewrite IH.
Qed.

(** X1: A transition that changes the state calls every registered observer
    once, in registration order, with the old state, the new state, the
    trigger and the metadata, whether or not earlier observers raised; a
    transition that leaves the state alone calls no observer. *)
Theorem transition_notifies_all (m : TherapyStateMachine) (trig : string)
    (md : option (list (string * string))) :
  let '(_, m', outputs) := transition m trig md in
  (get_current_state m' <> get_current_state m ->
   notifications outputs =
   map (fun cb => (obs_id cb,
                   mkTransition (get_current_state m) (get_current_state m')
                     trig (or_empty md)))
       (_callbacks m)) /\
  (get_current_state m' = get_current_state m -> outputs = []).
Proof.
  unfold transition, get_current_state.
  destruct (TherapyState_eqb (_determine_next_state m trig) (_state m)) eqn:E.
  - split; [congruence | reflexivity].
  - cbn [_state]. split.
    + intros _. apply notify_notifications.
    + intros H. rewrite H, TherapyState_eqb_refl in E. discriminate.
Qed.

(** X2: [force_state] always ends in the forced state and calls every observer
    once, in order, with trigger ["FORCE"], also when the state does not
    change. *)
Theorem force_state_notifies_all (m : TherapyStateMachine) (s : TherapyState)
    (reason : option string) :
  let '(m', outputs) := force_state m s reason in
  get_current_state m' = s /\
  _callbacks m' = _callbacks m /\
  map (fun n => (fst n, from_state (snd n), to_state (snd n), trigger (snd n)))
      (notifications outputs)
  = map (fun cb => (obs_id cb, get_current_state m, s, "FORCE")) (_callbacks m).
Proof.
  unfold force_state. cbn [get_current_state _state _callbacks].
  repeat split. rewrite notify_notifications, map_map. reflexivity.
Qed.

(** X3: Registering observers keeps them pairwise distinct, and registering
    one that is already there changes nothing. *)
Theorem on_state_change_distinct (m : TherapyStateMachine) (cb : Observer) :
  distinct_observers m ->
  distinct_observers (on_state_change m cb) /\
  on_state_change (on_state_change m cb) cb = on_state_change m cb /\
  In (obs_id cb) (map obs_id (_callbacks (on_state_change m cb))).
Proof.
  unfold distinct_observers, on_state_change. intros Hnd.
  assert (Hex : forall l, existsb (fun o => Nat.eqb (obs_id o) (obs_id cb)) l = true
                          <-> In (obs_id cb) (map obs_id l)).
  { intros l. rewrite existsb_exists, in_map_iff. split.
    - intros (o & Hin & E). apply Nat.eqb_eq in E. eauto.
    - intros (o & E & Hin). exists o. split; [exact Hin | now apply Nat.eqb_eq]. }
  destruct (existsb _ (_callbacks m)) eqn:E.
  - rewrite E. repeat split; [exact Hnd | now apply Hex].
  - cbn [_callbacks _state].
    assert (Hin : In (obs_id cb) (map obs_id (_callbacks m ++ [cb]))).
    { rewrite map_app. apply in_or_app. right. now left. }
    apply Hex in Hin as Hex'. rewrite Hex'. repeat split; [|exact Hin].
    rewrite map_app. cbn [map].
    apply NoDup_app; [exact Hnd | repeat constructor; intros [] | ].
    intros x Hx [<-|[]]. apply Hex in Hx. congruence.
Qed.

Lemma on_state_change_distinct_witness :
  let m := on_state_change (__init__ IDLE) (mkObserver 7 (fun _ => None)) in
  distinct_observers (on_state_change m (mkObserver 7 (fun _ => Some "x"))) /\
  on_state_change (on_state_change m (mkObserver 7 (fun _ => Some "x")))
    (mkObserver 7 (fun _ => Some "x"))
  = on_state_change m (mkObserver 7 (fun _ => Some "x")) /\
  In 7%nat (map obs_id (_callbacks (on_state_change m (mkObserver 7 (fun _ => Some "x"))))).
Proof.
  apply (@on_state_change_distinct
           (on_state_change (__init__ IDLE) (mkObserver 7 (fun _ => None)))
           (mkObserver 7 (fun _ => Some "x"))).
  repeat constructor. intros [].
Defined.

Lemma determine_next_state_outside (m : TherapyStateMachine) (trig : string) :
  state_in (_state m) session_states = false ->
  state_in (_determine_next_state m trig) session_states = false.
Proof.
  destruct m as [s cbs]. unfold _determine_next_state. cbn [_state].
  intros Hs.
  repeat match goal with
  | |- context [String.eqb trig ?c] => destruct (String.eqb trig c)
  end; destruct s; try discriminate Hs; reflexivity.
Qed.

(** X4: Outside the five session states (in [CONNECTING], [ERROR],
    [LOW_BATTERY], [CRITICAL_BATTERY], [CONNECTION_LOST] or
    [PHONE_DISCONNECTED]) no sequence of triggers brings the machine back
    into one of them: only [force_state] can. *)
Theorem triggers_never_recover (m : TherapyStateMachine) (triggers : list string) :
  state_in (get_current_state m) session_states = false ->
  let '(_, m', _) := run_triggers m triggers in
  state_in (get_current_state m') session_states = false.
Proof.
  revert m. induction triggers as [|t ts IH]; intros m Hm; [exact Hm|].
  cbn [run_triggers].
  assert (H1 : state_in (get_current_state (snd (fst (transition m t None))))
                 session_states = false).
  { unfold transition.
    destruct (TherapyState_eqb _ _); cbn [fst snd]; [exact Hm|].
    now apply determine_next_state_outside. }
  destruct (transition m t None) as [[b m1] out1]. cbn [fst snd] in H1.
  specialize (IH m1 H1). now destruct (run_triggers m1 ts) as [[bs m2] out2].
Qed.

Lemma triggers_never_recover_witness :
  let '(_, m', _) :=
    run_triggers (__init__ CONNECTION_LOST)
      [StateTrigger.CONNECTED; StateTrigger.START_SESSION;
       StateTrigger.RESUME_SESSION; StateTrigger.STOPPED] in
  state_in (get_current_state m') session_states = false.
Proof.
  apply (@triggers_never_recover (__init__ CONNECTION_LOST)
           [StateTrigger.CONNECTED; StateTrigger.START_SESSION;
            StateTrigger.RESUME_SESSION; StateTrigger.STOPPED]).
  reflexivity.
Defined.

(** X5: The predicates of [TherapyState] say exactly when the session
    triggers act: [START_SESSION] leads to [RUNNING] from the states that
    [can_start_therapy], [PAUSE_SESSION] to [PAUSED] from those that
    [can_pause], [RESUME_SESSION] to [RUNNING] from those that
    [can_resume], [STOP_SESSION] to [STOPPING] from those that are
    [is_active]; from every other state the trigger changes nothing. *)
Theorem predicates_match_transitions (m : TherapyStateMachine) :
  let s := get_current_state m in
  let next trig := get_current_state (snd (fst (transition m trig None))) in
  next StateTrigger.START_SESSION = (if can_start_therapy s then RUNNING else s) /\
  next StateTrigger.PAUSE_SESSION = (if can_pause s then PAUSED else s) /\
  next StateTrigger.RESUME_SESSION = (if can_resume s then RUNNING else s) /\
  next StateTrigger.STOP_SESSION = (if is_active s then STOPPING else s).
Proof.
  destruct m as [s cbs]. destruct s; repeat split.
Qed.

End StateMachineMore.

(** ** Session information *)

Section SessionInfoFacts.
Import SessionInfo.

Lemma Qleb_true (a b : Q) : Py.Qleb a b = true <-> (a <= b)%Q.
Proof.
  unfold Py.Qleb. destruct (Qlt_le_dec b a) as [H|H]; split; try easy.
  intros Hle. exfalso. apply (Qlt_irrefl b). eapply Qlt_le_trans; eauto.
Qed.

Lemma Qltb_true (a b : Q) : Py.Qltb a b = true <-> (a < b)%Q.
Proof.
  unfold Py.Qltb. destruct (Qlt_le_dec a b) as [H|H]; split; try easy.
  intros Hlt. exfalso. apply (Qlt_irrefl a). eapply Qlt_le_trans; eauto.
Qed.

(** Truncation keeps an integer lower bound. *)
Lemma int_of_float_lower (q : Q) (n : Z) :
  (0 <= n)%Z -> (inject_Z n <= q)%Q -> (n <= Py.int_of_float q)%Z.
Proof.
  intros Hn Hq. unfold Py.int_of_float.
  apply Z.quot_le_lower_bound; [reflexivity|].
  unfold Qle in Hq. cbn in Hq. lia.
Qed.

(** X6: The progress of a session is a percentage between 0 and 100; it is 0
    for a duration of zero or less, and 100 once a session of positive
    duration is complete.  A session is complete exactly when no time
    remains. *)
Theorem session_progress (self : t) :
  (0 <= progress_percentage self <= 100)%Z /\
  ((duration_sec self <= 0)%Q -> progress_percentage self = 0%Z) /\
  ((0 < duration_sec self)%Q -> is_complete self = true ->
   progress_percentage self = 100%Z) /\
  (is_complete self = true <-> (remaining_sec self == 0)%Q).
Proof.
  unfold progress_percentage, is_complete, remaining_sec.
  repeat split.
  - destruct (Py.Qleb _ _); lia.
  - destruct (Py.Qleb _ _); lia.
  - intros Hd. apply Qleb_true in Hd. now rewrite Hd.
  - intros Hd Hc. apply Qleb_true in Hc.
    destruct (Py.Qleb (duration_sec self) 0) eqn:E.
    { apply Qleb_true in E. exfalso. apply (Qlt_irrefl 0).
      eapply Qlt_le_trans; eauto. }
    assert (H100 : (100 <= Py.int_of_float (elapsed_sec self / duration_sec self * 100))%Z).
    { apply int_of_float_lower; [lia|].
      setoid_replace (inject_Z 100) with (1 * 100)%Q by reflexivity.
      apply Qmult_le_compat_r; [|discriminate].
      apply Qle_shift_div_l; [exact Hd|]. now rewrite Qmult_1_l. }
    lia.
  - intros Hc. apply Qleb_true in Hc. unfold Py.max.
    destruct (Py.Qltb 0 (duration_sec self - elapsed_sec self)) eqn:E;
      [|reflexivity].
    apply Qltb_true in E. exfalso. apply (Qlt_irrefl 0).
    eapply Qlt_le_trans; [exact E|].
    apply Qle_minus_iff in Hc. 
    setoid_replace (duration_sec self - elapsed_sec self)%Q
      with (- (elapsed_sec self + - duration_sec self))%Q by ring.
    setoid_replace 0%Q with (- 0)%Q by reflexivity.
    now apply Qopp_le_compat.
  - intros Hr. apply Qleb_true. unfold Py.max in Hr.
    destruct (Py.Qltb 0 (duration_sec self - elapsed_sec self)) eqn:E.
    + apply Qltb_true in E. rewrite Hr in E. now apply Qlt_irrefl in E.
    + destruct (Qlt_le_dec 0 (duration_sec self - elapsed_sec self)) as [H|H].
      * apply Qltb_true in H. congruence.
      * apply Qle_minus_iff.
        setoid_replace (elapsed_sec self + - duration_sec self)%Q
          with (- (duration_sec self - elapsed_sec self))%Q by ring.
        setoid_replace 0%Q with (- 0)%Q by reflexivity.
        now apply Qopp_le_compat.
Qed.

End SessionInfoFacts.

(** ** More on the sync protocol *)

Section SyncMore.
Import Text Sync SyncReceive.
Local Open Scope string_scope.

(** *** The payload parser *)

Lemma keys_dict_set (d : dict) (k : string) (v : value) :
  keys (dict_set d k v) = if existsb (String.eqb k) (keys d)
                          then keys d else (keys d ++ [k])%list.
Proof.
  induction d as [|[k' v'] d IH]; [reflexivity|].
  cbn [dict_set keys map fst existsb].
  rewrite (String.eqb_sym k k').
  destruct (String.eqb k' k); [reflexivity|].
  cbn [keys map fst orb]. fold (keys (dict_set d k v)). fold (keys d).
  rewrite IH. now destruct (existsb (String.eqb k) (keys d)).
Qed.

Lemma dict_set_nodup (d : dict) (k : string) (v : value) :
  NoDup (keys d) -> NoDup (keys (dict_set d k v)).
Proof.
  intros Hnd. rewrite keys_dict_set.
  destruct (existsb (String.eqb k) (keys d)) eqn:E; [exact Hnd|].
  apply NoDup_app; [exact Hnd | repeat constructor; intros [] |].
  intros x Hx [<-|[]].
  assert (existsb (String.eqb k) (keys d) = true); [|congruence].
  apply existsb_exists. exists k. split; [exact Hx | apply String.eqb_refl].
Qed.

Lemma dict_get_set (d : dict) (k k' : string) (v : value) :
  dict_get (dict_set d k v) k' =
  if String.eqb k k' then Some v else dict_get d k'.
Proof.
  induction d as [|[k0 v0] d IH]; cbn [dict_set dict_get].
  - reflexivity.
  - destruct (String.eqb_spec k0 k) as [->|Hne]; cbn [dict_get].
    + now destruct (String.eqb k k').
    + rewrite IH. destruct (String.eqb_spec k0 k') as [->|Hne'].
      * destruct (String.eqb_spec k k'); [congruence | reflexivity].
      * reflexivity.
Qed.

Lemma fill_nodup (int : string -> option Z) (parts : list string) :
  forall d, NoDup (keys d) -> NoDup (keys (fill int parts d)).
Proof.
  induction parts as [parts IH] using (well_founded_induction
                                         (Wf_nat.well_founded_ltof _ (@List.length string))).
  intros d Hd. destruct parts as [|key [|text rest]]; try exact Hd.
  cbn [fill]. apply IH; [unfold Wf_nat.ltof; cbn; lia|].
  now apply dict_set_nodup.
Qed.

Lemma fill_get (int : string -> option Z) (parts : list string) (k : string) :
  forall d,
    dict_get (fill int parts d) k =
    match last_binding parts k with
    | Some t => Some (coerce int t)
    | None => dict_get d k
    end.
Proof.
  induction parts as [parts IH] using (well_founded_induction
                                         (Wf_nat.well_founded_ltof _ (@List.length string))).
  intros d. destruct parts as [|key [|text rest]]; try reflexivity.
  cbn [fill last_binding].
  rewrite IH by (unfold Wf_nat.ltof; cbn; lia).
  destruct (last_binding rest k); [reflexivity|].
  rewrite dict_get_set. now destruct (String.eqb key k).
Qed.

(** X7: Whatever text it is given, [_deserialize_data] returns a dict whose
    keys are pairwise distinct, and each key is bound to the (coerced)
    text of its last occurrence. *)
Theorem deserialize_data_last_wins (int : string -> option Z)
    (data_str : string) (d : dict) :
  _deserialize_data int data_str = Py.Ok d ->
  NoDup (keys d) /\
  forall k, dict_get d k =
            option_map (coerce int) (last_binding (Py.split "|" data_str) k).
Proof.
  unfold _deserialize_data.
  destruct (Py.nonempty data_str) eqn:Hne; cbn [negb].
  - destruct (negb _); [discriminate|]. intros [= <-]. split.
    + apply fill_nodup. constructor.
    + intros k. rewrite fill_get. now destruct (last_binding _ k).
  - intros [= <-]. split; [constructor|].
    intros k. destruct data_str; [reflexivity | discriminate].
Qed.

Lemma deserialize_data_last_wins_witness :
  NoDup (keys [("k", VInt 2); ("j", VStr "x")]) /\
  forall k, dict_get [("k", VInt 2); ("j", VStr "x")] k =
            option_map (coerce Py.int) (last_binding (Py.split "|" "k|1|j|x|k|2") k).
Proof.
  apply (@deserialize_data_last_wins Py.int "k|1|j|x|k|2"). reflexivity.
Defined.

(** X8: [_deserialize_data] undoes [_serialize_data] on every payload whose
    keys and value texts hold no ['|'], the empty payload included; white
    space at the ends of values is kept. *)
Theorem serialize_data_roundtrip (int : string -> option Z) (d : dict) :
  NoDup (keys d) ->
  Forall (fun kv => lacks "|" (fst kv) /\ lacks "|" (str (snd kv))) d ->
  _deserialize_data int (_serialize_data d) = Py.Ok (coerced int d).
Proof.
  intros Hnd Hbar. destruct d as [|kv d]; [reflexivity|].
  rewrite serialize_data_spec.
  apply deserialize_data_payload; [discriminate | exact Hnd | exact Hbar].
Qed.

Lemma serialize_data_roundtrip_witness :
  _deserialize_data Py.int (_serialize_data [("k", VStr "v "); ("n", VInt (-3))])
  = Py.Ok [("k", VStr "v "); ("n", VInt (-3))].
Proof.
  apply (@serialize_data_roundtrip Py.int [("k", VStr "v "); ("n", VInt (-3))]).
  - repeat constructor; cbn; intuition discriminate.
  - repeat constructor.
Defined.

(** *** Clock offset *)

(** X9: After [calculate_offset(p, s)] the returned and stored offset is
    [s - p], compensation maps the secondary's reading [s] back to [p]
    and shifts every timestamp by that one offset, whatever offsets were
    stored before; after [reset] compensation is the identity. *)
Theorem offset_compensation (self : SimpleSyncProtocol.t) (p s ts : Z) (now : Q) :
  let '(offset, self') := SimpleSyncProtocol.calculate_offset self p s now in
  offset = (s - p)%Z /\
  SimpleSyncProtocol.apply_compensation self' s = p /\
  SimpleSyncProtocol.apply_compensation self' ts = (ts - (s - p))%Z /\
  SimpleSyncProtocol.apply_compensation (SimpleSyncProtocol.reset self') ts = ts.
Proof.
  cbn. unfold SimpleSyncProtocol.apply_compensation. cbn. repeat split; lia.
Qed.

(** *** Timestamps *)

Lemma int_of_float_floor (q : Q) : (0 <= q)%Q -> Py.int_of_float q = Qfloor q.
Proof.
  destruct q as [n d]. unfold Qle, Py.int_of_float, Qfloor. cbn.
  intros H. apply Z.quot_div_nonneg; lia.
Qed.

Lemma round_to_rounding (scale : positive) : rounding (round_to scale).
Proof.
  split.
  - intros a b Hab. unfold round_to, Qdiv.
    apply Qmult_le_compat_r.
    + rewrite <- Zle_Qle. apply Qfloor_resp_le.
      apply Qplus_le_l. apply Qmult_le_compat_r; [exact Hab|].
      unfold Qle; cbn; lia.
    + apply Qinv_le_0_compat. unfold Qle; cbn; lia.
  - unfold round_to, Qdiv. apply Qmult_le_0_compat.
    + rewrite <- (Zle_Qle 0). change 0%Z with (Qfloor 0).
      apply Qfloor_resp_le. unfold Qle; cbn; lia.
    + apply Qinv_le_0_compat. unfold Qle; cbn; lia.
Qed.

(** X10: On a clock that is not negative and does not run backwards the
    microsecond timestamps are not negative and do not run backwards
    either, however the product [time.monotonic() * 1_000_000] is
    rounded to a float. *)
Theorem precise_time_monotone (fl : Q -> Q) (now later : Q) :
  rounding fl ->
  (0 <= now)%Q -> (now <= later)%Q ->
  (0 <= get_precise_time_rounded fl now
     <= get_precise_time_rounded fl later)%Z.
Proof.
  intros [Hmono Hzero] H0 Hle. unfold get_precise_time_rounded.
  assert (Hn : (0 <= now * 1000000)%Q).
  { setoid_replace 0%Q with (0 * 1000000)%Q by reflexivity.
    apply Qmult_le_compat_r; [exact H0 | discriminate]. }
  assert (Hl : (now * 1000000 <= later * 1000000)%Q)
    by (apply Qmult_le_compat_r; [exact Hle | discriminate]).
  assert (Hfn : (0 <= fl (now * 1000000))%Q).
  { eapply Qle_trans; [exact Hzero|]. now apply Hmono. }
  assert (Hfl : (fl (now * 1000000) <= fl (later * 1000000))%Q) by now apply Hmono.
  rewrite !int_of_float_floor by (exact Hfn || eapply Qle_trans; eauto).
  split.
  - change 0%Z with (Qfloor 0). now apply Qfloor_resp_le.
  - now apply Qfloor_resp_le.
Qed.

(** The readings 0.3 and 0.5 as binary64 floats, with the rounding of
    binary64 at the size of the product. *)
Lemma precise_time_monotone_witness :
  (0 <= get_precise_time_rounded (round_to (2 ^ 34))
          (5404319552844595 # 18014398509481984)
     <= get_precise_time_rounded (round_to (2 ^ 34)) (1 # 2))%Z.
Proof.
  apply (@precise_time_monotone (round_to (2 ^ 34))
           (5404319552844595 # 18014398509481984) (1 # 2)).
  - apply round_to_rounding.
  - unfold Qle; cbn; lia.
  - unfold Qle; cbn; lia.
Defined.

(** The rounding matters to the value: at the float nearest to 0.3 the
    product rounds up to 300000.0, where exact arithmetic truncates to
    299999. *)
Example precise_time_rounds_up :
  get_precise_time_rounded (round_to (2 ^ 34))
    (5404319552844595 # 18014398509481984) = 300000%Z /\
  get_precise_time (5404319552844595 # 18014398509481984) = 299999%Z.
Proof. split; vm_compute; reflexivity. Qed.

(** *** Tolerance of the decoder *)








(** The bytes that begin a white-space character of more than one byte. *)
Lemma wide_lead (a : ascii) :
  Py.starts_space a = true -> Py.is_space a = false ->
  a = ascii_of_nat 194 \/ a = ascii_of_nat 225 \/ a = ascii_of_nat 226 \/
  a = ascii_of_nat 227.
Proof.
  unfold Py.starts_space. intros H Hs. rewrite Hs in H. cbn [orb] in H.
  assert (E : forall n, N_of_ascii a = N.of_nat n -> a = ascii_of_nat n).
  { intros n Hn. rewrite <- (ascii_N_embedding a), Hn. unfold ascii_of_nat.
    reflexivity. }
  bytes_to_N; [left | right; left | right; right; left | right; right; right];
    now apply E.
Qed.

(** Text that begins with no white space still does after more text is
    put behind it. *)
Lemma keeps_head_app_text (t x : string) :
  Py.is_text t = true -> t <> "" -> keeps_head t -> keeps_head (t ++ x).
Proof.
  intros Htext Hne Hk. destruct t as [|a r]; [congruence|].
  destruct (@keeps_head_bytes _ _ Hk) as [E1 Hr].
  destruct (Py.starts_space a) eqn:Es;
    [|now apply (@lstrip_head a (r ++ x))].
  assert (H3 : a = ascii_of_nat 194 -> forall b c, Py.is_space3 a b c = false).
  { intros -> b c. destruct (Py.is_space3 _ b c) eqn:E; [|reflexivity].
    apply space3_starts in E as (_ & _ & E).
    specialize (E (ascii_of_nat 133)). discriminate E. }
  unfold keeps_head. cbn [append Py.lstrip]. rewrite E1.
  destruct r as [|b r1].
  { exfalso. destruct (@wide_lead _ Es E1) as [-> | [-> | [-> | ->]]];
      discriminate Htext. }
  destruct Hr as [E2 Hr]. cbn [append]. rewrite E2.
  destruct r1 as [|c r2].
  - destruct (@wide_lead _ Es E1) as [Ea | Ea].
    + cbn [append]. destruct x as [|c x]; [reflexivity|]. now rewrite H3.
    + exfalso. unfold Py.is_text in Htext. cbn [Py.utf8_run] in Htext.
      assert (Hs : Py.utf8_step Py.U_start a = Py.U_tail2)
        by (destruct Ea as [-> | [-> | ->]]; reflexivity).
      rewrite Hs in Htext. unfold Py.utf8_step in Htext.
      destruct (Py.in_range 128 191 (N_of_ascii b)); discriminate Htext.
  - cbn [append]. now rewrite Hr.
Qed.

(** X12: The command word is not checked: any text without [':'] that does
    not begin with white space is accepted as a command type, and comes
    back as an enum instance of that value. *)
Theorem deserialize_accepts_any_type (int : string -> option Z)
    (token : string) (seq ts : Z) :
  (forall z, int (Py.str_of_int z) = Some z) ->
  Py.is_text token = true ->
  lacks ":" token ->
  keeps_head token ->
  deserialize int (token ++ ":" ++ Py.str_of_int seq ++ ":" ++ Py.str_of_int ts)
  = Py.Ok (mkCommand seq ts (SyncCommandType.call token) []).
Proof.
  intros Hint Htext Hcolon Hhead.
  unfold deserialize, deserialize_body, Py.decode.
  assert (Hmsg : Py.is_text (token ++ ":" ++ Py.str_of_int seq ++ ":" ++ Py.str_of_int ts) = true).
  { repeat (apply is_text_app; try reflexivity; try apply str_of_int_is_text;
            try assumption). }
  rewrite Hmsg. cbn [Py.of_option Py.bind].
  assert (Hstrip : Py.strip (token ++ ":" ++ Py.str_of_int seq ++ ":" ++ Py.str_of_int ts)
                   = token ++ ":" ++ Py.str_of_int seq ++ ":" ++ Py.str_of_int ts).
  { unfold Py.strip.
    assert (Hl : Py.lstrip (token ++ ":" ++ Py.str_of_int seq ++ ":" ++ Py.str_of_int ts)
                 = token ++ ":" ++ Py.str_of_int seq ++ ":" ++ Py.str_of_int ts).
    { destruct token as [|c r] eqn:Et; [now apply lstrip_head|].
      apply keeps_head_app_text; [exact Htext | discriminate | exact Hhead]. }
    rewrite Hl.
    change (":" ++ Py.str_of_int ts) with (String ":" (Py.str_of_int ts)).
    rewrite <- !append_assoc.
    apply keeps_tail_sep; [reflexivity | reflexivity | apply str_of_int_keeps_tail]. }
  rewrite Hstrip. cbn [append].
  rewrite split_max_app_sep by exact Hcolon.
  rewrite split_max_app_sep by (now apply str_of_int_no_char).
  rewrite split_max_no_sep by (now apply str_of_int_no_char).
  cbn [List.length Nat.ltb Nat.leb]. rewrite !Hint. reflexivity.
Qed.

Lemma deserialize_accepts_any_type_witness :
  deserialize Py.int ("NO_SUCH_COMMAND" ++ ":" ++ Py.str_of_int 1 ++ ":" ++ Py.str_of_int 2)
  = Py.Ok (mkCommand 1 2 (SyncCommandType.call "NO_SUCH_COMMAND") []).
Proof.
  apply (@deserialize_accepts_any_type Py.int "NO_SUCH_COMMAND" 1 2);
    try reflexivity.
  exact int_str_of_int.
Defined.

(** *** Sending and receiving *)

Lemma last_put_put (connection : Connection) (bytes : string) :
  last_put (put connection bytes) = Some bytes.
Proof.
  unfold last_put, put, wire.
  destruct (has_write connection); cbn [has_write written sent];
    rewrite map_app; apply last_snoc.
Qed.

Lemma serialize_nonempty (c : SyncCommand) : Py.nonempty (serialize c) = true.
Proof.
  rewrite serialize_wire. destruct (spec_wire_text c); reflexivity.
Qed.

(** X13: What the three senders write is read back by [receive_command] as the
    command sent: same sequence id, the timestamp taken from the clock,
    the command type, and the payload with its integers. *)
Theorem sync_send_receive (int : string -> option Z) (connection : Connection)
    (now : Q) (sequence_id finger amplitude seed : Z)
    (has_read has_receive : bool) :
  (forall z, int (Py.str_of_int z) = Some z) ->
  has_read || has_receive = true ->
  let heard c := receive_command int
                   (mkSource has_read has_receive (Py.Ok (last_put c))) in
  heard (send_execute_buzz connection now sequence_id finger amplitude)
  = Some (mkCommand sequence_id (get_precise_time now)
            (SyncCommandType.call "EXECUTE_BUZZ")
            [("finger", VInt finger); ("amplitude", VInt amplitude)]) /\
  heard (send_buzz_complete connection now sequence_id)
  = Some (mkCommand sequence_id (get_precise_time now)
            (SyncCommandType.call "BUZZ_COMPLETE") []) /\
  heard (send_seed connection now seed)
  = Some (mkCommand 0 (get_precise_time now)
            (SyncCommandType.call "SYNC_ADJ") [("seed", VInt seed)]).
Proof.
  intros Hint Hcan heard. subst heard. cbv beta.
  unfold receive_command. cbn [SyncReceive.has_read SyncReceive.has_receive reply].
  rewrite Hcan.
  unfold send_execute_buzz, send_buzz_complete, send_seed.
  rewrite !last_put_put, !serialize_nonempty.
  repeat split.
  - rewrite deserialize_serialize; try assumption.
    + cbn [Sync.sequence_id Sync.timestamp Sync.command_type Sync.data coerced map fst snd str].
      unfold coerce. now rewrite !Hint.
    + cbn; tauto.
    + repeat constructor; cbn; intuition discriminate.
    + repeat constructor; apply str_of_int_is_text.
    + repeat constructor; cbn [fst snd str];
        try reflexivity; now apply str_of_int_no_char.
    + apply str_of_int_keeps_tail.
  - rewrite deserialize_serialize; try assumption; try reflexivity.
    + cbn; tauto.
    + constructor.
    + constructor.
    + constructor.
  - rewrite deserialize_serialize; try assumption.
    + cbn [Sync.sequence_id Sync.timestamp Sync.command_type Sync.data coerced map fst snd str].
      unfold coerce. now rewrite !Hint.
    + cbn; tauto.
    + repeat constructor; cbn; intuition discriminate.
    + repeat constructor; apply str_of_int_is_text.
    + repeat constructor; cbn [fst snd str];
        try reflexivity; now apply str_of_int_no_char.
    + apply str_of_int_keeps_tail.
Qed.

Lemma sync_send_receive_witness :
  receive_command Py.int
    (mkSource true false
       (Py.Ok (last_put (send_execute_buzz (mkConnection true [] []) 1%Q 42 0 50))))
  = Some (mkCommand 42 1000000 (SyncCommandType.call "EXECUTE_BUZZ")
            [("finger", VInt 0); ("amplitude", VInt 50)]).
Proof.
  apply (proj1 (@sync_send_receive Py.int (mkConnection true [] []) 1%Q 42 0 50 0
                  true false int_str_of_int eq_refl)).
Defined.

End SyncMore.

(** ** More on framing and connections *)

Section FramingMore.
Import Text BLE.
Local Open Scope string_scope.



(** The loop of [receive] over two runs of polls is the loop over the
    first, continued over the second with the buffer reached. *)
Lemma receive_loop_app (timeout : option Q) (start_time : Q)
    (early late : list Poll) :
  forall buffer,
    receive_loop timeout start_time buffer (early ++ late) =
    match receive_loop timeout start_time buffer early with
    | Polling buffer' => receive_loop timeout start_time buffer' late
    | r => r
    end.
Proof.
  induction early as [|p early IH]; intros buffer; [reflexivity|].
  cbn [app receive_loop].
  destruct (timed_out timeout start_time (poll_now p)); [reflexivity|].
  destruct (0 <? in_waiting p)%Z; [|apply IH].
  destruct (read p) as [bytes|]; [|apply IH].
  destruct (Py.nonempty bytes); [|apply IH].
  destruct (Py.decode bytes) as [chunk|]; [|reflexivity].
  destruct (Py.contains_char EOT (buffer ++ chunk)); [|apply IH].
  now destruct (Py.find_char EOT (buffer ++ chunk)).
Qed.

(** X15: [receive] returns the text up to the first EOT of what it has read;
    whatever follows that EOT in the same read (a second frame, say) is
    dropped with the buffer. *)
Theorem receive_first_frame_only (cs : connections) (conn_id : string)
    (conn : BLEConnection) (timeout : option Q) (start_time : Q) (p : Poll)
    (rest : list Poll) (message tail : string) :
  lookup cs conn_id = Some conn ->
  is_connected conn = true ->
  Py.is_text message = true ->
  Py.is_text tail = true ->
  lacks EOT message ->
  timed_out timeout start_time (poll_now p) = false ->
  (0 < in_waiting p)%Z ->
  read p = Some (message ++ String EOT tail) ->
  fst (receive cs conn_id timeout start_time (p :: rest))
  = Message message (poll_stamp p).
Proof.
  intros Hl Hc Hm Ht Hlack Hto Hw Hr.
  unfold receive. rewrite Hl, Hc. cbn [negb receive_loop].
  rewrite Hto. apply Z.ltb_lt in Hw. rewrite Hw, Hr.
  assert (Hne : Py.nonempty (message ++ String EOT tail) = true)
    by (destruct message; reflexivity).
  rewrite Hne. unfold Py.decode.
  assert (Htext : Py.is_text (message ++ String EOT tail) = true).
  { apply is_text_app; [exact Hm|].
    change (String EOT tail) with (String EOT "" ++ tail).
    apply is_text_app; [reflexivity | exact Ht]. }
  rewrite Htext. cbn [append].
  rewrite contains_char_app. cbn [Py.contains_char].
  rewrite Ascii.eqb_refl. cbn [orb]. rewrite orb_true_r.
  rewrite find_char_app by exact Hlack. now rewrite take_app.
Qed.

Lemma receive_first_frame_only_witness :
  fst (receive demo_link "secondary" None 0%Q
         [mkPoll 1%Q 4 (Some ("A" ++ String EOT ("B" ++ String EOT ""))) 1%Q])
  = Message "A" 1%Q.
Proof.
  apply (@receive_first_frame_only demo_link "secondary"
           (mkBLEConnection "secondary" (Some true) (mkUART [] false) 0 0)
           None 0%Q
           (mkPoll 1%Q 4 (Some ("A" ++ String EOT ("B" ++ String EOT ""))) 1%Q)
           [] "A" ("B" ++ String EOT "")); try reflexivity.
Defined.

Lemma timed_out_zero (t start_time now : Q) :
  (t == 0)%Q -> timed_out (Some t) start_time now = false.
Proof.
  intros H. unfold timed_out, Py.truthy.
  apply Qeq_bool_iff in H. now rewrite H.
Qed.

(** X16: A time-out of zero is no time-out: [receive] then behaves as with
    [timeout=None] and waits for an EOT however late it comes. *)
Theorem receive_zero_timeout (cs : connections) (conn_id : string) (t : Q)
    (start_time : Q) (polls : list Poll) :
  (t == 0)%Q ->
  receive cs conn_id (Some t) start_time polls
  = receive cs conn_id None start_time polls.
Proof.
  intros Ht. unfold receive.
  destruct (lookup cs conn_id) as [conn|]; [|reflexivity].
  destruct (negb (is_connected conn)); [reflexivity|].
  replace (receive_loop (Some t) start_time "" polls)
    with (receive_loop None start_time "" polls); [reflexivity|].
  generalize "". induction polls as [|p polls IH]; intros buffer; [reflexivity|].
  cbn [receive_loop]. rewrite timed_out_zero by exact Ht. cbn [timed_out].
  destruct (0 <? in_waiting p)%Z; [|apply IH].
  destruct (read p) as [bytes|]; [|apply IH].
  destruct (Py.nonempty bytes); [|apply IH].
  destruct (Py.decode bytes) as [chunk|]; [|reflexivity].
  destruct (Py.contains_char EOT (buffer ++ chunk)); [reflexivity|apply IH].
Qed.

Lemma receive_zero_timeout_witness :
  receive demo_link "secondary" (Some 0%Q) 0%Q
    [mkPoll 1000%Q 0 None 1000%Q;
     mkPoll 2000%Q 3 (Some ("OK" ++ String EOT "")) 2000%Q]
  = receive demo_link "secondary" None 0%Q
      [mkPoll 1000%Q 0 None 1000%Q;
       mkPoll 2000%Q 3 (Some ("OK" ++ String EOT "")) 2000%Q].
Proof.
  apply (@receive_zero_timeout demo_link "secondary" 0%Q 0%Q). reflexivity.
Defined.

(** X17: When the time-out passes before an EOT has arrived, [receive] returns
    [None] and what it had read so far is lost: nothing is kept for the
    next call, and the connection is not marked as seen. *)
Theorem receive_timeout_drops_partial (cs : connections) (conn_id : string)
    (timeout : option Q) (start_time : Q) (early : list Poll) (late : Poll)
    (rest : list Poll) (buffer : string) :
  receive_loop timeout start_time "" early = Polling buffer ->
  timed_out timeout start_time (poll_now late) = true ->
  receive cs conn_id timeout start_time (early ++ late :: rest) = (NoMessage, cs).
Proof.
  intros He Hl. unfold receive.
  destruct (lookup cs conn_id) as [conn|]; [|reflexivity].
  destruct (negb (is_connected conn)); [reflexivity|].
  rewrite receive_loop_app, He. cbn [receive_loop]. now rewrite Hl.
Qed.

Lemma receive_timeout_drops_partial_witness :
  receive demo_link "secondary" (Some (1 # 100)%Q) 0%Q
    [mkPoll (1 # 1000)%Q 4 (Some "PART") (1 # 1000)%Q;
     mkPoll (2 # 100)%Q 4 (Some ("DONE" ++ String EOT "")) (2 # 100)%Q]
  = (NoMessage, demo_link).
Proof.
  apply (@receive_timeout_drops_partial demo_link "secondary" (Some (1 # 100)%Q)
           0%Q [mkPoll (1 # 1000)%Q 4 (Some "PART") (1 # 1000)%Q]
           (mkPoll (2 # 100)%Q 4 (Some ("DONE" ++ String EOT "")) (2 # 100)%Q)
           [] "PART"); reflexivity.
Defined.

Lemma lookup_remove (cs : connections) (k k' : string) :
  lookup (BLEAdmin.remove cs k) k' =
  if String.eqb k k' then None else lookup cs k'.
Proof.
  induction cs as [|[k0 c0] cs IH]; cbn.
  - now destruct (String.eqb k k').
  - destruct (String.eqb_spec k0 k) as [->|H0]; cbn.
    + rewrite IH. now destruct (String.eqb k k').
    + rewrite IH. destruct (String.eqb_spec k0 k') as [->|H1]; [|reflexivity].
      destruct (String.eqb_spec k k'); [congruence | reflexivity].
Qed.

Lemma lookup_disconnect (cs : connections) (k k' : string) :
  lookup (BLEAdmin.disconnect cs k) k' =
  if String.eqb k k' then None else lookup cs k'.
Proof.
  unfold BLEAdmin.disconnect.
  destruct (lookup cs k) eqn:E; [apply lookup_remove|].
  destruct (String.eqb_spec k k') as [->|_]; [exact E | reflexivity].
Qed.

Lemma disconnect_each_keys (ids : list string) :
  forall cs k,
    In k (BLEAdmin.get_all_connections (BLEAdmin.disconnect_each ids cs)) ->
    In k (BLEAdmin.get_all_connections cs) /\ ~ In k ids.
Proof.
  assert (Hkeys : forall cs k, In k (BLEAdmin.get_all_connections cs)
                               <-> lookup cs k <> None).
  { intros cs k. unfold BLEAdmin.get_all_connections.
    induction cs as [|[k0 c0] cs IH]; cbn; [tauto|].
    destruct (String.eqb_spec k0 k) as [->|H0]; [intuition discriminate|].
    rewrite IH. intuition congruence. }
  induction ids as [|id ids IH]; intros cs k Hin; cbn in *; [tauto|].
  apply IH in Hin as [Hin Hnot].
  apply Hkeys in Hin. rewrite lookup_disconnect in Hin.
  destruct (String.eqb_spec id k) as [->|Hne]; [congruence|].
  split; [now apply Hkeys | intros [E|E]; [congruence | tauto]].
Qed.

(** X18: After [disconnect(conn_id)] the id is unknown: [is_connected] is
    [False], [send] fails and writes nothing, [receive] returns [None];
    every other connection is as before.  After [disconnect_all] no
    connection is left. *)
Theorem disconnect_forgets (cs : connections) (conn_id : string) (now : Q)
    (message : string) (timeout : option Q) (start_time : Q) (polls : list Poll) :
  let cs' := BLEAdmin.disconnect cs conn_id in
  BLEAdmin.is_connected cs' conn_id = false /\
  send cs' now conn_id message = (false, cs') /\
  receive cs' conn_id timeout start_time polls = (NoMessage, cs') /\
  (forall other, other <> conn_id -> lookup cs' other = lookup cs other) /\
  BLEAdmin.get_all_connections (BLEAdmin.disconnect_all cs) = [].
Proof.
  cbv zeta.
  assert (Hnone : lookup (BLEAdmin.disconnect cs conn_id) conn_id = None)
    by (rewrite lookup_disconnect; now rewrite String.eqb_refl).
  unfold BLEAdmin.is_connected, send, receive. rewrite Hnone.
  repeat split.
  - intros other Hne. rewrite lookup_disconnect.
    destruct (String.eqb_spec conn_id other); [congruence | reflexivity].
  - unfold BLEAdmin.disconnect_all.
    destruct (BLEAdmin.get_all_connections
                (BLEAdmin.disconnect_each (BLEAdmin.get_all_connections cs) cs))
      as [|k ks] eqn:E; [reflexivity|].
    exfalso.
    destruct (@disconnect_each_keys (BLEAdmin.get_all_connections cs) cs k)
      as [Hin Hnot]; [rewrite E; now left | contradiction].
Qed.

End FramingMore.

Section FramingRuns.
Import Text BLE.
Local Open Scope string_scope.

(** ["PING"] handed over in three reads. *)
Lemma receive_loop_chunked_witness :
  receive_loop None 0%Q ""
    (deliver 1%Q (["PI"; "N"] ++ [("G" ++ String EOT "")%string]) ++ [])%list
  = Message ("" ++ String.concat "" ["PI"; "N"] ++ "G") 1%Q.
Proof.
  apply (@receive_loop_chunked 0%Q 1%Q ["PI"; "N"] "" "G" []);
    try reflexivity.
  repeat constructor; discriminate.
Defined.

End FramingRuns.

(** ** More on the pattern generators *)

Section PatternMore.
Import Therapy TherapyMore.
Context {G : Type} {R : PyRandom G} {L : @LawfulRandom G R}.

Lemma setitem_perm (x x1 : list nat) (i v a : nat) :
  setitem x i v = Some x1 -> nth_error x i = Some a ->
  Permutation (a :: x1) (v :: x).
Proof.
  revert i x1. induction x as [|h t IH]; intros i x1; [destruct i; discriminate|].
  destruct i as [|i]; cbn.
  - intros [= <-] [= <-]. apply perm_swap.
  - destruct (setitem t i v) as [t1|] eqn:E; [|discriminate].
    cbn. intros [= <-] Hn.
    specialize (IH i t1 E Hn).
    transitivity (h :: a :: t1); [apply perm_swap|].
    transitivity (h :: v :: t); [now constructor | apply perm_swap].
Qed.

Lemma setitem_nth (x x1 : list nat) (i v : nat) :
  setitem x i v = Some x1 ->
  forall j, nth_error x1 j = if Nat.eqb i j then Some v else nth_error x j.
Proof.
  revert i x1. induction x as [|h t IH]; intros i x1; [destruct i; discriminate|].
  destruct i as [|i]; cbn.
  - intros [= <-] [|j]; reflexivity.
  - destruct (setitem t i v) as [t1|] eqn:E; [|discriminate].
    cbn. intros [= <-] [|j]; [reflexivity|]. cbn. now apply IH.
Qed.

Lemma swap_perm (x x2 : list nat) (i j : nat) :
  swap x i j = Some x2 -> Permutation x x2.
Proof.
  unfold swap.
  destruct (nth_error x j) as [xj|] eqn:Ej; [|discriminate].
  destruct (nth_error x i) as [xi|] eqn:Ei; [|discriminate].
  destruct (setitem x i xj) as [x1|] eqn:E1; [|discriminate].
  intros E2.
  pose proof (@setitem_perm _ _ _ _ _ E1 Ei) as P1.
  assert (Hj : nth_error x1 j = Some xj).
  { rewrite (@setitem_nth _ _ _ _ E1). destruct (Nat.eqb_spec i j); [reflexivity | exact Ej]. }
  pose proof (@setitem_perm _ _ _ _ _ E2 Hj) as P2.
  apply Permutation_cons_inv with (a := xj).
  symmetry. transitivity (xi :: x1); [exact P2 | exact P1].
Qed.

Lemma shuffle_down_perm (i : nat) :
  forall x g x' g', shuffle_down i x g = Py.Ok (x', g') -> Permutation x x'.
Proof.
  induction i as [|i IH]; intros x g x' g'; cbn [shuffle_down].
  - now intros [= <- _].
  - destruct (randbelow g (S i + 1)) as [j g1].
    destruct (swap x (S i) j) as [x1|] eqn:E; [|discriminate].
    intros H. transitivity x1; [eapply swap_perm; eauto | eapply IH; eauto].
Qed.

Lemma shuffle_perm (x : list nat) (g : G) (x' : list nat) (g' : G) :
  shuffle x g = Py.Ok (x', g') -> Permutation x x'.
Proof. apply shuffle_down_perm. Qed.

Lemma timing_loop_init (n : nat) (g : G) (jp ja ibi : Q) (l r : list nat) (on : Q) :
  List.length l = n -> List.length r = n ->
  (let (timing_ms, _) := timing_loop n g jp ja ibi in
   Pattern__init__ l r timing_ms on ibi)
  = Py.Ok (mkPattern l r (fst (timing_loop n g jp ja ibi)) on ibi).
Proof.
  intros Hl Hr. pose proof (timing_loop_length n g jp ja ibi) as E.
  destruct (timing_loop n g jp ja ibi) as [t g2]. cbn [fst] in *.
  apply Pattern_init_ok; congruence.
Qed.

(** X20: Every finger is driven exactly once per cycle: the left and the right
    sequence of a random-permutation pattern and of a mirrored pattern are
    permutations of [0 .. num_fingers - 1].  With [mirror_pattern] the two
    hands of a random-permutation pattern are the same sequence, as are
    always those of a mirrored pattern. *)
Theorem generated_sequences_are_permutations (num_fingers : nat)
    (time_on_ms time_off_ms jitter_percent : Q)
    (mirror_pattern randomize : bool) (random_seed : option Z) (entropy : G) :
  (exists p,
     generate_random_permutation num_fingers time_on_ms time_off_ms
       jitter_percent mirror_pattern random_seed entropy = Py.Ok p /\
     Permutation (range num_fingers) (left_sequence p) /\
     Permutation (range num_fingers) (right_sequence p) /\
     (mirror_pattern = true -> left_sequence p = right_sequence p)) /\
  (exists p,
     generate_mirrored_pattern num_fingers time_on_ms time_off_ms
       jitter_percent randomize random_seed entropy = Py.Ok p /\
     Permutation (range num_fingers) (left_sequence p) /\
     left_sequence p = right_sequence p /\
     (randomize = false -> left_sequence p = range num_fingers)).
Proof.
  split.
  - unfold generate_random_permutation.
    set (rng := Random random_seed entropy).
    destruct (shuffle_ok (range num_fingers) rng) as (l & g1 & E1 & Hl & _).
    rewrite range_length in Hl. rewrite E1. cbn [Py.bind].
    pose proof (@shuffle_perm _ _ _ _ E1) as P1.
    destruct mirror_pattern.
    + cbn [Py.bind]. rewrite timing_loop_init by assumption.
      eexists. split; [reflexivity|]. cbn. auto.
    + destruct (shuffle_ok (range num_fingers) g1) as (r & g2 & E2 & Hr & _).
      rewrite range_length in Hr. rewrite E2. cbn [Py.bind].
      pose proof (@shuffle_perm _ _ _ _ E2) as P2.
      rewrite timing_loop_init by assumption.
      eexists. split; [reflexivity|]. cbn. repeat split; auto. discriminate.
  - unfold generate_mirrored_pattern.
    set (rng := Random random_seed entropy).
    destruct randomize.
    + destruct (shuffle_ok (range num_fingers) rng) as (l & g1 & E1 & Hl & _).
      rewrite range_length in Hl. rewrite E1. cbn [Py.bind].
      pose proof (@shuffle_perm _ _ _ _ E1) as P1.
      rewrite timing_loop_init by assumption.
      eexists. split; [reflexivity|]. cbn. repeat split; auto. discriminate.
    + cbn [Py.bind]. rewrite timing_loop_init by apply range_length.
      eexists. split; [reflexivity|]. cbn. repeat split; auto.
Qed.

(** A sequential pattern runs through the fingers in order, or in reverse
    order, on both hands alike, whatever [mirror_pattern] says. *)
Theorem sequential_pattern_order (num_fingers : nat)
    (time_on_ms time_off_ms jitter_percent : Q) (mirror_pattern reverse : bool)
    (entropy : G) :
  exists p,
    generate_sequential_pattern num_fingers time_on_ms time_off_ms
      jitter_percent mirror_pattern reverse entropy = Py.Ok p /\
    left_sequence p = (if reverse then rev (range num_fingers) else range num_fingers) /\
    right_sequence p = left_sequence p /\
    generate_sequential_pattern num_fingers time_on_ms time_off_ms
      jitter_percent (negb mirror_pattern) reverse entropy = Py.Ok p.
Proof.
  unfold generate_sequential_pattern.
  assert (Hlen : List.length (if reverse then rev (range num_fingers)
                              else range num_fingers) = num_fingers)
    by (destruct reverse; rewrite ?length_rev; apply range_length).
  rewrite timing_loop_init by exact Hlen.
  eexists. repeat split.
Qed.

Lemma sum_repeat (q : Q) (n : nat) (acc : Q) :
  (fold_left Qplus (repeat q n) acc == acc + inject_Z (Z.of_nat n) * q)%Q.
Proof.
  revert acc. induction n as [|n IH]; intros acc.
  - cbn. ring.
  - cbn [repeat fold_left]. rewrite IH.
    rewrite Nat2Z.inj_succ. unfold Z.succ. rewrite inject_Z_plus. ring.
Qed.

(** X21: Without jitter a cycle of [n] fingers lasts
    [n * (5 * time_on_ms + 4 * time_off_ms)] milliseconds: for each finger
    one burst and one interval of four on/off periods. *)
Theorem total_duration_without_jitter (num_fingers : nat)
    (time_on_ms time_off_ms jitter_percent : Q)
    (mirror_pattern reverse randomize : bool)
    (random_seed : option Z) (entropy : G) :
  (jitter_percent <= 0)%Q ->
  let expected :=
    (inject_Z (Z.of_nat num_fingers) * (5 * time_on_ms + 4 * time_off_ms))%Q in
  (exists p,
     generate_random_permutation num_fingers time_on_ms time_off_ms
       jitter_percent mirror_pattern random_seed entropy = Py.Ok p /\
     (get_total_duration_ms p == expected)%Q) /\
  (exists p,
     generate_sequential_pattern num_fingers time_on_ms time_off_ms
       jitter_percent mirror_pattern reverse entropy = Py.Ok p /\
     (get_total_duration_ms p == expected)%Q) /\
  (exists p,
     generate_mirrored_pattern num_fingers time_on_ms time_off_ms
       jitter_percent randomize random_seed entropy = Py.Ok p /\
     (get_total_duration_ms p == expected)%Q).
Proof.
  intros Hjp expected.
  assert (H : forall g res, yields num_fingers time_on_ms time_off_ms jitter_percent g res ->
                            exists p, res = Py.Ok p /\
                                      (get_total_duration_ms p == expected)%Q).
  { intros g res (l & r & g' & _ & -> & _).
    eexists. split; [reflexivity|].
    unfold get_total_duration_ms, sum. cbn [timing_ms burst_duration_ms].
    rewrite timing_loop_plain by exact Hjp.
    rewrite sum_repeat, repeat_length. subst expected. ring. }
  repeat split.
  - eapply H, generate_random_permutation_yields.
  - eapply H, generate_sequential_pattern_yields.
  - eapply H, generate_mirrored_pattern_yields.
Qed.

Lemma max_zero_bounds (x lo hi : Q) :
  (lo <= x)%Q -> (x <= hi)%Q -> (0 <= hi)%Q ->
  (0 <= Py.max 0 x)%Q /\ (lo <= Py.max 0 x)%Q /\ (Py.max 0 x <= hi)%Q.
Proof.
  intros Hlo Hhi H0. unfold Py.max.
  destruct (Py.Qltb 0 x) eqn:E.
  - apply Qltb_true in E. repeat split; lra.
  - assert (Hx : (x <= 0)%Q).
    { destruct (Qlt_le_dec 0 x) as [H|H]; [|exact H].
      apply Qltb_true in H. congruence. }
    repeat split; lra.
Qed.

Lemma timing_loop_bounds (n : nat) (g : G) (jp ja ibi : Q) :
  unit_random -> (0 < jp)%Q -> (0 <= ja)%Q -> (0 <= ibi)%Q ->
  Forall (fun t => (0 <= t)%Q /\ (ibi - ja <= t)%Q /\ (t <= ibi + ja)%Q)
         (fst (timing_loop n g jp ja ibi)).
Proof.
  intros Hunit Hjp Hja Hibi. rewrite timing_loop_jitter by exact Hjp.
  revert g. induction n as [|n IH]; intros g; [constructor|].
  cbn [draws]. destruct (Hunit g) as [H0 H1].
  destruct (random g) as [r g1]. cbn [fst] in *. cbn [map].
  constructor; [|apply IH].
  unfold jittered.
  assert (Ha : (0 <= (ja - - ja) * r)%Q).
  { apply Qmult_le_0_compat; [lra | exact H0]. }
  assert (Hb : ((ja - - ja) * r <= (ja - - ja) * 1)%Q).
  { rewrite (Qmult_comm _ r), (Qmult_comm _ 1).
    apply Qmult_le_compat_r; [exact H1 | lra]. }
  apply max_zero_bounds; lra.
Qed.

(** X22: With jitter, a lawful [random()] (values in the unit interval) and
    on/off times that are not negative, every interval of a generated
    pattern is non-negative and lies within [jitter_amount] of the base
    interval [4 * (time_on_ms + time_off_ms)], where [jitter_amount] is
    [(time_on_ms + time_off_ms) * (jitter_percent / 100) / 2]. *)
Theorem jitter_stays_in_band (num_fingers : nat)
    (time_on_ms time_off_ms jitter_percent : Q)
    (mirror_pattern reverse randomize : bool)
    (random_seed : option Z) (entropy : G) :
  unit_random -> (0 < jitter_percent)%Q -> (0 <= time_on_ms + time_off_ms)%Q ->
  let base := (4 * (time_on_ms + time_off_ms))%Q in
  let J := ((time_on_ms + time_off_ms) * (jitter_percent / 100) / 2)%Q in
  let band := fun t => (0 <= t)%Q /\ (base - J <= t)%Q /\ (t <= base + J)%Q in
  (exists p,
     generate_random_permutation num_fingers time_on_ms time_off_ms
       jitter_percent mirror_pattern random_seed entropy = Py.Ok p /\
     Forall band (timing_ms p)) /\
  (exists p,
     generate_sequential_pattern num_fingers time_on_ms time_off_ms
       jitter_percent mirror_pattern reverse entropy = Py.Ok p /\
     Forall band (timing_ms p)) /\
  (exists p,
     generate_mirrored_pattern num_fingers time_on_ms time_off_ms
       jitter_percent randomize random_seed entropy = Py.Ok p /\
     Forall band (timing_ms p)).
Proof.
  intros Hunit Hjp Hc base J band.
  assert (HJ : (0 <= J)%Q).
  { subst J. unfold Qdiv. repeat apply Qmult_le_0_compat; try exact Hc; try lra.
    - apply Qinv_le_0_compat. lra.
    - apply Qinv_le_0_compat. lra. }
  assert (Hb : (0 <= base)%Q) by (subst base; lra).
  assert (H : forall g res, yields num_fingers time_on_ms time_off_ms jitter_percent g res ->
                            exists p, res = Py.Ok p /\ Forall band (timing_ms p)).
  { intros g res (l & r & g' & _ & -> & _).
    eexists. split; [reflexivity|]. cbn [timing_ms].
    apply timing_loop_bounds; assumption. }
  repeat split.
  - eapply H, generate_random_permutation_yields.
  - eapply H, generate_sequential_pattern_yields.
  - eapply H, generate_mirrored_pattern_yields.
Qed.

End PatternMore.

(** The linear congruential generator draws [random()] in the unit
    interval. *)
Lemma lcg_unit_random : @TherapyMore.unit_random Z Lcg.lcg.
Proof.
  intros g. cbn.
  pose proof (Z.mod_pos_bound (g * 1103515245 + 12345) Lcg.modulus eq_refl) as B.
  unfold Lcg.next, Lcg.modulus in *. unfold Qle. cbn. lia.
Qed.

(** Five fingers, mirrored, seeded. *)
Lemma generated_sequences_are_permutations_witness :
  exists p,
    Therapy.generate_random_permutation (R := Lcg.lcg) 5 100 67 (47 # 2) true
      (Some 1%Z) 0%Z = Py.Ok p /\
    Permutation (Therapy.range 5) (Therapy.left_sequence p) /\
    Permutation (Therapy.range 5) (Therapy.right_sequence p) /\
    (true = true -> Therapy.left_sequence p = Therapy.right_sequence p).
Proof.
  apply (proj1 (@generated_sequences_are_permutations Z Lcg.lcg lcg_lawful
                  5 100 67 (47 # 2) true true (Some 1%Z) 0%Z)).
Defined.

(** Five fingers, 100 ms on, 67 ms off, no jitter: 3840 ms per cycle. *)
Lemma total_duration_without_jitter_witness :
  exists p,
    Therapy.generate_random_permutation (R := Lcg.lcg) 5 100 67 0 true
      (Some 1%Z) 0%Z = Py.Ok p /\
    (TherapyMore.get_total_duration_ms p == inject_Z 5 * (5 * 100 + 4 * 67))%Q.
Proof.
  apply (proj1 (@total_duration_without_jitter Z Lcg.lcg lcg_lawful
                  5 100 67 0 true false true (Some 1%Z) 0%Z
                  ltac:(unfold Qle; cbn; lia))).
Defined.

(** Five fingers with 23.5 percent jitter on the linear congruential
    generator. *)
Lemma jitter_stays_in_band_witness :
  exists p,
    Therapy.generate_sequential_pattern (R := Lcg.lcg) 5 100 67 (47 # 2) true
      false 7%Z = Py.Ok p /\
    Forall (fun t => (0 <= t)%Q /\
                     (4 * (100 + 67) - (100 + 67) * ((47 # 2) / 100) / 2 <= t)%Q /\
                     (t <= 4 * (100 + 67) + (100 + 67) * ((47 # 2) / 100) / 2)%Q)
           (Therapy.timing_ms p).
Proof.
  apply (proj1 (proj2 (@jitter_stays_in_band Z Lcg.lcg lcg_lawful
                  5 100 67 (47 # 2) true false true (Some 1%Z) 7%Z
                  lcg_unit_random
                  ltac:(unfold Qlt; cbn; lia)
                  ltac:(unfold Qle; cbn; lia)))).
Defined.

(** ** More on the engine *)

Section EngineMore.
Import Therapy Engine TherapyMore.
Context {G : Type} {R : PyRandom G}.

Lemma generate_next_inv (e e' : TherapyEngine) (g : G) :
  _generate_next_pattern e g = Py.Ok e' ->
  same_session e e' /\
  total_activations e' = total_activations e /\
  cycles_completed e' = cycles_completed e /\
  _activation_start_time e' = None /\
  exists p, _current_pattern e' = Some p /\
    ((String.eqb (get (_pattern_config e) pattern_type "rndp"%string) "rndp" = true /\
      generate_random_permutation
        (get (_pattern_config e) num_fingers 5%nat) (get (_pattern_config e) time_on_ms 100%Q)
        (get (_pattern_config e) time_off_ms 67%Q) (get (_pattern_config e) jitter_percent (47 # 2)%Q)
        (get (_pattern_config e) mirror_pattern true) None g = Py.Ok p) \/
     generate_sequential_pattern
        (get (_pattern_config e) num_fingers 5%nat) (get (_pattern_config e) time_on_ms 100%Q)
        (get (_pattern_config e) time_off_ms 67%Q) (get (_pattern_config e) jitter_percent 0%Q)
        (get (_pattern_config e) mirror_pattern true) false g = Py.Ok p \/
     generate_mirrored_pattern
        (get (_pattern_config e) num_fingers 5%nat) (get (_pattern_config e) time_on_ms 100%Q)
        (get (_pattern_config e) time_off_ms 67%Q) (get (_pattern_config e) jitter_percent (47 # 2)%Q)
        true None g = Py.Ok p).
Proof.
  unfold _generate_next_pattern.
  match goal with |- Py.bind ?x _ = _ -> _ => destruct x as [p|x'] eqn:E end;
    cbn [Py.bind]; [|discriminate].
  intros [= <-]. repeat split; try (now destruct e).
  exists p. split; [now destruct e|].
  destruct (String.eqb _ "rndp"); [left; now split|].
  destruct (String.eqb _ "sequential"); [right; now left|].
  destruct (String.eqb _ "mirrored"); [right; now right|discriminate].
Qed.

Lemma burst_began_same (e e' : TherapyEngine) (events : list Event) :
  _activation_start_time e' = _activation_start_time e \/
  _activation_start_time e' = None ->
  burst_began (mkStep e events e') = false.
Proof.
  unfold burst_began. cbn [before after].
  intros [-> | ->]; [|apply andb_false_r].
  now destruct (_activation_start_time e).
Qed.

(** One pattern step: the session attributes stay, and the activation
    counter goes up by two exactly when a burst begins. *)
Lemma step_inv (fault : option nat) (e : TherapyEngine) (p : Pattern)
    (tick : Tick) (g : G) :
  let '(e', events, _) := _execute_pattern_step fault e p tick g in
  same_session e e' /\
  total_activations e' =
    (total_activations e + if burst_began (mkStep e events e') then 2 else 0)%nat.
Proof.
  unfold _execute_pattern_step.
  destruct (Nat.leb (len p) (_pattern_index e)).
  { destruct (invoke _ fault) as [events raised].
    destruct raised.
    { rewrite burst_began_same by (left; now destruct e).
      split; [|destruct e; cbn; lia]. now destruct e. }
    match goal with |- context [_generate_next_pattern ?x g] =>
      destruct (_generate_next_pattern x g) as [e'|x'] eqn:E end.
    - apply generate_next_inv in E as (Hs & Ht & _ & Ha & _).
      rewrite burst_began_same by now right.
      split; [|rewrite Ht; destruct e; cbn; lia].
      unfold same_session in *.
      destruct Hs as (H1 & H2 & H3 & H4). rewrite H1, H2, H3, H4.
      now destruct e.
    - rewrite burst_began_same by (left; now destruct e).
      split; [|destruct e; cbn; lia]. now destruct e. }
  assert (Hquiet : forall events, same_session e e /\
            total_activations e =
              (total_activations e + if burst_began (mkStep e events e) then 2 else 0)%nat).
  { intros events. rewrite burst_began_same by now left.
    split; [now repeat split | lia]. }
  destruct (_waiting_for_interval e).
  { destruct (Py.truthy_opt (_interval_start_time e)); [|apply Hquiet].
    destruct (_interval_start_time e) as [started|]; [|apply Hquiet].
    destruct (Py.getitem _ _) as [required|]; [|apply Hquiet].
    destruct (Py.Qleb _ _); [|apply Hquiet].
    rewrite burst_began_same by (left; now destruct e).
    split; [now destruct e | destruct e; cbn; lia]. }
  destruct (_activation_start_time e) as [started|] eqn:Ea.
  - destruct (Py.Qleb _ _); [|apply Hquiet].
    destruct (get_finger_pair p (_pattern_index e)) as [[l r]|x]; [|apply Hquiet].
    destruct (invoke _ fault) as [events raised].
    destruct raised; [apply Hquiet|].
    rewrite burst_began_same by (right; now destruct e).
    split; [now destruct e | destruct e; cbn; lia].
  - destruct (get_finger_pair p (_pattern_index e)) as [[l r]|x]; [|apply Hquiet].
    destruct (invoke _ fault) as [events raised].
    destruct raised; [apply Hquiet|].
    unfold burst_began. cbn [before after]. rewrite Ea.
    split; [now destruct e | now destruct e].
Qed.

Lemma update_inv (fault : option nat) (e : TherapyEngine) (tick : Tick) (g : G) :
  let '(e', events, _) := update_with fault e tick g in
  _session_start_time e' = _session_start_time e /\
  _session_duration_sec e' = _session_duration_sec e /\
  _pattern_config e' = _pattern_config e /\
  total_activations e' =
    (total_activations e + if burst_began (mkStep e events e') then 2 else 0)%nat.
Proof.
  assert (Hquiet : forall e', _activation_start_time e' = _activation_start_time e ->
            _session_start_time e' = _session_start_time e ->
            _session_duration_sec e' = _session_duration_sec e ->
            _pattern_config e' = _pattern_config e ->
            total_activations e' = total_activations e ->
            _session_start_time e' = _session_start_time e /\
            _session_duration_sec e' = _session_duration_sec e /\
            _pattern_config e' = _pattern_config e /\
            total_activations e' =
              (total_activations e + if burst_began (mkStep e [] e') then 2 else 0)%nat).
  { intros e' Ha H1 H2 H3 H4. rewrite burst_began_same by now left.
    repeat split; auto. lia. }
  unfold update_with.
  destruct (negb (_is_running e)); [now apply Hquiet|].
  destruct (_is_paused e); [now apply Hquiet|].
  destruct (_should_stop e); [apply Hquiet; now destruct e|].
  match goal with |- context [if ?c then (stop e, _, _) else _] => destruct c end.
  { apply Hquiet; now destruct e. }
  destruct (pattern_truthy (_current_pattern e)) as [p|]; [|now apply Hquiet].
  pose proof (step_inv fault e p tick g) as H.
  destruct (_execute_pattern_step fault e p tick g) as [[e' events] x].
  destruct H as ((_ & H1 & H2 & H3) & H4). auto.
Qed.

(** *** A stopped engine *)

Lemma call_not_running (e : TherapyEngine) (op : Op) :
  _is_running e = false -> is_start op = false ->
  exists e' x, call e op = (e', [], x) /\
    _is_running e' = false /\ get_stats e' = get_stats e.
Proof.
  intros Hr Hop.
  destruct op as [d pt on off j n m now g | tick g | tick g k | | | | b | b | b | b];
    try discriminate; cbn [call];
    try (eexists _, _; split; [reflexivity|]; split; [now destruct e | now destruct e]).
  - unfold update, update_with. rewrite Hr. cbn [negb].
    eexists _, _. split; [reflexivity|]. now split.
  - unfold update_with. rewrite Hr. cbn [negb].
    eexists _, _. split; [reflexivity|]. now split.
Qed.

Lemma not_running_inert (ops : list Op) (e : TherapyEngine) :
  _is_running e = false -> no_start ops = true ->
  events_of (run e ops) = [] /\
  is_running (final e ops) = false /\
  get_stats (final e ops) = get_stats e.
Proof.
  revert e. induction ops as [|op ops IH]; intros e Hr Hops.
  - now repeat split.
  - cbn [no_start forallb] in Hops. apply andb_prop in Hops as [Hop Hrest].
    apply negb_true_iff in Hop.
    destruct (call_not_running e op Hr Hop) as (e' & x & Hc & Hr' & Hs).
    cbn [run final]. rewrite Hc. cbn [fst].
    destruct (IH e' Hr' Hrest) as (H1 & H2 & H3).
    unfold events_of. cbn [flat_map emitted app].
    repeat split; [exact H1 | exact H2 | congruence].
Qed.

(** X23: Once stopped, the engine stays stopped until the next
    [start_session]: whatever is called on it ([update], [pause],
    [resume], [stop], callback installations), no callback is invoked, it
    does not run, and its statistics stay as they were. *)
Theorem stopped_engine_is_inert (e : TherapyEngine) (ops : list Op) :
  no_start ops = true ->
  events_of (run (stop e) ops) = [] /\
  is_running (final (stop e) ops) = false /\
  get_stats (final (stop e) ops) = get_stats e.
Proof.
  intros Hops.
  destruct (@not_running_inert ops (stop e)) as (H1 & H2 & H3);
    [now destruct e | exact Hops |].
  repeat split; [exact H1 | exact H2 |]. rewrite H3. now destruct e.
Qed.

(** *** A paused engine *)

Lemma update_paused (fault : option nat) (e : TherapyEngine) (tick : Tick)
    (g : G) :
  _is_paused e = true -> update_with fault e tick g = (e, [], None).
Proof.
  intros Hp. unfold update_with. rewrite Hp. now destruct (negb (_is_running e)).
Qed.

Lemma paused_updates (ops : list Op) (e : TherapyEngine) :
  _is_paused e = true -> forallb is_update ops = true ->
  events_of (run e ops) = [] /\ final e ops = e.
Proof.
  intros Hp. induction ops as [|op ops IH]; intros Hops; [now split|].
  cbn [forallb] in Hops. apply andb_prop in Hops as [Hop Hrest].
  destruct op; try discriminate; cbn [run final call]; unfold update;
    rewrite update_paused by exact Hp; cbn [fst];
    destruct (IH Hrest) as [H1 H2]; now split.
Qed.

(** X24: While paused, [update] does nothing at all: after any number of
    updates the engine is as [pause] left it and no callback was invoked,
    and [resume] gives back the engine that was paused. *)
Theorem paused_engine_is_frozen (e : TherapyEngine) (ops : list Op) :
  forallb is_update ops = true ->
  events_of (run (pause e) ops) = [] /\
  final (pause e) ops = pause e /\
  (is_paused e = false -> resume (final (pause e) ops) = e).
Proof.
  intros Hops.
  destruct (@paused_updates ops (pause e)) as [H1 H2];
    [now destruct e | exact Hops |].
  repeat split; [exact H1 | exact H2 |].
  intros Hp. rewrite H2. unfold is_paused in Hp. destruct e; cbn in *. now subst.
Qed.

(** *** The session deadline *)



(** *** The activation counter *)

Lemma call_counts (e : TherapyEngine) (op : Op) :
  is_start op = false ->
  let '(e', events, _) := call e op in
  total_activations e' =
    (total_activations e + if burst_began (mkStep e events e') then 2 else 0)%nat.
Proof.
  intros Hop.
  destruct op as [d pt on off j n m now g | tick g | tick g k | | | | b | b | b | b];
    try discriminate; cbn [call];
    try (rewrite burst_began_same by (left; now destruct e); destruct e; cbn; lia).
  - pose proof (update_inv None e tick g) as H. unfold update.
    destruct (update_with None e tick g) as [[e' events] x].
    now destruct H as (_ & _ & _ & H).
  - pose proof (update_inv (Some k) e tick g) as H.
    destruct (update_with (Some k) e tick g) as [[e' events] x].
    now destruct H as (_ & _ & _ & H).
Qed.

(** X26: [total_activations] counts two activations for every burst begun,
    whether or not an activate callback is installed: over any calls
    other than [start_session] it grows by twice the number of bursts
    that began. *)
Theorem total_activations_counts_bursts (e : TherapyEngine) (ops : list Op) :
  no_start ops = true ->
  total_activations (final e ops) =
    (total_activations e + 2 * bursts (run e ops))%nat.
Proof.
  revert e. induction ops as [|op ops IH]; intros e Hops.
  - cbn. lia.
  - cbn [no_start forallb] in Hops. apply andb_prop in Hops as [Hop Hrest].
    apply negb_true_iff in Hop.
    pose proof (call_counts e op Hop) as Hc.
    cbn [run final]. destruct (call e op) as [[e' events] x]. cbn [fst].
    rewrite (IH e' Hrest), Hc. unfold bursts. cbn [filter].
    destruct (burst_began (mkStep e events e')); cbn [List.length]; lia.
Qed.

(** *** Actuator indices *)

Context {L : @LawfulRandom G R}.

Lemma within_same (limit : nat) (e e' : TherapyEngine) :
  _current_pattern e' = _current_pattern e ->
  _pattern_config e' = _pattern_config e ->
  within limit e -> within limit e'.
Proof. unfold within. now intros -> ->. Qed.

Lemma yields_below (limit n : nat) (on off jp : Q) (g : option G)
    (res : Py.result Pattern) (p : Pattern) :
  yields n on off jp g res -> res = Py.Ok p -> (n <= limit)%nat ->
  Forall (fun i => (i < limit)%nat) (left_sequence p) /\
  Forall (fun i => (i < limit)%nat) (right_sequence p).
Proof.
  intros (l & r & g' & _ & -> & _ & _ & Hl & Hr) [= <-] Hn. cbn.
  split; eapply Forall_impl; eauto; cbn; intros; lia.
Qed.

Lemma generate_next_within (limit : nat) (e e' : TherapyEngine) (g : G)
    (c : Config) :
  _pattern_config e = Some c -> (num_fingers c <= limit)%nat ->
  _generate_next_pattern e g = Py.Ok e' -> within limit e'.
Proof.
  intros Hc Hn E.
  apply generate_next_inv in E as ((_ & _ & _ & Hcfg) & _ & _ & _ & p & Hp & Hgen).
  unfold within. rewrite Hp, Hcfg, Hc. split; [|exact Hn].
  rewrite Hc in Hgen. cbn [get] in Hgen.
  destruct Hgen as [[_ Hgen] | [Hgen | Hgen]].
  - eapply yields_below; [apply generate_random_permutation_yields | exact Hgen | exact Hn].
  - eapply yields_below; [apply generate_sequential_pattern_yields | exact Hgen | exact Hn].
  - eapply yields_below; [apply generate_mirrored_pattern_yields | exact Hgen | exact Hn].
Qed.

Lemma finger_pair_below (limit : nat) (p : Pattern) (i l r : nat) :
  Forall (fun i => (i < limit)%nat) (left_sequence p) ->
  Forall (fun i => (i < limit)%nat) (right_sequence p) ->
  get_finger_pair p i = Py.Ok (l, r) -> (l < limit)%nat /\ (r < limit)%nat.
Proof.
  intros Hl Hr. unfold get_finger_pair.
  destruct (nth_error (left_sequence p) i) as [a|] eqn:Ea; [|discriminate].
  destruct (nth_error (right_sequence p) i) as [b|] eqn:Eb; [|discriminate].
  intros [= <- <-]. rewrite Forall_forall in Hl, Hr.
  split; [apply Hl | apply Hr]; eapply nth_error_In; eauto.
Qed.

Lemma invoke_within (limit : nat) (calls : list Event) (fault : option nat) :
  Forall (event_in_range limit) calls ->
  Forall (event_in_range limit) (fst (invoke calls fault)).
Proof.
  intros H. destruct (invoke_cases calls fault) as [-> | (k & _ & ->)];
    [exact H|]. cbn [fst].
  rewrite <- (firstn_skipn (S k) calls) in H.
  now apply Forall_app in H as [H _].
Qed.

Lemma step_within (fault : option nat) (limit : nat) (e : TherapyEngine)
    (p : Pattern) (tick : Tick) (g : G) :
  within limit e -> _current_pattern e = Some p ->
  let '(e', events, _) := _execute_pattern_step fault e p tick g in
  within limit e' /\ Forall (event_in_range limit) events.
Proof.
  intros Hw Hp.
  assert (Hseq : Forall (fun i => (i < limit)%nat) (left_sequence p) /\
                 Forall (fun i => (i < limit)%nat) (right_sequence p)).
  { destruct Hw as [Hw _]. now rewrite Hp in Hw. }
  destruct Hseq as [Hl Hr].
  assert (Hcfg : exists c, _pattern_config e = Some c /\ (num_fingers c <= limit)%nat).
  { destruct Hw as [_ Hw]. destruct (_pattern_config e) as [c|]; [now exists c|].
    congruence. }
  destruct Hcfg as (c & Hc & Hn).
  unfold _execute_pattern_step.
  destruct (Nat.leb (len p) (_pattern_index e)).
  { match goal with |- context [invoke ?calls fault] =>
      assert (Hev : Forall (event_in_range limit) (fst (invoke calls fault)))
        by (apply invoke_within;
            destruct (_on_cycle_complete _); repeat constructor);
      destruct (invoke calls fault) as [events raised] end.
    cbn [fst] in Hev.
    destruct raised.
    { split; [|exact Hev]. eapply within_same; [| | exact Hw]; now destruct e. }
    match goal with |- context [_generate_next_pattern ?x g] =>
      destruct (_generate_next_pattern x g) as [e'|x'] eqn:E end.
    - split; [|exact Hev].
      eapply generate_next_within; [| exact Hn | exact E]. now destruct e.
    - split; [|exact Hev].
      eapply within_same; [| | exact Hw]; now destruct e. }
  destruct (_waiting_for_interval e).
  { destruct (Py.truthy_opt (_interval_start_time e)); [|now split].
    destruct (_interval_start_time e) as [started|]; [|now split].
    destruct (Py.getitem _ _) as [required|]; [|now split].
    destruct (Py.Qleb _ _); [|now split].
    split; [|constructor]. eapply within_same; [| | exact Hw]; now destruct e. }
  destruct (_activation_start_time e) as [started|].
  - destruct (Py.Qleb _ _); [|now split].
    destruct (get_finger_pair p (_pattern_index e)) as [[l r]|x] eqn:Hpair; [|now split].
    destruct (@finger_pair_below _ _ _ _ _ Hl Hr Hpair) as [Hlt Hrt].
    match goal with |- context [invoke ?calls fault] =>
      assert (Hev : Forall (event_in_range limit) (fst (invoke calls fault)))
        by (apply invoke_within;
            destruct (_deactivate_callback e); repeat constructor; assumption);
      destruct (invoke calls fault) as [events raised] end.
    cbn [fst] in Hev.
    destruct raised; [now split|].
    split; [eapply within_same; [| | exact Hw]; now destruct e | exact Hev].
  - destruct (get_finger_pair p (_pattern_index e)) as [[l r]|x] eqn:Hpair; [|now split].
    destruct (@finger_pair_below _ _ _ _ _ Hl Hr Hpair) as [Hlt Hrt].
    match goal with |- context [invoke ?calls fault] =>
      assert (Hev : Forall (event_in_range limit) (fst (invoke calls fault)));
      [apply invoke_within; apply Forall_app; split;
         [destruct (_send_command_callback e); repeat constructor; assumption
         |destruct (_activate_callback e); repeat constructor; assumption]
      |destruct (invoke calls fault) as [events raised]] end.
    cbn [fst] in Hev.
    destruct raised; [now split|].
    split; [eapply within_same; [| | exact Hw]; now destruct e | exact Hev].
Qed.

Lemma update_within (fault : option nat) (limit : nat) (e : TherapyEngine)
    (tick : Tick) (g : G) :
  within limit e ->
  let '(e', events, _) := update_with fault e tick g in
  within limit e' /\ Forall (event_in_range limit) events.
Proof.
  intros Hw. unfold update_with.
  destruct (negb (_is_running e)); [now split|].
  destruct (_is_paused e); [now split|].
  destruct (_should_stop e).
  { split; [eapply within_same; [| | exact Hw]; now destruct e | constructor]. }
  match goal with |- context [if ?c then (stop e, _, _) else _] => destruct c end.
  { split; [eapply within_same; [| | exact Hw]; now destruct e | constructor]. }
  destruct (pattern_truthy (_current_pattern e)) as [p|] eqn:Hp; [|now split].
  apply pattern_truthy_some in Hp as [Hp _].
  now apply step_within.
Qed.

Lemma call_within (limit : nat) (e : TherapyEngine) (op : Op) :
  within limit e -> (fingers_asked op <= limit)%nat ->
  let '(e', events, _) := call e op in
  within limit e' /\ Forall (event_in_range limit) events.
Proof.
  intros Hw Hn.
  destruct op as [d pt on off j n m now g | tick g | tick g k | | | | b | b | b | b];
    cbn [call];
    try (split; [eapply within_same; [| | exact Hw]; now destruct e | constructor]).
  - cbn [fingers_asked] in Hn. unfold start_session.
    match goal with |- context [_generate_next_pattern ?x g] =>
      destruct (_generate_next_pattern x g) as [e'|x'] eqn:E end.
    + split; [|constructor].
      eapply generate_next_within; [| | exact E]; [now destruct e | exact Hn].
    + split; [|constructor].
      destruct Hw as [Hw _]. unfold within. destruct e; cbn in *. now split.
  - now apply (@update_within None).
  - now apply update_within.
Qed.

Lemma run_within (limit : nat) (ops : list Op) (e : TherapyEngine) :
  within limit e ->
  Forall (fun op => (fingers_asked op <= limit)%nat) ops ->
  Forall (event_in_range limit) (events_of (run e ops)).
Proof.
  revert e. induction ops as [|op ops IH]; intros e Hw Hops; [constructor|].
  inversion Hops as [|? ? Hop Hrest]; subst.
  pose proof (@call_within _ _ op Hw Hop) as Hc.
  cbn [run]. destruct (call e op) as [[e' events] x].
  destruct Hc as [Hw' Hev].
  unfold events_of. cbn [flat_map emitted]. apply Forall_app. split; [exact Hev|].
  now apply IH.
Qed.

(** X27: The engine never addresses an actuator that does not exist: in every
    execution from a fresh engine in which no session asks for more than
    [limit] fingers, every activate, deactivate and execute-buzz command
    carries finger indices below [limit], and every amplitude is 100. *)
Theorem actuators_in_range (limit : nat) (ops : list Op) :
  Forall (fun op => (fingers_asked op <= limit)%nat) ops ->
  Forall (event_in_range limit) (events_of (run __init__ ops)).
Proof.
  apply run_within. unfold within. cbn. now split.
Qed.

End EngineMore.

Section EngineMoreRuns.
Import Engine TherapyMore.
Local Open Scope string_scope.

(** A stopped session, then updates and a pause. *)
Lemma stopped_engine_is_inert_witness :
  let e := fst (start_session (R := Lcg.lcg)
                  (set_activate_callback true __init__)
                  10 "sequential" 100 67 0 2 true 1%Q 0%Z) in
  let ops := [Update (instant 2%Q) 0%Z; Pause; Resume; Update (instant 3%Q) 0%Z] in
  events_of (run (R := Lcg.lcg) (stop e) ops) = [] /\
  is_running (final (R := Lcg.lcg) (stop e) ops) = false /\
  get_stats (final (R := Lcg.lcg) (stop e) ops) = get_stats e.
Proof.
  cbv zeta.
  apply (@stopped_engine_is_inert Z Lcg.lcg); reflexivity.
Defined.

(** Two updates while paused. *)
Lemma paused_engine_is_frozen_witness :
  let e := fst (start_session (R := Lcg.lcg)
                  (set_activate_callback true __init__)
                  10 "sequential" 100 67 0 2 true 1%Q 0%Z) in
  let ops := [Update (instant 2%Q) 0%Z; Update (instant 30%Q) 0%Z] in
  events_of (run (R := Lcg.lcg) (pause e) ops) = [] /\
  final (R := Lcg.lcg) (pause e) ops = pause e /\
  (is_paused e = false -> resume (final (R := Lcg.lcg) (pause e) ops) = e).
Proof.
  cbv zeta.
  apply (@paused_engine_is_frozen Z Lcg.lcg); reflexivity.
Defined.


(** One burst of a one-finger session: two activations counted. *)
Lemma total_activations_counts_bursts_witness :
  let e := fst (start_session (R := Lcg.lcg) __init__
                  10 "sequential" 100 67 0 1 true 1%Q 0%Z) in
  let ops := [Update (instant 2%Q) 0%Z; Update (instant 3%Q) 0%Z] in
  total_activations (final (R := Lcg.lcg) e ops)
    = (total_activations e + 2 * bursts (run (R := Lcg.lcg) e ops))%nat.
Proof.
  cbv zeta.
  apply (@total_activations_counts_bursts Z Lcg.lcg); reflexivity.
Defined.

(** A five-finger session on a five-actuator glove. *)
Lemma actuators_in_range_witness :
  Forall (event_in_range 5)
    (events_of
       (run (R := Lcg.lcg) __init__
          [SetActivateCallback true; SetDeactivateCallback true;
           SetSendCommandCallback true;
           StartSession 10 "rndp" 100 67 (47 # 2) 5 true 1%Q 0%Z;
           Update (instant 2%Q) 0%Z; Update (instant 3%Q) 0%Z])).
Proof.
  apply (@actuators_in_range Z Lcg.lcg lcg_lawful 5).
  repeat constructor.
Defined.

End EngineMoreRuns.

(** ** Messages at the menu *)

Section MenuFacts.
Import Text.
Local Open Scope string_scope.
Variable handlers : string -> list string -> string + string.

Lemma word_char_plain (c : ascii) :
  Menu.word_char c = true ->
  Py.starts_space c = false /\ Ascii.eqb c BLE.EOT = false /\
  Ascii.eqb c (ascii_of_nat 10) = false /\ Ascii.eqb c ":" = false /\
  Menu.upper_char c = c.
Proof.
  destruct c as [[] [] [] [] [] [] [] []]; intros H;
    first [discriminate H | repeat split; reflexivity].
Qed.

Lemma rstrip_word (w r : string) :
  all_chars Menu.word_char w = true -> Py.rstrip (w ++ r) = w ++ Py.rstrip r.
Proof.
  induction w as [|c w IH]; cbn [all_chars append]; [reflexivity|].
  intros H. apply andb_prop in H as [Hc Hw].
  rewrite rstrip_cons by apply (word_char_plain _ Hc). now rewrite IH.
Qed.

Lemma remove_char_word (c : ascii) (w r : string) :
  (forall a, Menu.word_char a = true -> Ascii.eqb a c = false) ->
  all_chars Menu.word_char w = true ->
  Menu.remove_char c (w ++ r) = w ++ Menu.remove_char c r.
Proof.
  intros Hc. induction w as [|a w IH]; cbn [all_chars append]; [reflexivity|].
  intros H. apply andb_prop in H as [Ha Hw].
  cbn [Menu.remove_char]. rewrite (Hc a Ha). now rewrite IH.
Qed.

(** The clean-up leaves a leading command word and its colon alone. *)
Lemma cleaned_word (w tail : string) :
  w <> "" -> all_chars Menu.word_char w = true ->
  Menu.cleaned (w ++ String ":" tail) =
  w ++ String ":" (Menu.remove_char BLE.EOT
                     (Menu.remove_char (ascii_of_nat 10) (Py.rstrip tail))).
Proof.
  intros Hne Hw. unfold Menu.cleaned, Py.strip.
  assert (Hl : Py.lstrip (w ++ String ":" tail) = w ++ String ":" tail).
  { destruct w as [|c w]; [congruence|]. cbn [all_chars] in Hw.
    apply andb_prop in Hw as [Hc _]. cbn [append].
    apply lstrip_head, (word_char_plain _ Hc). }
  rewrite Hl, rstrip_word by exact Hw.
  rewrite rstrip_cons by reflexivity.
  rewrite remove_char_word; [|intros a Ha; apply (word_char_plain _ Ha) | exact Hw].
  cbn [Menu.remove_char]. change (Ascii.eqb ":" (ascii_of_nat 10)) with false. cbv iota.
  rewrite remove_char_word; [|intros a Ha; apply (word_char_plain _ Ha) | exact Hw].
  reflexivity.
Qed.

Lemma prefix_word (p w tail : string) :
  lacks ":" p ->
  String.prefix p (w ++ String ":" tail) = String.prefix p w.
Proof.
  unfold lacks. revert w. induction p as [|a p IH]; intros w Hp.
  - now destruct w.
  - cbn [Py.contains_char] in Hp. apply orb_false_elim in Hp as [Ha Hp].
    destruct w as [|b w]; cbn [append String.prefix].
    + destruct (Ascii.ascii_dec a ":") as [->|Hn]; [discriminate Ha | reflexivity].
    + destruct (Ascii.ascii_dec a b); [now apply IH | reflexivity].
Qed.

Lemma internal_word (w tail : string) :
  existsb (Menu.startswith (w ++ String ":" tail)) Menu.INTERNAL_MESSAGES
  = existsb (Menu.startswith w) Menu.INTERNAL_MESSAGES.
Proof.
  unfold Menu.INTERNAL_MESSAGES, Menu.startswith. cbn [existsb].
  now rewrite !prefix_word by reflexivity.
Qed.

Lemma upper_word (w : string) :
  all_chars Menu.word_char w = true -> Menu.upper w = w.
Proof.
  induction w as [|c w IH]; cbn [all_chars Menu.upper]; [reflexivity|].
  intros H. apply andb_prop in H as [Hc Hw].
  destruct (word_char_plain _ Hc) as (_ & _ & _ & _ & ->). now rewrite IH.
Qed.

Lemma word_lacks_colon (w : string) :
  all_chars Menu.word_char w = true -> lacks ":" w.
Proof. apply all_chars_no_char. reflexivity. Qed.

(** What [parse_command] makes of a message that begins with a command
    word and a colon. *)
Lemma parse_word (w tail : string) :
  w <> "" -> all_chars Menu.word_char w = true ->
  Menu.parse_command (w ++ String ":" tail) =
  if existsb (Menu.startswith w) Menu.INTERNAL_MESSAGES then Py.Ok None
  else Py.Ok (Some (w, Py.split ":"
                         (Menu.remove_char BLE.EOT
                            (Menu.remove_char (ascii_of_nat 10) (Py.rstrip tail))))).
Proof.
  intros Hne Hw. unfold Menu.parse_command.
  assert (Hn : forall x, Py.nonempty (w ++ x) = true).
  { intros x. destruct w; [congruence | reflexivity]. }
  rewrite Hn, cleaned_word by assumption. cbn [negb].
  rewrite Hn, internal_word. cbn [negb].
  destruct (existsb _ _); [reflexivity|].
  rewrite split_app_sep by now apply word_lacks_colon.
  pose proof (@split_nonempty ":" (Menu.remove_char BLE.EOT
                (Menu.remove_char (ascii_of_nat 10) (Py.rstrip tail)))) as Hs.
  destruct (Py.split ":" _) as [|h t]; [congruence|].
  cbn. now rewrite upper_word by exact Hw.
Qed.

Lemma handle_unknown_word (w tail : string) :
  w <> "" -> all_chars Menu.word_char w = true ->
  existsb (Menu.startswith w) Menu.INTERNAL_MESSAGES = false ->
  Menu.is_command w = false ->
  Menu.handle_command handlers (w ++ String ":" tail)
  = Py.Ok (Menu.format_error ("Unknown command: " ++ w)).
Proof.
  intros Hne Hw Hi Hc. unfold Menu.handle_command.
  rewrite parse_word, Hi by assumption. cbn [Py.bind]. now rewrite Hc.
Qed.

Lemma handle_internal_word (w tail : string) :
  w <> "" -> all_chars Menu.word_char w = true ->
  existsb (Menu.startswith w) Menu.INTERNAL_MESSAGES = true ->
  Menu.handle_command handlers (w ++ String ":" tail)
  = Py.Ok (if Menu.endswith (w ++ String ":" tail) Menu.EOT
           then w ++ String ":" tail
           else (w ++ String ":" tail) ++ Menu.EOT).
Proof.
  intros Hne Hw Hi. unfold Menu.handle_command.
  now rewrite parse_word, Hi by assumption.
Qed.

Lemma endswith_newline (s : string) :
  Menu.endswith (s ++ Sync.newline) Menu.EOT = false.
Proof.
  induction s as [|c s IH]; [reflexivity|].
  cbn [append Menu.endswith]. rewrite IH.
  unfold Menu.EOT. cbn [String.eqb].
  destruct (Ascii.eqb c BLE.EOT); [|reflexivity].
  now destruct s.
Qed.

(** One read that begins with a whole frame ends the loop of [receive]
    with that frame. *)
Lemma receive_loop_head (timeout : option Q) (start_time : Q) (p : BLE.Poll)
    (rest : list BLE.Poll) (message tail : string) :
  Py.is_text message = true -> Py.is_text tail = true ->
  lacks BLE.EOT message ->
  BLE.timed_out timeout start_time (BLE.poll_now p) = false ->
  (0 < BLE.in_waiting p)%Z ->
  BLE.read p = Some (message ++ String BLE.EOT tail) ->
  BLE.receive_loop timeout start_time "" (p :: rest)
  = BLE.Message message (BLE.poll_stamp p).
Proof.
  intros Hm Ht Hlack Hto Hw Hr. cbn [BLE.receive_loop].
  rewrite Hto. apply Z.ltb_lt in Hw. rewrite Hw, Hr.
  assert (Hne : Py.nonempty (message ++ String BLE.EOT tail) = true)
    by (destruct message; reflexivity).
  rewrite Hne. unfold Py.decode.
  assert (Htext : Py.is_text (message ++ String BLE.EOT tail) = true).
  { apply is_text_app; [exact Hm|].
    change (String BLE.EOT tail) with (String BLE.EOT "" ++ tail).
    apply is_text_app; [reflexivity | exact Ht]. }
  rewrite Htext. cbn [append].
  rewrite contains_char_app. cbn [Py.contains_char].
  rewrite Ascii.eqb_refl. cbn [orb]. rewrite orb_true_r.
  rewrite find_char_app by exact Hlack. now rewrite take_app.
Qed.

(** A frame read whole is handed to the menu and the response queued for
    the connection it came from. *)
Lemma process_received (ble : BLE.connections) (queue : App.message_queue)
    (connection : string) (conn : BLE.BLEConnection) (start_time : Q)
    (p : BLE.Poll) (rest : list BLE.Poll) (message tail response : string) :
  BLE.lookup ble connection = Some conn ->
  BLE.is_connected conn = true ->
  Py.is_text message = true -> Py.is_text tail = true ->
  lacks BLE.EOT message ->
  BLE.timed_out (Some (1 # 100)%Q) start_time (BLE.poll_now p) = false ->
  (0 < BLE.in_waiting p)%Z ->
  BLE.read p = Some (message ++ String BLE.EOT tail) ->
  Menu.handle_command handlers message = Py.Ok response ->
  App._process_connection_messages handlers ble queue connection start_time
    (p :: rest)
  = Some (BLE.store ble connection (BLE.update_last_seen conn (BLE.poll_stamp p)),
          (queue ++ [(connection, response)])%list).
Proof.
  intros Hl Hc Hm Ht Hlack Hto Hw Hr Hh.
  unfold App._process_connection_messages, BLE.receive.
  rewrite Hl, Hc. cbn [negb].
  rewrite (@receive_loop_head _ _ _ _ message tail) by assumption.
  now rewrite Hh.
Qed.

(** X28: The menu has no command for the messages [send_sync_command] builds.
    Such a message (["SYNC:" + command_type + ":" + data]), written by
    [send] and read whole by [receive] in a device that runs
    [_process_connection_messages], is handed to the menu, and the one
    effect is the reply ["ERROR:Unknown command: SYNC"] queued for the
    connection it came from. *)
Theorem sync_command_unknown_to_menu (sender receiver : BLE.connections)
    (now : Q) (tx_id rx_id command_type : string) (data : Sync.dict)
    (conn : BLE.BLEConnection) (queue : App.message_queue) (start_time : Q)
    (p : BLE.Poll) (rest : list BLE.Poll) :
  let message := App.sync_message command_type data in
  let sender' := App.send_sync_command App.PRIMARY (Some tx_id) sender now
                    command_type data in
  Py.nonempty tx_id = true ->
  fst (BLE.send sender now tx_id message) = true ->
  Py.is_text message = true -> lacks BLE.EOT message ->
  BLE.lookup receiver rx_id = Some conn -> BLE.is_connected conn = true ->
  BLE.timed_out (Some (1 # 100)%Q) start_time (BLE.poll_now p) = false ->
  (0 < BLE.in_waiting p)%Z ->
  BLE.read p = BLE.last_written sender' tx_id ->
  exists ble',
    App._process_connection_messages handlers receiver queue rx_id start_time
      (p :: rest)
    = Some (ble',
            (queue ++ [(rx_id, Menu.format_error "Unknown command: SYNC")])%list).
Proof.
  intros message sender' Hid Hsent Htext Hlack Hl Hc Hto Hw Hr.
  subst sender'. unfold App.send_sync_command, App.connection_set in Hr.
  rewrite Hid in Hr. fold message in Hr.
  rewrite (@send_writes_frame _ _ _ _ Hsent) in Hr.
  eexists.
  apply (@process_received receiver queue rx_id conn start_time p rest
           message "" _ Hl Hc Htext eq_refl Hlack Hto Hw Hr).
  subst message. unfold App.sync_message.
  change ("SYNC:" ++ ?x) with ("SYNC" ++ String ":" x).
  now apply handle_unknown_word.
Qed.

(** X29: An error reply is answered with an error reply.  The reply
    [format_error m], sent by [_process_message_queue] and read whole by
    [receive] in a device that runs [_process_connection_messages],
    reaches the menu as ["ERROR:" + m]; the menu knows no command [ERROR]
    and ["ERROR:Unknown command: ERROR"] is queued for the connection it
    came from, which is an error reply again. *)
Theorem error_reply_gets_error_reply (a b : BLE.connections) (clock : nat -> Q)
    (tx_id rx_id m : string) (conn : BLE.BLEConnection)
    (queue : App.message_queue) (start_time : Q)
    (p : BLE.Poll) (rest : list BLE.Poll) :
  let reply := Menu.format_error m in
  let a' := fst (App._process_message_queue a clock [(tx_id, reply)]) in
  Py.is_text m = true -> lacks BLE.EOT m ->
  fst (BLE.send a (clock 5%nat) tx_id reply) = true ->
  BLE.lookup b rx_id = Some conn -> BLE.is_connected conn = true ->
  BLE.timed_out (Some (1 # 100)%Q) start_time (BLE.poll_now p) = false ->
  (0 < BLE.in_waiting p)%Z ->
  BLE.read p = BLE.last_written a' tx_id ->
  exists ble',
    App._process_connection_messages handlers b queue rx_id start_time
      (p :: rest)
    = Some (ble',
            (queue ++ [(rx_id, Menu.format_error "Unknown command: ERROR")])%list).
Proof.
  intros reply a' Htext Hlack Hsent Hl Hc Hto Hw Hr.
  subst a'. unfold App._process_message_queue in Hr.
  cbn [App.process_queue fst] in Hr.
  rewrite (@send_writes_frame _ _ _ _ Hsent) in Hr.
  subst reply. unfold Menu.format_error, Menu.EOT in Hr.
  replace (("ERROR:" ++ m ++ String (ascii_of_nat 10) "" ++ String BLE.EOT "")
             ++ String BLE.EOT "")
    with (("ERROR:" ++ m ++ Sync.newline) ++ String BLE.EOT (String BLE.EOT ""))
    in Hr by (unfold Sync.newline; now rewrite !append_assoc).
  eexists.
  apply (@process_received b queue rx_id conn start_time p rest
           ("ERROR:" ++ m ++ Sync.newline) (String BLE.EOT "") _ Hl Hc);
    try assumption; try reflexivity.
  - apply (@is_text_app "ERROR:"); [reflexivity|].
    apply is_text_app; [exact Htext | reflexivity].
  - unfold lacks in *. rewrite !contains_char_app, Hlack. reflexivity.
  - change ("ERROR:" ++ ?x) with ("ERROR" ++ String ":" x).
    now apply handle_unknown_word.
Qed.

(** X30: Of the six sync command types, the menu takes the wire messages of
    two, [EXECUTE_BUZZ] and [BUZZ_COMPLETE], for internal messages and
    returns them with an EOT appended; the messages of the other four it
    answers with ["ERROR:Unknown command: "] and the type. *)
Theorem sync_wire_at_menu (c : Sync.SyncCommand) :
  In (Sync.command_type c) SyncCommandType.members ->
  Menu.handle_command handlers (Sync.serialize c)
  = Py.Ok (if Menu.is_internal_message (Sync.serialize c)
           then Sync.serialize c ++ Menu.EOT
           else Menu.format_error
                  ("Unknown command: " ++ Enum.value (Sync.command_type c))) /\
  (Menu.is_internal_message (Sync.serialize c) = true <->
   Sync.command_type c = SyncCommandType.EXECUTE_BUZZ \/
   Sync.command_type c = SyncCommandType.BUZZ_COMPLETE).
Proof.
  intros Hin.
  assert (Hwire : exists tail,
             Sync.serialize c = Enum.value (Sync.command_type c) ++ String ":" tail /\
             Menu.endswith (Sync.serialize c) Menu.EOT = false).
  { rewrite serialize_wire. unfold Sync.spec_wire_text.
    eexists. split; [|apply endswith_newline].
    rewrite !append_assoc. cbn [append]. reflexivity. }
  destruct Hwire as (tail & Hwire & Hend).
  assert (Hword : Enum.value (Sync.command_type c) <> "" /\
                  all_chars Menu.word_char (Enum.value (Sync.command_type c)) = true).
  { cbn in Hin.
    destruct Hin as [<- | [<- | [<- | [<- | [<- | [<- | []]]]]]];
      (split; [discriminate | reflexivity]). }
  destruct Hword as [Hne Hw].
  assert (Hint : Menu.is_internal_message (Sync.serialize c)
                 = existsb (Menu.startswith (Enum.value (Sync.command_type c)))
                     Menu.INTERNAL_MESSAGES).
  { unfold Menu.is_internal_message. rewrite Hwire.
    rewrite cleaned_word by assumption. apply internal_word. }
  rewrite Hint. rewrite Hwire in Hend |- *.
  destruct (existsb _ Menu.INTERNAL_MESSAGES) eqn:Ei.
  - split.
    + rewrite handle_internal_word by assumption. now rewrite Hend.
    + split; [intros _|reflexivity].
      cbn in Hin.
      destruct Hin as [E | [E | [E | [E | [E | [E | []]]]]]];
        rewrite <- E in Ei; first [discriminate Ei | now left | now right].
  - split.
    + apply handle_unknown_word; try assumption.
      cbn in Hin.
      destruct Hin as [E | [E | [E | [E | [E | [E | []]]]]]];
        rewrite <- E in Ei |- *; first [discriminate Ei | reflexivity].
    + split; [discriminate|].
      intros [E | E]; rewrite E in Ei; discriminate Ei.
Qed.

End MenuFacts.

Section MenuRuns.
Import Text.
Local Open Scope string_scope.

(** The command the engine sends when a burst of fingers 2 and 4 begins,
    read whole. *)
Lemma sync_command_unknown_to_menu_witness :
  let data := [("left_finger", Sync.VInt 2); ("right_finger", Sync.VInt 4);
               ("amplitude", Sync.VInt 100)] in
  let frame := "SYNC:EXECUTE_BUZZ:left_finger|2|right_finger|4|amplitude|100"
               ++ String BLE.EOT "" in
  exists ble',
    App._process_connection_messages (fun _ _ => inl "") BLE.demo_link []
      "secondary" 5%Q [BLE.mkPoll 5%Q 61 (Some frame) 5%Q]
    = Some (ble',
            [("secondary", Menu.format_error "Unknown command: SYNC")]).
Proof.
  cbv zeta.
  apply (@sync_command_unknown_to_menu (fun _ _ => inl "")
           BLE.demo_link BLE.demo_link 1%Q "secondary" "secondary"
           "EXECUTE_BUZZ"
           [("left_finger", Sync.VInt 2); ("right_finger", Sync.VInt 4);
            ("amplitude", Sync.VInt 100)]
           (BLE.mkBLEConnection "secondary" (Some true) (BLE.mkUART [] false) 0 0)
           [] 5%Q
           (BLE.mkPoll 5%Q 61
              (Some ("SYNC:EXECUTE_BUZZ:left_finger|2|right_finger|4|amplitude|100"
                     ++ String BLE.EOT "")) 5%Q) []);
    try reflexivity.
Defined.

(** The reply of the previous run, sent and read whole in turn. *)
Lemma error_reply_gets_error_reply_witness :
  let frame := Menu.format_error "Unknown command: SYNC" ++ String BLE.EOT "" in
  exists ble',
    App._process_connection_messages (fun _ _ => inl "") BLE.demo_link []
      "secondary" 5%Q [BLE.mkPoll 5%Q 30 (Some frame) 5%Q]
    = Some (ble',
            [("secondary", Menu.format_error "Unknown command: ERROR")]).
Proof.
  cbv zeta.
  apply (@error_reply_gets_error_reply (fun _ _ => inl "")
           BLE.demo_link BLE.demo_link (fun _ => 1%Q) "secondary" "secondary"
           "Unknown command: SYNC"
           (BLE.mkBLEConnection "secondary" (Some true) (BLE.mkUART [] false) 0 0)
           [] 5%Q
           (BLE.mkPoll 5%Q 30
              (Some (Menu.format_error "Unknown command: SYNC"
                     ++ String BLE.EOT "")) 5%Q) []);
    try reflexivity.
Defined.

(** A [FIRST_SYNC] command on the wire. *)
Lemma sync_wire_at_menu_witness :
  let c := Sync.mkCommand 1 1000 SyncCommandType.FIRST_SYNC [] in
  Menu.handle_command (fun _ _ => inl "") (Sync.serialize c)
  = Py.Ok (if Menu.is_internal_message (Sync.serialize c)
           then Sync.serialize c ++ Menu.EOT
           else Menu.format_error
                  ("Unknown command: " ++ Enum.value (Sync.command_type c))) /\
  (Menu.is_internal_message (Sync.serialize c) = true <->
   Sync.command_type c = SyncCommandType.EXECUTE_BUZZ \/
   Sync.command_type c = SyncCommandType.BUZZ_COMPLETE).
Proof.
  cbv zeta.
  apply (@sync_wire_at_menu (fun _ _ => inl "")
           (Sync.mkCommand 1 1000 SyncCommandType.FIRST_SYNC [])).
  cbn. tauto.
Defined.

End MenuRuns.
